(** * cube: a shallow embedding of the orchestrator core

    The development follows the Go packages of the repository:
    [task] (state machine and task records), [store], [stats], [node],
    [scheduler] (round-robin, greedy and E-PVM placement), [worker] and
    [manager].  Definitions come first, package by package; the theorems
    about them follow in the second half of the file. *)

From Stdlib Require Import ZArith Ascii String Floats Reals Lra Lia.
From stdpp Require Import base option list gmap strings.

Local Open Scope Z_scope.

(* Decimal constants of the Go source are read, as Go reads them, as the
   nearest binary64 value. *)
#[local] Set Warnings "-inexact-float".

(** ** Go base types *)

Module Go.

(** Go's [int] and [int64] on the 64-bit targets the program is built for:
    a signed 64-bit integer whose arithmetic wraps around. *)
Definition int_min : Z := - 2 ^ 63.
Definition int_max : Z := 2 ^ 63 - 1.
Definition wrap64 (z : Z) : Z := (z + 2 ^ 63) mod 2 ^ 64 - 2 ^ 63.

(** [float64(x)] for [x] an [int] or [int64], rounded to nearest even. *)
Definition float_of_uint63 (z : Z) : float := PrimFloat.of_uint63 (Uint63.of_Z z).

Definition float_of_int64 (z : Z) : float :=
  if z <? 0 then
    if z =? int_min then (-0x1p63)%float
    else PrimFloat.opp (float_of_uint63 (- z))
  else float_of_uint63 z.

(** [float64(x)] for [x] a [uint64]; above 2^63 the low bit is folded into
    the halved value as a sticky bit, which keeps the rounding exact. *)
Definition float_of_uint64 (z : Z) : float :=
  if z <? 2 ^ 63 then float_of_uint63 z
  else (float_of_uint63 (Z.lor (Z.shiftr z 1) (Z.land z 1)) * 2)%float.

(** A slice is either [nil] or a (possibly empty) sequence; the code
    compares slices with [nil], so the two are kept apart. *)
Inductive slice (A : Type) : Type :=
| snil : slice A
| smk (l : list A) : slice A.
Arguments snil {A}.
Arguments smk {A} l.

Definition elems {A} (s : slice A) : list A :=
  match s with snil => [] | smk l => l end.

Definition is_nil {A} (s : slice A) : bool :=
  match s with snil => true | smk _ => false end.

(** [append(s, x)]: the result is never [nil]. *)
Definition append {A} (s : slice A) (x : A) : slice A := smk (elems s ++ [x]).

(** [slices.Contains] *)
Definition Contains {A} `{EqDecision A} (s : list A) (x : A) : bool :=
  existsb (fun y => bool_decide (y = x)) s.

(** [strings.Split(s, ":")[0]]: the text before the first colon. *)
Fixpoint before_colon (s : string) : string :=
  match s with
  | EmptyString => EmptyString
  | String c s' => if Ascii.eqb c ":"%char then EmptyString else String c (before_colon s')
  end.

(** A run of code either completes or is cut short by a run-time panic
    (nil dereference, failed type assertion, index out of range); both
    carry the state reached at that point. *)
Inductive outcome (S : Type) : Type :=
| Done (s : S)
| Panic (s : S).
Arguments Done {S} s.
Arguments Panic {S} s.

Definition state_of {S} (o : outcome S) : S :=
  match o with Done s => s | Panic s => s end.

Definition panicked {S} (o : outcome S) : bool :=
  match o with Done _ => false | Panic _ => true end.

(** [for _, x := range l { body }] over a state, stopping at a panic. *)
Fixpoint for_range {A S} (body : A -> S -> outcome S) (l : list A) (s : S) : outcome S :=
  match l with
  | [] => Done s
  | x :: l' =>
      match body x s with
      | Done s' => for_range body l' s'
      | Panic s' => Panic s'
      end
  end.

End Go.

(** ** Package [task] *)

Module Task.

(** [type State int] with its six [iota] constants. *)
Inductive State : Type :=
| Pending | Scheduled | Running | Completed | Stopped | Failed.

Definition State_to_Z (s : State) : Z :=
  match s with
  | Pending => 0 | Scheduled => 1 | Running => 2
  | Completed => 3 | Stopped => 4 | Failed => 5
  end.

#[global] Instance State_eq_dec : EqDecision State.
Proof. solve_decision. Defined.

Definition State_of_nat (n : nat) : option State :=
  match n with
  | 0%nat => Some Pending | 1%nat => Some Scheduled | 2%nat => Some Running
  | 3%nat => Some Completed | 4%nat => Some Stopped | 5%nat => Some Failed
  | _ => None
  end.

#[global] Program Instance State_countable : Countable State :=
  inj_countable (fun s => Z.to_nat (State_to_Z s)) State_of_nat _.
Next Obligation. by intros []. Qed.

(** [var stateTransitionMap = map[State][]State{...}]: five keys, there
    is no entry for [Stopped]. *)
Definition stateTransitionMap : gmap State (list State) :=
  <[Pending := [Scheduled]]>
  (<[Scheduled := [Scheduled; Running; Failed]]>
  (<[Running := [Running; Completed; Failed]]>
  (<[Completed := []]>
  (<[Failed := []]> ∅)))).

(** Indexing a Go map with an absent key yields the zero value, here the
    nil slice. *)
Definition transitions_of (src : State) : list State :=
  default [] (stateTransitionMap !! src).

Definition ValidStateTransition (src dst : State) : bool :=
  Go.Contains (transitions_of src) dst.

(** The legal-transition table as the specification prints it, row by row. *)
Inductive LegalTransition : State -> State -> Prop :=
| Pending_Scheduled : LegalTransition Pending Scheduled
| Scheduled_Scheduled : LegalTransition Scheduled Scheduled
| Scheduled_Running : LegalTransition Scheduled Running
| Scheduled_Failed : LegalTransition Scheduled Failed
| Running_Running : LegalTransition Running Running
| Running_Completed : LegalTransition Running Completed
| Running_Failed : LegalTransition Running Failed.

(** [uuid.UUID], by its canonical text, so that [ID.String()] is the
    identifier itself; [time.Time] as a count of clock ticks. *)
Abbreviation UUID := string.
Abbreviation Time := Z.

(** [nat.PortBinding] and [nat.PortMap] of the Docker SDK. *)
Record PortBinding : Type := mkPortBinding { HostIP : string; HostPort : string }.
Abbreviation PortMap := (gmap string (list PortBinding)).

Record Task : Type := mkTask {
  ID : UUID;
  ContainerID : string;
  Name : string;
  State_ : State;
  Image : string;
  Cpu : float;
  Memory : Z;
  Disk : Z;
  ExposedPorts : list string;
  PortBindings : gmap string string;
  HostPorts : PortMap;
  RestartPolicy : string;
  StartTime : Time;
  FinishTime : Time;
  HealthCheck : string;
  RestartCount : Z
}.

(** Field updates, one per assignment the code makes. *)
Definition set_State (s : State) (t : Task) : Task :=
  mkTask (ID t) (ContainerID t) (Name t) s (Image t) (Cpu t) (Memory t) (Disk t)
    (ExposedPorts t) (PortBindings t) (HostPorts t) (RestartPolicy t)
    (StartTime t) (FinishTime t) (HealthCheck t) (RestartCount t).

Definition set_ContainerID (c : string) (t : Task) : Task :=
  mkTask (ID t) c (Name t) (State_ t) (Image t) (Cpu t) (Memory t) (Disk t)
    (ExposedPorts t) (PortBindings t) (HostPorts t) (RestartPolicy t)
    (StartTime t) (FinishTime t) (HealthCheck t) (RestartCount t).

Definition set_HostPorts (p : PortMap) (t : Task) : Task :=
  mkTask (ID t) (ContainerID t) (Name t) (State_ t) (Image t) (Cpu t) (Memory t) (Disk t)
    (ExposedPorts t) (PortBindings t) p (RestartPolicy t)
    (StartTime t) (FinishTime t) (HealthCheck t) (RestartCount t).

Definition set_StartTime (x : Time) (t : Task) : Task :=
  mkTask (ID t) (ContainerID t) (Name t) (State_ t) (Image t) (Cpu t) (Memory t) (Disk t)
    (ExposedPorts t) (PortBindings t) (HostPorts t) (RestartPolicy t)
    x (FinishTime t) (HealthCheck t) (RestartCount t).

Definition set_FinishTime (x : Time) (t : Task) : Task :=
  mkTask (ID t) (ContainerID t) (Name t) (State_ t) (Image t) (Cpu t) (Memory t) (Disk t)
    (ExposedPorts t) (PortBindings t) (HostPorts t) (RestartPolicy t)
    (StartTime t) x (HealthCheck t) (RestartCount t).

Definition set_RestartCount (n : Z) (t : Task) : Task :=
  mkTask (ID t) (ContainerID t) (Name t) (State_ t) (Image t) (Cpu t) (Memory t) (Disk t)
    (ExposedPorts t) (PortBindings t) (HostPorts t) (RestartPolicy t)
    (StartTime t) (FinishTime t) (HealthCheck t) n.

(** [task.Task{}], the zero value. *)
Definition zero_Task : Task :=
  mkTask EmptyString EmptyString EmptyString Pending EmptyString 0%float 0 0 [] ∅ ∅
    EmptyString 0 0 EmptyString 0.

Record TaskEvent : Type := mkTaskEvent {
  EventID : UUID;
  Timestamp : Time;
  EventState : State;
  EventTask : Task
}.

Record Config : Type := mkConfig {
  ConfigName : string;
  ConfigImage : string;
  ConfigExposedPorts : list string;
  ConfigCpu : float;
  ConfigMemory : Z;
  ConfigDisk : Z;
  ConfigRestartPolicy : string
}.

Definition NewConfig (t : Task) : Config :=
  mkConfig (Name t) (Image t) (ExposedPorts t) (Cpu t) (Memory t) (Disk t) (RestartPolicy t).

(** [DockerResult]; [Error] is [None] for Go's nil error. *)
Record DockerResult : Type := mkDockerResult {
  Error : option string;
  Action : string;
  ResultContainerID : string;
  Result : string
}.

(** What the code reads of a [container.InspectResponse]: the status of
    its state and the published ports of its network settings. *)
Record Container : Type := mkContainer {
  Status : string;
  Ports : PortMap
}.

(** [DockerInspectResponse]; [InspectContainer] is [None] for a nil pointer. *)
Record DockerInspectResponse : Type := mkInspect {
  InspectError : option string;
  InspectContainer : option Container
}.

(** The container runtime behind [Docker.Run], [Docker.Stop] and
    [Docker.Inspect]: each call is answered by the daemon, so the driver is
    a parameter of the worker's operations. *)
Record Driver : Type := mkDriver {
  Run : Config -> DockerResult;
  Stop : Config -> string -> DockerResult;
  Inspect : Config -> string -> DockerInspectResponse
}.

End Task.

(** ** Package [store] *)

Module Store.

(** Modelled from the spec: the [store] package (interface [Store] and its
    in-memory and durable variants) is not among the sources.  The
    specification describes a key-to-value container with [Put], [Get],
    [List], [Count] and [Delete], where [Put] is total, [Get] fails with
    not-found on an absent key and otherwise returns the value of the last
    [Put] for that key.  Values are kept by value. *)
Definition Put {V} (key : string) (value : V) (s : gmap string V) : gmap string V :=
  <[key := value]> s.

(** Modelled from the spec: [Get] of the absent [store] package; [None]
    stands for the not-found error. *)
Definition Get {V} (key : string) (s : gmap string V) : option V := s !! key.

(** Modelled from the spec: [List] of the absent [store] package; the
    order of the listing is that of the map's enumeration, each key once. *)
Definition List {V} (s : gmap string V) : list V := (map_to_list s).*2.

(** Modelled from the spec: [Count] of the absent [store] package. *)
Definition Count {V} (s : gmap string V) : Z := Z.of_nat (size s).

(** Modelled from the spec: [Delete] of the absent [store] package. *)
Definition Delete {V} (key : string) (s : gmap string V) : gmap string V :=
  delete key s.

End Store.

(** ** Package [stats] *)

Module Stats.

(** The fields the core reads of gopsutil's [mem.VirtualMemoryStat],
    [disk.UsageStat] and [cpu.TimesStat]; the memory and disk counters are
    [uint64], the CPU times [float64]. *)
Record MemStat : Type := mkMemStat { MemTotal : Z; MemAvailable : Z; MemUsed : Z }.
Record DiskStat : Type := mkDiskStat { DiskTotal_ : Z; DiskFree_ : Z; DiskUsed_ : Z }.
Record CpuTimes : Type := mkCpuTimes {
  User : float; System : float; Idle : float; Nice : float;
  Iowait : float; Irq : float; Softirq : float; Steal : float
}.

(** [Stats]: [MemStats] and [DiskStats] are pointers the code tests against
    nil.  [CpuStats] is taken as always present: every worker of this
    repository fills it, and a reply without it is outside this model. *)
Record Stats : Type := mkStats {
  MemStats : option MemStat;
  DiskStats : option DiskStat;
  CpuStats : CpuTimes;
  TaskCount : Z
}.

Definition zero_Stats : Stats :=
  mkStats None None (mkCpuTimes 0 0 0 0 0 0 0 0) 0.

Definition MemUsedKb (s : Stats) : Z := from_option MemUsed 0 (MemStats s).
Definition MemTotalKb (s : Stats) : Z := from_option MemTotal 0 (MemStats s).
Definition DiskTotal (s : Stats) : Z := from_option DiskTotal_ 0 (DiskStats s).

(** [CpuUsage() (percent, idle, nonIdle, total)] *)
Definition CpuUsage (s : Stats) : float * float * float * float :=
  let c := CpuStats s in
  let idle := (Idle c + Iowait c)%float in
  let nonIdle := (User c + Nice c + System c + Irq c + Softirq c + Steal c)%float in
  let total := (idle + nonIdle)%float in
  let usagePercent :=
    if (0 <? total)%float then ((total - idle) / total)%float else 0%float in
  (usagePercent, idle, nonIdle, total).

End Stats.

(** ** Package [node] *)

Module Node.

Record Node : Type := mkNode {
  Name : string;
  Ip : string;
  Api : string;
  Cores : Z;
  Memory : Z;
  MemoryAllocated : Z;
  Disk : Z;
  DiskAllocated : Z;
  Stats : Stats.Stats;
  Role : string;
  TaskCount : Z
}.

Definition NewNode (name api role : string) : Node :=
  mkNode name EmptyString api 0 0 0 0 0 Stats.zero_Stats role 0.

(** The manager keeps its nodes behind pointers (a slice of them) and both
    the scheduler and the manager write through them.  The node objects
    live in a heap indexed by address; a node pointer is an address. *)
Abbreviation Ptr := nat.
Abbreviation Heap := (list Node).

Definition deref (h : Heap) (p : Ptr) : Node :=
  default (NewNode EmptyString EmptyString EmptyString) (h !! p).

(** The answer of a worker to [GET <api>/stats]: no connection, or a status
    code with a body that decodes to [Stats] or fails to decode. *)
Inductive StatsResponse : Type :=
| StatsTransportError
| StatsReply (status : Z) (body : option Stats.Stats).

(** [GetStats] on a node: on success the node's
    [Memory], [Disk] and [Stats] are overwritten and the result points at
    the node's own [Stats] field; [None] stands for a non-nil error. *)
Definition GetStats (resp : StatsResponse) (n : Node) : Node * option Stats.Stats :=
  match resp with
  | StatsTransportError => (n, None)
  | StatsReply status body =>
      if negb (status =? 200) then (n, None)
      else match body with
      | None => (n, None)
      | Some stats =>
          match Stats.MemStats stats, Stats.DiskStats stats with
          | Some _, Some _ =>
              let n' := mkNode (Name n) (Ip n) (Api n) (Cores n)
                          (Go.wrap64 (Stats.MemTotalKb stats)) (MemoryAllocated n)
                          (Go.wrap64 (Stats.DiskTotal stats)) (DiskAllocated n)
                          stats (Role n) (TaskCount n) in
              (n', Some (Stats n'))
          | _, _ => (n, None)
          end
      end
  end.

Definition set_TaskCount (c : Z) (n : Node) : Node :=
  mkNode (Name n) (Ip n) (Api n) (Cores n) (Memory n) (MemoryAllocated n)
    (Disk n) (DiskAllocated n) (Stats n) (Role n) c.

End Node.

(** ** Package [scheduler] *)

Module Scheduler.

(** The arithmetic the E-PVM cost is written in.  The program runs it on
    [float64]; the same expression is read over the real numbers when its
    algebra is discussed. *)
Class Numeric (F : Type) : Type := mkNumeric {
  nadd : F -> F -> F;
  nsub : F -> F -> F;
  ndiv : F -> F -> F;
  npow : F -> F -> F;
  nint : Z -> F;
  nLIEB : F;
  nmaxJobs : F
}.

(** [const LIEB = 1.53960071783900203869] and [maxJobs := 4.0] *)
Definition LIEB : float := 1.53960071783900203869%float.

Definition R_Numeric : Numeric R :=
  mkNumeric R Rplus Rminus Rdiv Rpower IZR 1.53960071783900203869%R 4%R.

Section Cost.
Context {F : Type} {num : Numeric F}.

(** [calculateLoad] *)
Definition calculateLoad (usage capacity : F) : F := ndiv usage capacity.

(** The two job terms of [Epvm.Score], for a node running [taskCount] tasks. *)
Definition jobPctAfter (taskCount : Z) : F :=
  ndiv (nint (Go.wrap64 (taskCount + 1))) nmaxJobs.
Definition jobPctCurrent (taskCount : Z) : F :=
  ndiv (nint taskCount) nmaxJobs.

(** [memCost] and [cpuCost] of [Epvm.Score], term by term and in the
    left-to-right order Go evaluates them. *)
Definition memCost (newMemPercent memoryPercentAllocated : F) (taskCount : Z) : F :=
  nsub (nsub (nadd (npow nLIEB newMemPercent)
                   (npow nLIEB (jobPctAfter taskCount)))
             (npow nLIEB memoryPercentAllocated))
       (npow nLIEB (jobPctCurrent taskCount)).

Definition cpuCost (cpuLoad : F) (taskCount : Z) : F :=
  nsub (nsub (nadd (npow nLIEB cpuLoad)
                   (npow nLIEB (jobPctAfter taskCount)))
             (npow nLIEB cpuLoad))
       (npow nLIEB (jobPctCurrent taskCount)).

Definition epvmScore (cpuLoad newMemPercent memoryPercentAllocated : F) (taskCount : Z) : F :=
  nadd (memCost newMemPercent memoryPercentAllocated taskCount) (cpuCost cpuLoad taskCount).

End Cost.

(** The three schedulers behind the [Scheduler] interface; round-robin
    carries its cursor. *)
Inductive Scheduler : Type :=
| RoundRobin (Name : string) (LastWorker : Z)
| Greedy (Name : string)
| Epvm (Name : string).

(** [scores[name]]: an absent key reads as the zero value. *)
Definition score_at (scores : gmap string float) (name : string) : float :=
  default 0%float (scores !! name).

(** [checkDisk] and [selectCandidateNodes] *)
Definition checkDisk (t : Task.Task) (diskAvailable : Z) : bool :=
  Task.Disk t <=? diskAvailable.

Definition selectCandidateNodes (h : Node.Heap) (t : Task.Task)
    (nodes : Go.slice Node.Ptr) : Go.slice Node.Ptr :=
  fold_left
    (fun candidates p =>
       let n := Node.deref h p in
       if checkDisk t (Go.wrap64 (Node.Disk n - Node.DiskAllocated n))
       then Go.append candidates p else candidates)
    (Go.elems nodes) Go.snil.

(** The loop shared, word for word, by [RoundRobin.Pick], [Greedy.Pick]
    and [Epvm.Pick]: the first candidate seeds the running minimum, a later
    one replaces it only when its score is strictly smaller. *)
Fixpoint pick_loop (h : Node.Heap) (scores : gmap string float) (idx : nat)
    (candidates : list Node.Ptr) (bestNode : option Node.Ptr) (lowestScore : float)
    : option Node.Ptr :=
  match candidates with
  | [] => bestNode
  | node :: rest =>
      let s := score_at scores (Node.Name (Node.deref h node)) in
      match idx with
      | O => pick_loop h scores (S idx) rest (Some node) s
      | S _ =>
          if (s <? lowestScore)%float
          then pick_loop h scores (S idx) rest (Some node) s
          else pick_loop h scores (S idx) rest bestNode lowestScore
      end
  end.

Definition RoundRobin_Pick (h : Node.Heap) (scores : gmap string float)
    (candidates : list Node.Ptr) : option Node.Ptr :=
  pick_loop h scores 0 candidates None 0%float.

Definition Greedy_Pick (h : Node.Heap) (candidates : gmap string float)
    (nodes : list Node.Ptr) : option Node.Ptr :=
  pick_loop h candidates 0 nodes None 0%float.

Definition Epvm_Pick (h : Node.Heap) (scores : gmap string float)
    (candidates : list Node.Ptr) : option Node.Ptr :=
  pick_loop h scores 0 candidates None 0%float.

(** [RoundRobin.Score]: advance the cursor, then 0.1 for the node under it
    and 1.0 for the others. *)
Fixpoint RoundRobin_Score_loop (h : Node.Heap) (newWorker idx : Z)
    (nodes : list Node.Ptr) (nodeScores : gmap string float) : gmap string float :=
  match nodes with
  | [] => nodeScores
  | node :: rest =>
      let name := Node.Name (Node.deref h node) in
      RoundRobin_Score_loop h newWorker (idx + 1) rest
        (if idx =? newWorker then <[name := 0.1%float]> nodeScores
         else <[name := 1.0%float]> nodeScores)
  end.

Definition RoundRobin_Score (h : Node.Heap) (LastWorker : Z) (nodes : list Node.Ptr)
    : Z * gmap string float :=
  let newWorker :=
    if Go.wrap64 (LastWorker + 1) <? Z.of_nat (length nodes)
    then Go.wrap64 (LastWorker + 1) else 0 in
  let LastWorker' :=
    if Go.wrap64 (LastWorker + 1) <? Z.of_nat (length nodes)
    then Go.wrap64 (LastWorker + 1) else 0 in
  (LastWorker', RoundRobin_Score_loop h newWorker 0 nodes ∅).

Section Probes.

(** [math.Pow], and what each node answers to the two [GET /stats] calls
    of one CPU probe (keyed by the node's [Api]). *)
Variable Pow : float -> float -> float.
Variable probe : string -> Node.StatsResponse * Node.StatsResponse.

Definition float_Numeric : Numeric float :=
  mkNumeric float PrimFloat.add PrimFloat.sub PrimFloat.div Pow
    Go.float_of_int64 LIEB 4%float.

(** [calculateCpuUsage]: two snapshots three seconds apart.  Both results
    of [GetStats] point at the same field of the node, which the second
    call overwrites, so by the time the CPU times are read [stat1] and
    [stat2] show the second snapshot. *)
Definition calculateCpuUsage (n : Node.Node) : Node.Node * option float :=
  let '(n1, r1) := Node.GetStats (probe (Node.Api n)).1 n in
  match r1 with
  | None => (n1, None)
  | Some _ =>
      let '(n2, r2) := Node.GetStats (probe (Node.Api n)).2 n1 in
      match r2 with
      | None => (n2, None)
      | Some _ =>
          let stat1 := Node.Stats n2 in
          let stat2 := Node.Stats n2 in
          let '(_, stat1Idle, _, stat1Total) := Stats.CpuUsage stat1 in
          let '(_, stat2Idle, _, stat2Total) := Stats.CpuUsage stat2 in
          let total := (stat2Total - stat1Total)%float in
          let idle := (stat2Idle - stat1Idle)%float in
          let cpuPercentUsage :=
            if (total =? 0)%float && (idle =? 0)%float then 0%float
            else ((total - idle) / total)%float in
          (n2, Some cpuPercentUsage)
      end
  end.

(** [Greedy.Score]: a node whose probe fails is logged and skipped. *)
Definition Greedy_Score_body (node : Node.Ptr) (st : Node.Heap * gmap string float)
    : Node.Heap * gmap string float :=
  let '(h, nodeScores) := st in
  let '(n, cpuUsage) := calculateCpuUsage (Node.deref h node) in
  let h := <[node := n]> h in
  match cpuUsage with
  | None => (h, nodeScores)
  | Some cpuUsage =>
      let cpuLoad := @calculateLoad float float_Numeric cpuUsage (Pow 2 0.8) in
      (h, <[Node.Name n := cpuLoad]> nodeScores)
  end.

Definition Greedy_Score (h : Node.Heap) (t : Task.Task) (nodes : list Node.Ptr)
    : Node.Heap * gmap string float :=
  fold_left (fun st node => Greedy_Score_body node st) nodes (h, ∅).

(** [Epvm.Score] *)
Definition Epvm_Score_body (t : Task.Task) (node : Node.Ptr)
    (st : Node.Heap * gmap string float) : Node.Heap * gmap string float :=
  let '(h, nodeScores) := st in
  let '(n, cpuUsage) := calculateCpuUsage (Node.deref h node) in
  let h := <[node := n]> h in
  match cpuUsage with
  | None => (h, nodeScores)
  | Some cpuUsage =>
      let cpuLoad := @calculateLoad float float_Numeric cpuUsage (Pow 2 0.8) in
      let memoryAllocated :=
        (Go.float_of_uint64 (Stats.MemUsedKb (Node.Stats n))
         + Go.float_of_int64 (Node.MemoryAllocated n))%float in
      let memoryPercentAllocated :=
        (memoryAllocated / Go.float_of_int64 (Node.Memory n))%float in
      let newMemPercent :=
        @calculateLoad float float_Numeric
          (memoryAllocated + Go.float_of_int64 (Z.quot (Task.Memory t) 1000))%float
          (Go.float_of_int64 (Node.Memory n)) in
      (h, <[Node.Name n :=
              @epvmScore float float_Numeric cpuLoad newMemPercent
                memoryPercentAllocated (Node.TaskCount n)]> nodeScores)
  end.

Definition Epvm_Score (h : Node.Heap) (t : Task.Task) (nodes : list Node.Ptr)
    : Node.Heap * gmap string float :=
  fold_left (fun st node => Epvm_Score_body t node st) nodes (h, ∅).

(** Dispatch through the interface.  [Score] always returns a map built
    with [make], never nil: [Some] marks the non-nil map. *)
Definition SelectCandidateNodes (s : Scheduler) (h : Node.Heap) (t : Task.Task)
    (nodes : Go.slice Node.Ptr) : Go.slice Node.Ptr :=
  match s with
  | RoundRobin _ _ => nodes
  | Greedy _ => selectCandidateNodes h t nodes
  | Epvm _ => selectCandidateNodes h t nodes
  end.

Definition Score (s : Scheduler) (h : Node.Heap) (t : Task.Task) (nodes : list Node.Ptr)
    : Scheduler * Node.Heap * option (gmap string float) :=
  match s with
  | RoundRobin name last =>
      let '(last', scores) := RoundRobin_Score h last nodes in
      (RoundRobin name last', h, Some scores)
  | Greedy name =>
      let '(h', scores) := Greedy_Score h t nodes in
      (Greedy name, h', Some scores)
  | Epvm name =>
      let '(h', scores) := Epvm_Score h t nodes in
      (Epvm name, h', Some scores)
  end.

End Probes.

Definition Pick (s : Scheduler) (h : Node.Heap) (scores : gmap string float)
    (candidates : list Node.Ptr) : option Node.Ptr :=
  match s with
  | RoundRobin _ _ => RoundRobin_Pick h scores candidates
  | Greedy _ => Greedy_Pick h scores candidates
  | Epvm _ => Epvm_Pick h scores candidates
  end.

(** What the specification asks of [Pick], in the terms of the code: the
    score of a candidate is what the map gives for its name; a candidate is
    scored when the map has an entry for it that is a number (not NaN). *)
Definition score_of (h : Node.Heap) (scores : gmap string float) (p : Node.Ptr) : float :=
  score_at scores (Node.Name (Node.deref h p)).

Definition scored (h : Node.Heap) (scores : gmap string float) (p : Node.Ptr) : bool :=
  match scores !! Node.Name (Node.deref h p) with
  | Some x => negb (PrimFloat.is_nan x)
  | None => false
  end.

(** [p] sits at some index of [candidates], no candidate has a smaller
    score, and every candidate at a smaller index has a larger one. *)
Definition first_minimum (h : Node.Heap) (scores : gmap string float)
    (candidates : list Node.Ptr) (p : Node.Ptr) : Prop :=
  exists i : nat,
    candidates !! i = Some p
    /\ (forall q, q ∈ candidates ->
          (score_of h scores q <? score_of h scores p)%float = false)
    /\ (forall (j : nat) q, (j < i)%nat -> candidates !! j = Some q ->
          (score_of h scores p <? score_of h scores q)%float = true).

Definition picks_first_minimum (s : Scheduler) (h : Node.Heap)
    (scores : gmap string float) (candidates : list Node.Ptr) : Prop :=
  exists p, Pick s h scores candidates = Some p
            /\ first_minimum h scores candidates p.

End Scheduler.

(** ** Package [worker] *)

Module Worker.

(** The lines the worker writes to its log in the operations below. *)
Inductive LogEntry : Type :=
| NoTasksInQueue
| FoundTaskInQueue (t : Task.Task)
| ThisIsAMistake (taskPersisted taskQueued : Task.Task)
| ErrorRunningTask (id : Task.UUID) (err : string)
| ErrorStoppingContainer (containerID : string) (err : string)
| StoppedAndRemoved (containerID : string) (id : Task.UUID)
| InspectFailed (err : string)
| NoContainerForRunningTask (id : Task.UUID)
| ContainerNotRunning (id : Task.UUID) (status : string).

Record Worker : Type := mkWorker {
  Name : string;
  Queue : list Task.Task;
  Db : gmap string Task.Task;
  TaskCount : Z;
  Stats : option Stats.Stats;
  Log : list LogEntry
}.

Definition set_Queue (q : list Task.Task) (w : Worker) : Worker :=
  mkWorker (Name w) q (Db w) (TaskCount w) (Stats w) (Log w).

Definition set_Db (db : gmap string Task.Task) (w : Worker) : Worker :=
  mkWorker (Name w) (Queue w) db (TaskCount w) (Stats w) (Log w).

Definition log (e : LogEntry) (w : Worker) : Worker :=
  mkWorker (Name w) (Queue w) (Db w) (TaskCount w) (Stats w) (Log w ++ [e]).

(** [w.Db.Put(t.ID.String(), &t)] *)
Definition persist (t : Task.Task) (w : Worker) : Worker :=
  set_Db (Store.Put (Task.ID t) t (Db w)) w.

Definition GetTasks (w : Worker) : list Task.Task := Store.List (Db w).

Definition AddTask (t : Task.Task) (w : Worker) : Worker :=
  set_Queue (Queue w ++ [t]) w.

Section Runtime.

(** The container runtime and the clock reading taken by the operation. *)
Variable driver : Task.Driver.
Variable now : Task.Time.

Definition StartTask (t : Task.Task) (w : Worker) : Worker * Task.DockerResult :=
  let t := Task.set_StartTime now t in
  let config := Task.NewConfig t in
  let result := Task.Run driver config in
  match Task.Error result with
  | Some err =>
      let w := log (ErrorRunningTask (Task.ID t) err) w in
      let t := Task.set_State Task.Failed t in
      (persist t w, result)
  | None =>
      let t := Task.set_ContainerID (Task.ResultContainerID result) t in
      let t := Task.set_State Task.Running t in
      (persist t w, result)
  end.

Definition StopTask (t : Task.Task) (w : Worker) : Worker * Task.DockerResult :=
  let config := Task.NewConfig t in
  let result := Task.Stop driver config (Task.ContainerID t) in
  let w :=
    match Task.Error result with
    | Some err => log (ErrorStoppingContainer (Task.ContainerID t) err) w
    | None => w
    end in
  let t := Task.set_FinishTime now t in
  let t := Task.set_State Task.Completed t in
  let w := persist t w in
  let w := log (StoppedAndRemoved (Task.ContainerID t) (Task.ID t)) w in
  (w, result).

Definition error_result (err : string) : Task.DockerResult :=
  Task.mkDockerResult (Some err) EmptyString EmptyString EmptyString.

Definition RunTask (w : Worker) : Worker * Task.DockerResult :=
  match Queue w with
  | [] =>
      (log NoTasksInQueue w,
       Task.mkDockerResult None EmptyString EmptyString EmptyString)
  | taskQueued :: rest =>
      let w := set_Queue rest w in
      let w := log (FoundTaskInQueue taskQueued) w in
      let w := persist taskQueued w in
      match Store.Get (Task.ID taskQueued) (Db w) with
      | None => (w, error_result "error getting task")
      | Some taskPersisted =>
          if bool_decide (Task.State_ taskPersisted = Task.Completed)
          then StopTask taskPersisted w
          else if Task.ValidStateTransition (Task.State_ taskPersisted) (Task.State_ taskQueued)
          then match Task.State_ taskQueued with
               | Task.Scheduled => StartTask taskQueued w
               | Task.Completed => StopTask taskQueued w
               | _ => (log (ThisIsAMistake taskPersisted taskQueued) w,
                       error_result "we should not get here")
               end
          else (w, error_result "invalid transition")
      end
  end.

Definition InspectTask (t : Task.Task) : Task.DockerInspectResponse :=
  Task.Inspect driver (Task.NewConfig t) (Task.ContainerID t).

(** The body of the loop of [updateTasks], for one task of the listing.
    The three [if] statements run one after the other; the second does not
    leave the iteration, so after a nil [Container] the third dereferences
    the nil pointer. *)
Definition updateTasks_body (t : Task.Task) (w : Worker) : Go.outcome Worker :=
  if bool_decide (Task.State_ t = Task.Running) then
    let resp := InspectTask t in
    let w :=
      match Task.InspectError resp with
      | Some err => log (InspectFailed err) w
      | None => w
      end in
    match Task.InspectContainer resp with
    | None =>
        let w := log (NoContainerForRunningTask (Task.ID t)) w in
        let t := Task.set_State Task.Failed t in
        let w := persist t w in
        Go.Panic w
    | Some container =>
        let '(t, w) :=
          if String.eqb (Task.Status container) "exited"
          then
            let w := log (ContainerNotRunning (Task.ID t) (Task.Status container)) w in
            let t := Task.set_State Task.Failed t in
            (t, persist t w)
          else (t, w) in
        let t := Task.set_HostPorts (Task.Ports container) t in
        Go.Done (persist t w)
    end
  else Go.Done w.

Definition updateTasks (w : Worker) : Go.outcome Worker :=
  Go.for_range updateTasks_body (Store.List (Db w)) w.

End Runtime.

End Worker.

(** ** Package [manager] *)

Module Manager.

(** [Pending] is a queue of untyped values.  The API enqueues
    [task.TaskEvent]s; the retry paths of [SendWork] and [restartTask]
    enqueue a [task.Task] and a pointer to one. *)
Inductive QueueItem : Type :=
| QEvent (te : Task.TaskEvent)
| QTask (t : Task.Task)
| QTaskPtr (t : Task.Task).

Record Manager : Type := mkManager {
  Pending : list QueueItem;
  TaskDb : gmap string Task.Task;
  EventDb : gmap string Task.TaskEvent;
  Workers : list string;
  WorkerTaskMap : gmap string (list Task.UUID);
  TaskWorkerMap : gmap string string;
  LastWorker : Z;
  Nodes : Node.Heap;
  WorkerNodes : Go.slice Node.Ptr;
  Scheduler : Scheduler.Scheduler
}.

Definition set_Pending (q : list QueueItem) (m : Manager) : Manager :=
  mkManager q (TaskDb m) (EventDb m) (Workers m) (WorkerTaskMap m) (TaskWorkerMap m)
    (LastWorker m) (Nodes m) (WorkerNodes m) (Scheduler m).

Definition set_TaskDb (db : gmap string Task.Task) (m : Manager) : Manager :=
  mkManager (Pending m) db (EventDb m) (Workers m) (WorkerTaskMap m) (TaskWorkerMap m)
    (LastWorker m) (Nodes m) (WorkerNodes m) (Scheduler m).

Definition set_EventDb (db : gmap string Task.TaskEvent) (m : Manager) : Manager :=
  mkManager (Pending m) (TaskDb m) db (Workers m) (WorkerTaskMap m) (TaskWorkerMap m)
    (LastWorker m) (Nodes m) (WorkerNodes m) (Scheduler m).

Definition set_WorkerTaskMap (x : gmap string (list Task.UUID)) (m : Manager) : Manager :=
  mkManager (Pending m) (TaskDb m) (EventDb m) (Workers m) x (TaskWorkerMap m)
    (LastWorker m) (Nodes m) (WorkerNodes m) (Scheduler m).

Definition set_TaskWorkerMap (x : gmap string string) (m : Manager) : Manager :=
  mkManager (Pending m) (TaskDb m) (EventDb m) (Workers m) (WorkerTaskMap m) x
    (LastWorker m) (Nodes m) (WorkerNodes m) (Scheduler m).

Definition set_Nodes (h : Node.Heap) (m : Manager) : Manager :=
  mkManager (Pending m) (TaskDb m) (EventDb m) (Workers m) (WorkerTaskMap m)
    (TaskWorkerMap m) (LastWorker m) h (WorkerNodes m) (Scheduler m).

Definition set_Scheduler (s : Scheduler.Scheduler) (m : Manager) : Manager :=
  mkManager (Pending m) (TaskDb m) (EventDb m) (Workers m) (WorkerTaskMap m)
    (TaskWorkerMap m) (LastWorker m) (Nodes m) (WorkerNodes m) s.

(** [New], with the in-memory stores. *)
Definition New (workers : list string) (schedulerType : string) : Manager :=
  let workerTaskMap :=
    fold_left (fun wtm worker => <[worker := []]> wtm) workers ∅ in
  let nodes :=
    (fun worker => Node.NewNode worker ("http://" +:+ worker) "worker") <$> workers in
  let s :=
    if String.eqb schedulerType "epvm" then Scheduler.Epvm "epvm"
    else if String.eqb schedulerType "greedy" then Scheduler.Greedy "greedy"
    else Scheduler.RoundRobin "round-robin" 0 in
  mkManager [] ∅ ∅ workers workerTaskMap ∅ 0 nodes
    (match workers with [] => Go.snil | _ => Go.smk (seq 0 (length workers)) end) s.

(** What the network answers during one operation of the manager. *)
Inductive PostResponse : Type :=
| PostTransportError
| PostReply (status : Z) (decodes : bool).

Inductive TasksResponse : Type :=
| TasksTransportError
| TasksReply (status : Z) (body : option (list Task.Task)).

Inductive HealthResponse : Type :=
| HealthTransportError
| HealthReply (status : Z).

Record Env : Type := mkEnv {
  Pow : float -> float -> float;
  probe : string -> Node.StatsResponse * Node.StatsResponse;
  get_stats : string -> Node.StatsResponse;
  post_tasks : string -> Task.TaskEvent -> PostResponse;
  get_tasks : string -> TasksResponse;
  get_health : string -> string -> string -> HealthResponse;
  uuid_New : Task.UUID -> Task.UUID;
  now : Task.Time
}.

(** [json.Marshal] of an event fails only on a [Cpu] that is not finite. *)
Definition json_Marshal_ok (te : Task.TaskEvent) : bool :=
  let c := Task.Cpu (Task.EventTask te) in
  negb (PrimFloat.is_nan c || PrimFloat.is_infinity c).

Inductive SelectError : Type := NoCandidates | NoScores.

(** The pair returned by [SelectWorker]: a node pointer (possibly nil)
    with a nil error, or a nil node with an error. *)
Inductive SelectResult : Type :=
| Selected (w : option Node.Ptr)
| SelectFailed (err : SelectError).

Section Operations.

Variable env : Env.

Definition SelectWorker (t : Task.Task) (m : Manager) : Manager * SelectResult :=
  let candidates :=
    Scheduler.SelectCandidateNodes (Scheduler m) (Nodes m) t (WorkerNodes m) in
  if Go.is_nil candidates then (m, SelectFailed NoCandidates)
  else
    let '(s, h, scores) :=
      Scheduler.Score (Pow env) (probe env) (Scheduler m) (Nodes m) t
        (Go.elems candidates) in
    let m := set_Scheduler s (set_Nodes h m) in
    match scores with
    | None => (m, SelectFailed NoScores)
    | Some scores =>
        (m, Selected (Scheduler.Pick s h scores (Go.elems candidates)))
    end.

Definition AddTask (te : Task.TaskEvent) (m : Manager) : Manager :=
  set_Pending (Pending m ++ [QEvent te]) m.

Definition GetTasks (m : Manager) : list Task.Task := Store.List (TaskDb m).

(** One pass of the loop of [UpdateTasks]. *)
Definition UpdateTasks_task (t : Task.Task) (m : Manager) : Manager :=
  match Store.Get (Task.ID t) (TaskDb m) with
  | None => m
  | Some taskPersisted =>
      let taskPersisted :=
        if bool_decide (Task.State_ taskPersisted = Task.State_ t) then taskPersisted
        else Task.set_State (Task.State_ t) taskPersisted in
      let taskPersisted := Task.set_StartTime (Task.StartTime t) taskPersisted in
      let taskPersisted := Task.set_FinishTime (Task.FinishTime t) taskPersisted in
      let taskPersisted := Task.set_ContainerID (Task.ContainerID t) taskPersisted in
      let taskPersisted := Task.set_HostPorts (Task.HostPorts t) taskPersisted in
      set_TaskDb (Store.Put (Task.ID taskPersisted) taskPersisted (TaskDb m)) m
  end.

Definition UpdateTasks_worker (worker : string) (m : Manager) : Manager :=
  match get_tasks env worker with
  | TasksTransportError => m
  | TasksReply status body =>
      if negb (status =? 200) then m
      else match body with
           | None => m
           | Some tasks => fold_left (fun m t => UpdateTasks_task t m) tasks m
           end
  end.

Definition UpdateTasks_pass (m : Manager) : Manager :=
  fold_left (fun m worker => UpdateTasks_worker worker m) (Workers m) m.

(** [SendWork].  [stopTask] only talks to the worker, so both ways out of
    the branch for an already placed task leave the manager as it is. *)
Definition SendWork (m : Manager) : Go.outcome Manager :=
  match Pending m with
  | [] => Go.Done m
  | e :: rest =>
      let m := set_Pending rest m in
      match e with
      | QEvent te =>
          let m := set_EventDb (Store.Put (Task.EventID te) te (EventDb m)) m in
          match TaskWorkerMap m !! Task.ID (Task.EventTask te) with
          | Some taskWorker =>
              match Store.Get (Task.ID (Task.EventTask te)) (TaskDb m) with
              | None => Go.Done m
              | Some persistedTask =>
                  if bool_decide (Task.EventState te = Task.Completed)
                     && Task.ValidStateTransition (Task.State_ persistedTask) (Task.EventState te)
                  then Go.Done m
                  else Go.Done m
              end
          | None =>
              let t := Task.EventTask te in
              let '(m, selected) := SelectWorker t m in
              match selected with
              | SelectFailed _ => Go.Done m
              | Selected None => Go.Panic m
              | Selected (Some w) =>
                  let wName := Node.Name (Node.deref (Nodes m) w) in
                  let m :=
                    set_WorkerTaskMap
                      (<[wName := default [] (WorkerTaskMap m !! wName)
                                  ++ [Task.ID (Task.EventTask te)]]> (WorkerTaskMap m)) m in
                  let m := set_TaskWorkerMap (<[Task.ID t := wName]> (TaskWorkerMap m)) m in
                  let t := Task.set_State Task.Scheduled t in
                  let m := set_TaskDb (Store.Put (Task.ID t) t (TaskDb m)) m in
                  match post_tasks env wName te with
                  | PostTransportError =>
                      Go.Done (set_Pending (Pending m ++ [QTask t]) m)
                  | PostReply status decodes =>
                      if negb (status =? 201) then Go.Done m
                      else if negb decodes then Go.Done m
                      else
                        let n := Node.deref (Nodes m) w in
                        Go.Done
                          (set_Nodes
                             (<[w := Node.set_TaskCount
                                       (Go.wrap64 (Node.TaskCount n + 1)) n]> (Nodes m)) m)
                  end
              end
          end
      | QTask _ => Go.Panic m
      | QTaskPtr _ => Go.Panic m
      end
  end.

(** [getHostPort]: the host port of the first binding of the first key the
    iteration over the map yields; indexing an empty binding list panics. *)
Inductive HostPortResult : Type :=
| NoHostPort
| FoundHostPort (p : string)
| HostPortPanic.

Definition getHostPort (ports : Task.PortMap) : HostPortResult :=
  match map_to_list ports with
  | [] => NoHostPort
  | (_, bindings) :: _ =>
      match bindings with
      | [] => HostPortPanic
      | b :: _ => FoundHostPort (Task.HostPort b)
      end
  end.

Inductive HealthResult : Type := Healthy | Unhealthy | HealthPanic.

Definition checkTaskHealth (t : Task.Task) (m : Manager) : HealthResult :=
  let w := default EmptyString (TaskWorkerMap m !! Task.ID t) in
  match getHostPort (Task.HostPorts t) with
  | HostPortPanic => HealthPanic
  | NoHostPort => Healthy
  | FoundHostPort hostPort =>
      match get_health env (Go.before_colon w) hostPort (Task.HealthCheck t) with
      | HealthTransportError => Unhealthy
      | HealthReply status => if negb (status =? 200) then Unhealthy else Healthy
      end
  end.

Definition restartTask (t : Task.Task) (m : Manager) : Manager :=
  let w := default EmptyString (TaskWorkerMap m !! Task.ID t) in
  let t := Task.set_State Task.Scheduled t in
  let t := Task.set_RestartCount (Go.wrap64 (Task.RestartCount t + 1)) t in
  let m := set_TaskDb (Store.Put (Task.ID t) t (TaskDb m)) m in
  let te := Task.mkTaskEvent (uuid_New env (Task.ID t)) (now env) Task.Running t in
  if negb (json_Marshal_ok te) then m
  else
    match post_tasks env w te with
    | PostTransportError => set_Pending (Pending m ++ [QTaskPtr t]) m
    | PostReply _ _ => m
    end.

Definition doHealthChecks_body (t : Task.Task) (m : Manager) : Go.outcome Manager :=
  if bool_decide (Task.State_ t = Task.Running) && (Task.RestartCount t <? 3) then
    match checkTaskHealth t m with
    | HealthPanic => Go.Panic m
    | Healthy => Go.Done m
    | Unhealthy =>
        if Task.RestartCount t <? 3 then Go.Done (restartTask t m) else Go.Done m
    end
  else if bool_decide (Task.State_ t = Task.Failed) && (Task.RestartCount t <? 3) then
    Go.Done (restartTask t m)
  else Go.Done m.

Definition doHealthChecks (m : Manager) : Go.outcome Manager :=
  Go.for_range doHealthChecks_body (GetTasks m) m.

(** One pass of the loop of [UpdateNodeStats]. *)
Definition UpdateNodeStats_pass (m : Manager) : Manager :=
  fold_left
    (fun m node =>
       let n := Node.deref (Nodes m) node in
       set_Nodes (<[node := (Node.GetStats (get_stats env (Node.Api n)) n).1]> (Nodes m)) m)
    (Go.elems (WorkerNodes m)) m.

End Operations.

(** The operations of a running manager: a submission through the API and
    one tick of each of its four loops. *)
Inductive Op : Type :=
| OpAddTask (te : Task.TaskEvent)
| OpSendWork
| OpUpdateTasks
| OpDoHealthChecks
| OpUpdateNodeStats.

Definition step (env : Env) (op : Op) (m : Manager) : Go.outcome Manager :=
  match op with
  | OpAddTask te => Go.Done (AddTask te m)
  | OpSendWork => SendWork env m
  | OpUpdateTasks => Go.Done (UpdateTasks_pass env m)
  | OpDoHealthChecks => doHealthChecks env m
  | OpUpdateNodeStats => Go.Done (UpdateNodeStats_pass env m)
  end.

(** A history: each operation runs in the environment of its moment; a
    panic ends the process and with it the history. *)
Fixpoint run (ops : list (Env * Op)) (m : Manager) : Go.outcome Manager :=
  match ops with
  | [] => Go.Done m
  | (env, op) :: ops' =>
      match step env op m with
      | Go.Done m' => run ops' m'
      | Go.Panic m' => Go.Panic m'
      end
  end.

(** *** Invariants of a running manager

    A restart counter is an [int] no larger than a cap [c].  A manager is
    consistent for [c] when every stored task sits under its own
    identifier, has a worker in [TaskWorkerMap] and a counter within the
    cap, and every event waiting on [Pending] carries a counter within the
    cap.  An operation is within the cap when the event it submits is. *)
Definition counter_ok (c : Z) (z : Z) : bool := (Go.int_min <=? z) && (z <=? c).

Definition stored_ok (c : Z) (m : Manager) (kt : string * Task.Task) : bool :=
  String.eqb (Task.ID kt.2) kt.1
  && bool_decide (is_Some (TaskWorkerMap m !! kt.1))
  && counter_ok c (Task.RestartCount kt.2).

Definition item_ok (c : Z) (q : QueueItem) : bool :=
  match q with
  | QEvent te => counter_ok c (Task.RestartCount (Task.EventTask te))
  | QTask _ => true
  | QTaskPtr _ => true
  end.

Definition consistent (c : Z) (m : Manager) : bool :=
  forallb (stored_ok c m) (map_to_list (TaskDb m)) && forallb (item_ok c) (Pending m).

(** The same, spelled out. *)
Definition Consistent (c : Z) (m : Manager) : Prop :=
  (forall k t, TaskDb m !! k = Some t ->
     Task.ID t = k /\ is_Some (TaskWorkerMap m !! k)
     /\ Go.int_min <= Task.RestartCount t <= c)
  /\ (forall te, In (QEvent te) (Pending m) ->
       Go.int_min <= Task.RestartCount (Task.EventTask te) <= c).

Definition op_ok (c : Z) (eo : Env * Op) : bool :=
  match eo.2 with
  | OpAddTask te => counter_ok c (Task.RestartCount (Task.EventTask te))
  | _ => true
  end.

(** Between two states of the manager: every stored task is still stored,
    its counter has not gone down, and has not gone above 3 unless it was
    already there. *)
Definition RestartCount_grows (m1 m2 : Manager) : Prop :=
  forall id t1, Store.Get id (TaskDb m1) = Some t1 ->
    exists t2, Store.Get id (TaskDb m2) = Some t2
      /\ Task.RestartCount t1 <= Task.RestartCount t2 <= Z.max 3 (Task.RestartCount t1).

(** Across one operation: a stored counter stays, or it was below 3 and
    has gone up by exactly one. *)
Definition RestartCount_step (m1 m2 : Manager) : Prop :=
  forall id t1, Store.Get id (TaskDb m1) = Some t1 ->
    exists t2, Store.Get id (TaskDb m2) = Some t2
      /\ (Task.RestartCount t2 = Task.RestartCount t1
          \/ (Task.RestartCount t1 < 3
              /\ Task.RestartCount t2 = Task.RestartCount t1 + 1)).

(** Every stored task is still stored, with the counter it had. *)
Definition RestartCount_same (m1 m2 : Manager) : Prop :=
  forall id t1, TaskDb m1 !! id = Some t1 ->
    exists t2, TaskDb m2 !! id = Some t2
      /\ Task.RestartCount t2 = Task.RestartCount t1.

(** The claim that no history takes a stored counter above 3. *)
Definition never_above_3 (ops : list (Env * Op)) (m : Manager) : Prop :=
  forall id t, Store.Get id (TaskDb (Go.state_of (run ops m))) = Some t ->
    Task.RestartCount t <= 3.

End Manager.

(** ** Concrete configurations used by the examples below *)

Module Examples.

Definition task_of (id containerID : string) (s : Task.State) (restarts : Z) : Task.Task :=
  Task.mkTask id containerID id s "nginx" 0%float 64000000 0 [] ∅ ∅
    EmptyString 0 0 "/health" restarts.

(** A runtime that has lost every container: [Inspect] answers with an
    error and no container, as [Docker.Inspect] does when the daemon does
    not know the identifier. *)
Definition lost_driver : Task.Driver :=
  Task.mkDriver
    (fun _ => Task.mkDockerResult None "start" "c0" "success")
    (fun _ _ => Task.mkDockerResult None "stop" EmptyString "success")
    (fun _ _ => Task.mkInspect (Some "no such container") None).

Definition two_running : Worker.Worker :=
  Worker.mkWorker "w" []
    (<["a" := task_of "a" "c1" Task.Running 0]>
       (<["b" := task_of "b" "c2" Task.Running 0]> ∅))
    2 None [].

(** A healthy [/stats] body. *)
Definition some_stats : Stats.Stats :=
  Stats.mkStats (Some (Stats.mkMemStat 8000000 4000000 4000000))
    (Some (Stats.mkDiskStat 1000000 600000 400000))
    (Stats.mkCpuTimes 100 50 800 0 10 0 0 0) 1.

(** A network on which no worker can be reached. *)
Definition unreachable : Manager.Env :=
  Manager.mkEnv
    (fun _ _ => 1.7411011265922482%float)
    (fun _ => (Node.StatsTransportError, Node.StatsTransportError))
    (fun _ => Node.StatsTransportError)
    (fun _ _ => Manager.PostTransportError)
    (fun _ => Manager.TasksTransportError)
    (fun _ _ _ => Manager.HealthTransportError)
    (fun id => id +:+ "-restart")
    0.

(** A network on which worker [A:1] does not answer its stats calls and
    worker [B:2] does. *)
Definition only_B_answers : string -> Node.StatsResponse * Node.StatsResponse :=
  fun api =>
    if String.eqb api "http://B:2"
    then (Node.StatsReply 200 (Some some_stats), Node.StatsReply 200 (Some some_stats))
    else (Node.StatsTransportError, Node.StatsTransportError).

Definition pow_2_08 : float -> float -> float := fun _ _ => 1.7411011265922482%float.

Definition event1 : Task.TaskEvent :=
  Task.mkTaskEvent "E1" 0 Task.Running (task_of "T1" EmptyString Task.Pending 0).

(** An event whose task arrives with a restart counter of 7. *)
Definition event7 : Task.TaskEvent :=
  Task.mkTaskEvent "E7" 0 Task.Running (task_of "T7" EmptyString Task.Pending 7).

(** The nodes [A:1] and [B:2] and the scores round-robin gives them when
    its cursor stands at 0. *)
Definition two_nodes : Node.Heap :=
  [Node.NewNode "A:1" "http://A:1" "worker"; Node.NewNode "B:2" "http://B:2" "worker"].

Definition rr_scores : gmap string float :=
  (Scheduler.RoundRobin_Score two_nodes 0 [0%nat; 1%nat]).2.

(** A network on which the worker accepts what it is sent, reports task
    [T1] as failed, and fails every health probe. *)
Definition worker_reports_failure : Manager.Env :=
  Manager.mkEnv
    (fun _ _ => 1.7411011265922482%float)
    (fun _ => (Node.StatsReply 200 (Some some_stats), Node.StatsReply 200 (Some some_stats)))
    (fun _ => Node.StatsReply 200 (Some some_stats))
    (fun _ _ => Manager.PostReply 201 true)
    (fun _ => Manager.TasksReply 200 (Some [task_of "T1" "c1" Task.Failed 0]))
    (fun _ _ _ => Manager.HealthReply 500)
    (fun id => id +:+ "-restart")
    10.

Definition one_worker_rr : Manager.Manager := Manager.New ["w1:5556"] "round-robin".
Definition one_worker_greedy : Manager.Manager := Manager.New ["w1:5556"] "greedy".
Definition two_workers_greedy : Manager.Manager := Manager.New ["A:1"; "B:2"] "greedy".

(** A history: [T1] is submitted, placed, reported failed by its worker,
    and met by four rounds of health checks. *)
Definition failing_history : list (Manager.Env * Manager.Op) :=
  [(worker_reports_failure, Manager.OpAddTask event1);
   (worker_reports_failure, Manager.OpSendWork);
   (worker_reports_failure, Manager.OpUpdateTasks);
   (worker_reports_failure, Manager.OpDoHealthChecks);
   (worker_reports_failure, Manager.OpUpdateTasks);
   (worker_reports_failure, Manager.OpDoHealthChecks);
   (worker_reports_failure, Manager.OpUpdateTasks);
   (worker_reports_failure, Manager.OpDoHealthChecks);
   (worker_reports_failure, Manager.OpUpdateTasks);
   (worker_reports_failure, Manager.OpDoHealthChecks);
   (worker_reports_failure, Manager.OpUpdateNodeStats)].

(** A history that submits and places a task whose counter arrives at 7. *)
Definition history7 : list (Manager.Env * Manager.Op) :=
  [(worker_reports_failure, Manager.OpAddTask event7);
   (worker_reports_failure, Manager.OpSendWork)].

End Examples.

(** ** Notions used to state further properties of the code *)

Module Facts.

(** A task store is keyed when every record sits under its own identifier,
    as every [Put(t.ID.String(), t)] of the program leaves it. *)
Definition keyed (db : gmap string Task.Task) : bool :=
  forallb (fun kt : string * Task.Task => String.eqb (Task.ID kt.2) kt.1) (map_to_list db).

(** What a pass of the worker's [updateTasks] makes of one record whose
    container the runtime knows: a task that is not running is left as it
    is; a running one gets [Failed] when its container has exited and, in
    every case, the published ports of the container. *)
Definition inspected (driver : Task.Driver) (t : Task.Task) : Task.Task :=
  if bool_decide (Task.State_ t = Task.Running) then
    match Task.InspectContainer (Worker.InspectTask driver t) with
    | Some container =>
        Task.set_HostPorts (Task.Ports container)
          (if String.eqb (Task.Status container) "exited"
           then Task.set_State Task.Failed t else t)
    | None => t
    end
  else t.

(** The runtime knows the container of every running task of the store. *)
Definition containers_known (driver : Task.Driver) (db : gmap string Task.Task) : bool :=
  forallb
    (fun t => negb (bool_decide (Task.State_ t = Task.Running))
              || bool_decide (is_Some (Task.InspectContainer (Worker.InspectTask driver t))))
    (Store.List db).

(** The snapshot [GetStats] accepts from a reply: status 200, a body that
    decodes, and both [MemStats] and [DiskStats] present. *)
Definition reply_stats (r : Node.StatsResponse) : option Stats.Stats :=
  match r with
  | Node.StatsTransportError => None
  | Node.StatsReply status body =>
      if status =? 200 then
        match body with
        | Some stats =>
            match Stats.MemStats stats, Stats.DiskStats stats with
            | Some _, Some _ => Some stats
            | _, _ => None
            end
        | None => None
        end
      else None
  end.

(** Both stats calls of a CPU probe of the node behind [api] succeed. *)
Definition probe_ok (probe : string -> Node.StatsResponse * Node.StatsResponse)
    (api : string) : bool :=
  bool_decide (is_Some (reply_stats (probe api).1))
  && bool_decide (is_Some (reply_stats (probe api).2)).

(** A node after [GetStats] has accepted the snapshot [stats]. *)
Definition refreshed (stats : Stats.Stats) (n : Node.Node) : Node.Node :=
  Node.mkNode (Node.Name n) (Node.Ip n) (Node.Api n) (Node.Cores n)
    (Go.wrap64 (Stats.MemTotalKb stats)) (Node.MemoryAllocated n)
    (Go.wrap64 (Stats.DiskTotal stats)) (Node.DiskAllocated n)
    stats (Node.Role n) (Node.TaskCount n).

(** The idle and total CPU times of a snapshot are finite numbers. *)
Definition finite_cpu_times (stats : Stats.Stats) : bool :=
  let '(_, idle, _, total) := Stats.CpuUsage stats in
  PrimFloat.is_finite idle && PrimFloat.is_finite total.

(** The disk test of the greedy and E-PVM filter, on a node pointer. *)
Definition fits (h : Node.Heap) (t : Task.Task) (p : Node.Ptr) : bool :=
  Scheduler.checkDisk t
    (Go.wrap64 (Node.Disk (Node.deref h p) - Node.DiskAllocated (Node.deref h p))).

(** The names of the nodes behind a list of pointers. *)
Definition names (h : Node.Heap) (nodes : list Node.Ptr) : list string :=
  (fun p => Node.Name (Node.deref h p)) <$> nodes.

(** [TaskWorkerMap] and [WorkerTaskMap] agree: a task mapped to a worker
    is on that worker's list, a task on a worker's list is mapped to that
    worker, and no list names a task twice. *)
Definition placement_agrees (m : Manager.Manager) : bool :=
  forallb
    (fun iw : string * string =>
       bool_decide (iw.1 ∈ default [] (Manager.WorkerTaskMap m !! iw.2)))
    (map_to_list (Manager.TaskWorkerMap m))
  && forallb
       (fun wl : string * list Task.UUID =>
          bool_decide (NoDup wl.2)
          && forallb
               (fun id => bool_decide (Manager.TaskWorkerMap m !! id = Some wl.1))
               wl.2)
       (map_to_list (Manager.WorkerTaskMap m)).

(** The same, spelled out. *)
Definition Placement_agrees (m : Manager.Manager) : Prop :=
  (forall id w, Manager.TaskWorkerMap m !! id = Some w ->
     id ∈ default [] (Manager.WorkerTaskMap m !! w))
  /\ (forall w ids, Manager.WorkerTaskMap m !! w = Some ids ->
        NoDup ids /\ forall id, id ∈ ids -> Manager.TaskWorkerMap m !! id = Some w).

(** What the manager's [UpdateTasks] makes of a stored record [p] when a
    worker reports [t]: the five run-time fields are taken from the report,
    everything else is kept. *)
Definition overlay (t p : Task.Task) : Task.Task :=
  Task.mkTask (Task.ID p) (Task.ContainerID t) (Task.Name p) (Task.State_ t)
    (Task.Image p) (Task.Cpu p) (Task.Memory p) (Task.Disk p)
    (Task.ExposedPorts p) (Task.PortBindings p) (Task.HostPorts t)
    (Task.RestartPolicy p) (Task.StartTime t) (Task.FinishTime t)
    (Task.HealthCheck p) (Task.RestartCount p).

(** What the submitter fixed of a task: everything but the five run-time
    fields. *)
Definition submitted_part (t : Task.Task) :=
  (Task.ID t, Task.Name t, Task.Image t, Task.Cpu t, Task.Memory t, Task.Disk t,
   Task.ExposedPorts t, Task.PortBindings t, Task.RestartPolicy t,
   Task.HealthCheck t, Task.RestartCount t).

(** The tasks the workers report during one pass of [UpdateTasks], in the
    order the pass meets them; a worker that cannot be reached, answers
    with another status than 200 or with a body that does not decode
    reports nothing. *)
Definition reports (env : Manager.Env) (workers : list string) : list Task.Task :=
  flat_map
    (fun worker =>
       match Manager.get_tasks env worker with
       | Manager.TasksReply status (Some tasks) => if status =? 200 then tasks else []
       | _ => []
       end)
    workers.

(** The record a stored task ends with after the reports [l], taken in
    order, for the identifier [k]. *)
Definition after_reports (l : list Task.Task) (k : string) (p : Task.Task) : Task.Task :=
  fold_left (fun p t => if String.eqb (Task.ID t) k then overlay t p else p) l p.

(** A pass of [doHealthChecks] restarts a task when its counter is below
    3 and it is [Failed], or [Running] with a failed health check. *)
Definition restart_due (env : Manager.Env) (m : Manager.Manager) (t : Task.Task) : bool :=
  (Task.RestartCount t <? 3)
  && (bool_decide (Task.State_ t = Task.Failed)
      || (bool_decide (Task.State_ t = Task.Running)
          && match Manager.checkTaskHealth env t m with
             | Manager.Unhealthy => true
             | _ => false
             end)).

(** The record [restartTask] stores. *)
Definition restarted (t : Task.Task) : Task.Task :=
  Task.set_RestartCount (Go.wrap64 (Task.RestartCount t + 1))
    (Task.set_State Task.Scheduled t).

(** After a pass of [doHealthChecks]. *)
Definition health_checked (env : Manager.Env) (m : Manager.Manager) (t : Task.Task)
    : Task.Task :=
  if restart_due env m t then restarted t else t.

(** The manager's books: the two placement maps, the event log and the
    list of workers. *)
Definition books (m : Manager.Manager) :=
  (Manager.TaskWorkerMap m, Manager.WorkerTaskMap m, Manager.EventDb m, Manager.Workers m).

(** What no operation of the program writes of a node: its name and
    addresses, its cores and role, and the two allocation counters. *)
Definition fixed_part (n : Node.Node) :=
  (Node.Name n, Node.Ip n, Node.Api n, Node.Cores n,
   Node.MemoryAllocated n, Node.DiskAllocated n, Node.Role n).

(** [SendWork] with the event [te] at the head of the queue, when it goes
    no further than the event log: the event is taken off the queue and
    recorded, nothing else changes. *)
Definition logged_only (te : Task.TaskEvent) (rest : list Manager.QueueItem)
    (m : Manager.Manager) : Manager.Manager :=
  Manager.set_EventDb (Store.Put (Task.EventID te) te (Manager.EventDb m))
    (Manager.set_Pending rest m).

End Facts.

(** ** Further concrete configurations *)

Module Samples.

(** A runtime that knows every container: the one called [c1] has exited,
    the others run; each publishes port 80 on host port 32768. *)
Definition published : Task.PortMap :=
  {[ "80/tcp" := [Task.mkPortBinding "0.0.0.0" "32768"] ]}.

Definition exited_driver : Task.Driver :=
  Task.mkDriver
    (fun _ => Task.mkDockerResult None "start" "c0" "success")
    (fun _ _ => Task.mkDockerResult None "stop" EmptyString "success")
    (fun _ containerID =>
       Task.mkInspect None
         (Some (Task.mkContainer
                  (if String.eqb containerID "c1" then "exited" else "running")
                  published))).

(** The manager at the end of the history in which [T1] is placed, fails
    and is restarted up to the cap. *)
Definition placed : Manager.Manager :=
  Go.state_of (Manager.run Examples.failing_history Examples.one_worker_rr).

(** A manager with one event waiting. *)
Definition waiting : Manager.Manager :=
  Manager.AddTask Examples.event1 Examples.one_worker_rr.

(** The record of [T1] at the end of that history: [Failed], counter 3. *)
Definition placed_T1 : Task.Task :=
  default Task.zero_Task (Manager.TaskDb placed !! "T1").

(** The manager when [T1] has been placed and its worker has reported it
    failed for the first time. *)
Definition failed_once : Manager.Manager :=
  Go.state_of (Manager.run (take 3 Examples.failing_history) Examples.one_worker_rr).

End Samples.

(** * Theorems *)

(** ** The task state machine *)

Lemma transitions_of_rows :
  Task.transitions_of Task.Pending = [Task.Scheduled]
  /\ Task.transitions_of Task.Scheduled = [Task.Scheduled; Task.Running; Task.Failed]
  /\ Task.transitions_of Task.Running = [Task.Running; Task.Completed; Task.Failed]
  /\ Task.transitions_of Task.Completed = []
  /\ Task.transitions_of Task.Failed = []
  /\ Task.transitions_of Task.Stopped = [].
Proof. repeat split; vm_compute; reflexivity. Qed.

(** C1. [ValidStateTransition src dst] answers true exactly on the pairs of
    the legal-transition table: Pending to Scheduled; Scheduled to
    Scheduled, Running or Failed; Running to Running, Completed or Failed;
    and nothing leaves Completed, Failed or Stopped. *)
Theorem ValidStateTransition_iff_table :
  (forall src dst : Task.State,
     Task.ValidStateTransition src dst = true <-> Task.LegalTransition src dst)
  /\ (forall dst, Task.ValidStateTransition Task.Completed dst = false)
  /\ (forall dst, Task.ValidStateTransition Task.Failed dst = false)
  /\ (forall dst, Task.ValidStateTransition Task.Stopped dst = false).
Proof.
  split; [|repeat split; intros []; vm_compute; reflexivity].
  intros src dst; split.
  - destruct src, dst; intros H; try constructor; vm_compute in H; discriminate.
  - intros []; vm_compute; reflexivity.
Qed.

(** C10. No accepted transition has [Stopped] as its target or as its
    source: [ValidStateTransition s Stopped] and
    [ValidStateTransition Stopped s] are false for every state [s]. *)
Theorem Stopped_unreachable_and_terminal (s : Task.State) :
  Task.ValidStateTransition s Task.Stopped = false
  /\ Task.ValidStateTransition Task.Stopped s = false.
Proof. destruct s; split; vm_compute; reflexivity. Qed.

(** ** The worker *)

Lemma persist_lookup (t : Task.Task) (w : Worker.Worker) :
  Worker.Db (Worker.persist t w) !! Task.ID t = Some t.
Proof. unfold Worker.persist, Store.Put; simpl. apply lookup_insert_eq. Qed.

Lemma persist_lookup_ne (t : Task.Task) (w : Worker.Worker) (k : string) :
  k <> Task.ID t -> Worker.Db (Worker.persist t w) !! k = Worker.Db w !! k.
Proof.
  intros Hk. unfold Worker.persist, Store.Put; simpl.
  apply lookup_insert_ne. congruence.
Qed.

(** C8. [StopTask] stores the task with [FinishTime] set to the current
    time and [State] set to [Completed], whatever the driver's [Stop]
    answered; the driver's result, error included, is what [StopTask]
    returns, and an error adds a line to the log and nothing else. *)
Theorem StopTask_always_completes (driver : Task.Driver) (now : Task.Time)
    (t : Task.Task) (w : Worker.Worker) :
  let result := Task.Stop driver (Task.NewConfig t) (Task.ContainerID t) in
  let stored := Task.set_State Task.Completed (Task.set_FinishTime now t) in
  (Worker.StopTask driver now t w).2 = result
  /\ Store.Get (Task.ID t) (Worker.Db (Worker.StopTask driver now t w).1) = Some stored
  /\ Task.State_ stored = Task.Completed
  /\ Task.FinishTime stored = now
  /\ Worker.Log (Worker.StopTask driver now t w).1 =
       Worker.Log w
       ++ match Task.Error result with
          | Some err => [Worker.ErrorStoppingContainer (Task.ContainerID t) err]
          | None => []
          end
       ++ [Worker.StoppedAndRemoved (Task.ContainerID t) (Task.ID t)].
Proof.
  intros result stored. unfold Worker.StopTask. fold result.
  repeat split.
  - unfold Store.Get. destruct (Task.Error result); simpl; apply lookup_insert_eq.
  - destruct (Task.Error result); simpl; [rewrite <- app_assoc|]; reflexivity.
Qed.

Lemma updateTasks_body_nil_container (driver : Task.Driver) (t : Task.Task)
    (w : Worker.Worker) :
  Task.State_ t = Task.Running ->
  Task.InspectContainer (Worker.InspectTask driver t) = None ->
  exists w', Worker.updateTasks_body driver t w = Go.Panic w'
    /\ Store.Get (Task.ID t) (Worker.Db w') = Some (Task.set_State Task.Failed t)
    /\ In (Worker.NoContainerForRunningTask (Task.ID t)) (Worker.Log w').
Proof.
  intros Hrun Hnil. unfold Worker.updateTasks_body.
  rewrite Hrun, Hnil. rewrite bool_decide_eq_true_2 by reflexivity.
  eexists; split; [reflexivity|]. split.
  - apply (persist_lookup (Task.set_State Task.Failed t)).
  - simpl. destruct (Task.InspectError _); simpl; rewrite !in_app_iff; simpl; auto.
Qed.

(** C4. On a worker holding two running tasks whose containers the runtime
    no longer knows, [updateTasks] marks the first task [Failed] and stores
    it, then dereferences the nil [Container] and panics: the pass does not
    go on to the second task, which stays [Running]. *)
Theorem updateTasks_nil_container_panics :
  exists w',
    Worker.updateTasks Examples.lost_driver Examples.two_running = Go.Panic w'
    /\ Task.State_ <$> Store.Get "a" (Worker.Db w') = Some Task.Failed
    /\ Task.State_ <$> Store.Get "b" (Worker.Db w') = Some Task.Running
    /\ Worker.Log w' = [Worker.InspectFailed "no such container";
                        Worker.NoContainerForRunningTask "a"].
Proof. eexists. split; [vm_compute; reflexivity|]. repeat split. Qed.

(** ** Placement *)

Lemma Score_never_nil (Pow : float -> float -> float)
    (probe : string -> Node.StatsResponse * Node.StatsResponse)
    (s : Scheduler.Scheduler) (h : Node.Heap) (t : Task.Task) (nodes : list Node.Ptr) :
  is_Some (Scheduler.Score Pow probe s h t nodes).2.
Proof.
  destruct s; unfold Scheduler.Score.
  - unfold Scheduler.RoundRobin_Score; simpl; eauto.
  - destruct (Scheduler.Greedy_Score _ _ _ _ _); simpl; eauto.
  - destruct (Scheduler.Epvm_Score _ _ _ _ _); simpl; eauto.
Qed.

Lemma SelectWorker_never_NoScores (env : Manager.Env) (t : Task.Task)
    (m : Manager.Manager) :
  (Manager.SelectWorker env t m).2 <> Manager.SelectFailed Manager.NoScores.
Proof.
  unfold Manager.SelectWorker.
  destruct (Go.is_nil _); simpl; [discriminate|].
  pose proof (Score_never_nil (Manager.Pow env) (Manager.probe env)
                (Manager.Scheduler m) (Manager.Nodes m) t
                (Go.elems (Scheduler.SelectCandidateNodes (Manager.Scheduler m)
                             (Manager.Nodes m) t (Manager.WorkerNodes m)))) as [sc Hsc].
  destruct (Scheduler.Score _ _ _ _ _ _) as [[s h] o]; simpl in *; subst o.
  simpl. discriminate.
Qed.


(** The two outcomes [SelectWorker] does have: the no-candidates error on
    a nil candidate slice, and otherwise the node [Pick] chooses on the
    scores [Score] returned. *)
Lemma SelectWorker_cases (env : Manager.Env) (t : Task.Task) (m : Manager.Manager) :
  let candidates :=
    Scheduler.SelectCandidateNodes (Manager.Scheduler m) (Manager.Nodes m) t
      (Manager.WorkerNodes m) in
  (Go.is_nil candidates = true ->
     Manager.SelectWorker env t m = (m, Manager.SelectFailed Manager.NoCandidates))
  /\ (Go.is_nil candidates = false ->
       exists s h scores,
         Scheduler.Score (Manager.Pow env) (Manager.probe env) (Manager.Scheduler m)
           (Manager.Nodes m) t (Go.elems candidates) = (s, h, Some scores)
         /\ (Manager.SelectWorker env t m).2
             = Manager.Selected (Scheduler.Pick s h scores (Go.elems candidates))).
Proof.
  intros candidates. unfold Manager.SelectWorker. fold candidates. split; intros Hnil.
  - rewrite Hnil. reflexivity.
  - rewrite Hnil.
    pose proof (Score_never_nil (Manager.Pow env) (Manager.probe env)
                  (Manager.Scheduler m) (Manager.Nodes m) t (Go.elems candidates))
      as [sc Hsc].
    destruct (Scheduler.Score _ _ _ _ _ _) as [[s h] o]; simpl in Hsc; subst o.
    exists s, h, sc. split; reflexivity.
Qed.

(** C5. With the greedy scheduler and a single worker whose stats calls
    fail, [Score] returns an empty map, yet [SelectWorker] reports no
    error and returns that worker: the test [scores == nil] never holds
    for a map built with [make]. *)
Theorem SelectWorker_empty_scores_selects :
  let m := Examples.one_worker_greedy in
  let t := Task.EventTask Examples.event1 in
  (Scheduler.Score (Manager.Pow Examples.unreachable) (Manager.probe Examples.unreachable)
     (Manager.Scheduler m) (Manager.Nodes m) t [0%nat]).2 = Some ∅
  /\ (Manager.SelectWorker Examples.unreachable t m).2 = Manager.Selected (Some 0%nat)
  /\ Node.Name (Node.deref (Manager.Nodes m) 0%nat) = "w1:5556".
Proof. vm_compute. repeat split. Qed.

(** C6. With the greedy scheduler and the candidates [A:1], whose stats
    calls fail, and [B:2], whose calls succeed, [Score] leaves [A:1] out of
    the map and scores [B:2]; [Pick] then reads the missing entry as 0 and
    returns [A:1], the unscored node. *)
Theorem Greedy_Pick_returns_unscored_node :
  let m := Examples.two_workers_greedy in
  let t := Task.EventTask Examples.event1 in
  let hs := Scheduler.Greedy_Score Examples.pow_2_08 Examples.only_B_answers
              (Manager.Nodes m) t [0%nat; 1%nat] in
  hs.2 !! "A:1" = None
  /\ hs.2 !! "B:2" = Some 0%float
  /\ Scheduler.Greedy_Pick hs.1 hs.2 [0%nat; 1%nat] = Some 0%nat
  /\ Node.Name (Node.deref hs.1 0%nat) = "A:1".
Proof. vm_compute. repeat split. Qed.

(** ** Dispatch *)

(** C2. A manager with one worker receives an event for task [T1] while
    the worker is unreachable.  [SendWork] records the placement before it
    posts: after the transport error [TaskWorkerMap] holds [T1], and what
    is put back on [Pending] is the task itself, not an event.  The next
    [SendWork] fails its type assertion on that item and panics; placement
    is not run again. *)
Theorem SendWork_transport_error_keeps_placement :
  exists m1 m2,
    Manager.SendWork Examples.unreachable
      (Manager.AddTask Examples.event1 Examples.one_worker_rr) = Go.Done m1
    /\ Manager.Pending m1 =
         [Manager.QTask (Task.set_State Task.Scheduled (Task.EventTask Examples.event1))]
    /\ Manager.TaskWorkerMap m1 !! "T1" = Some "w1:5556"
    /\ Manager.WorkerTaskMap m1 !! "w1:5556" = Some ["T1"]
    /\ Manager.SendWork Examples.unreachable m1 = Go.Panic m2
    /\ Manager.Pending m2 = [].
Proof.
  do 2 eexists. split; [vm_compute; reflexivity|].
  split; [reflexivity|]. split; [reflexivity|]. split; [reflexivity|].
  split; [vm_compute; reflexivity|]. reflexivity.
Qed.

(** ** The E-PVM cost over the real numbers *)

Lemma cpuCost_R_cancel (cpuLoad : R) (taskCount : Z) :
  @Scheduler.cpuCost R Scheduler.R_Numeric cpuLoad taskCount =
  Rminus (Rpower (@Scheduler.nLIEB R Scheduler.R_Numeric)
                 (@Scheduler.jobPctAfter R Scheduler.R_Numeric taskCount))
         (Rpower (@Scheduler.nLIEB R Scheduler.R_Numeric)
                 (@Scheduler.jobPctCurrent R Scheduler.R_Numeric taskCount)).
Proof.
  unfold Scheduler.cpuCost.
  generalize (@Scheduler.jobPctAfter R Scheduler.R_Numeric taskCount).
  generalize (@Scheduler.jobPctCurrent R Scheduler.R_Numeric taskCount).
  intros c a.
  change (@Scheduler.nadd R Scheduler.R_Numeric) with Rplus.
  change (@Scheduler.nsub R Scheduler.R_Numeric) with Rminus.
  change (@Scheduler.npow R Scheduler.R_Numeric) with Rpower.
  generalize (@Scheduler.nLIEB R Scheduler.R_Numeric). intros L. ring.
Qed.

Lemma job_term_positive_at_0 :
  Rlt 0 (Rminus (Rpower (@Scheduler.nLIEB R Scheduler.R_Numeric)
                        (@Scheduler.jobPctAfter R Scheduler.R_Numeric 0))
                (Rpower (@Scheduler.nLIEB R Scheduler.R_Numeric)
                        (@Scheduler.jobPctCurrent R Scheduler.R_Numeric 0))).
Proof.
  unfold Scheduler.jobPctAfter, Scheduler.jobPctCurrent; simpl.
  change (Go.wrap64 (0 + 1)) with 1.
  apply Rlt_0_minus. apply Rpower_lt; lra.
Qed.

(** C9, as stated, fails for a node without tasks: there [cpuCost] is not
    twice the difference of the two job terms. *)
Lemma cpuCost_is_not_twice_the_job_term :
  @Scheduler.cpuCost R Scheduler.R_Numeric 0%R 0 <>
  Rmult 2 (Rminus (Rpower (@Scheduler.nLIEB R Scheduler.R_Numeric)
                          (@Scheduler.jobPctAfter R Scheduler.R_Numeric 0))
                  (Rpower (@Scheduler.nLIEB R Scheduler.R_Numeric)
                          (@Scheduler.jobPctCurrent R Scheduler.R_Numeric 0))).
Proof.
  rewrite cpuCost_R_cancel. pose proof job_term_positive_at_0. lra.
Qed.

(** C9, amended.  Read over the real numbers, [cpuCost] reduces to the
    difference of the two job terms taken once,
    [L^jobPctAfter - L^jobPctCurrent]; the factor two belongs to the whole
    score, where [memCost] brings the same difference a second time. *)
Theorem cpuCost_reduces_to_job_term (cpuLoad newMemPercent memoryPercentAllocated : R)
    (taskCount : Z) :
  let L := @Scheduler.nLIEB R Scheduler.R_Numeric in
  let after := @Scheduler.jobPctAfter R Scheduler.R_Numeric taskCount in
  let current := @Scheduler.jobPctCurrent R Scheduler.R_Numeric taskCount in
  after = Rdiv (IZR (Go.wrap64 (taskCount + 1))) 4
  /\ current = Rdiv (IZR taskCount) 4
  /\ @Scheduler.cpuCost R Scheduler.R_Numeric cpuLoad taskCount =
       Rminus (Rpower L after) (Rpower L current)
  /\ @Scheduler.epvmScore R Scheduler.R_Numeric cpuLoad newMemPercent
       memoryPercentAllocated taskCount =
       Rplus (Rminus (Rpower L newMemPercent) (Rpower L memoryPercentAllocated))
             (Rmult 2 (Rminus (Rpower L after) (Rpower L current))).
Proof.
  intros L after current. repeat split.
  - apply cpuCost_R_cancel.
  - subst L after current.
    unfold Scheduler.epvmScore, Scheduler.memCost, Scheduler.cpuCost.
    generalize (@Scheduler.jobPctAfter R Scheduler.R_Numeric taskCount).
    generalize (@Scheduler.jobPctCurrent R Scheduler.R_Numeric taskCount).
    intros c a.
    change (@Scheduler.nadd R Scheduler.R_Numeric) with Rplus.
    change (@Scheduler.nsub R Scheduler.R_Numeric) with Rminus.
    change (@Scheduler.npow R Scheduler.R_Numeric) with Rpower.
    generalize (@Scheduler.nLIEB R Scheduler.R_Numeric). intros L. ring.
Qed.

(** ** The order of [float64] *)

Ltac compare_cases :=
  repeat match goal with
  | H : context [Z.compare ?a ?b] |- _ => destruct (Z.compare_spec a b)
  | |- context [Z.compare ?a ?b] => destruct (Z.compare_spec a b)
  | H : context [Pos.compare ?a ?b] |- _ => destruct (Pos.compare_spec a b)
  | |- context [Pos.compare ?a ?b] => destruct (Pos.compare_spec a b)
  end.

Ltac spec_float_order :=
  unfold SFltb, SFeqb, SFcompare;
  repeat match goal with
  | x : spec_float |- _ => destruct x
  | b : bool |- _ => destruct b
  end;
  change (Pos.compare_cont Eq) with Pos.compare in *;
  simpl; intros; try congruence;
  compare_cases; simpl in *; subst; try congruence; try lia.

Lemma SFltb_irrefl (x : spec_float) : SFltb x x = false.
Proof. spec_float_order. Qed.

Lemma SFltb_trans (x y z : spec_float) :
  SFltb x y = true -> SFltb y z = true -> SFltb x z = true.
Proof. spec_float_order. Qed.

Lemma SFltb_below_bound (x y z : spec_float) :
  z <> S754_nan -> SFltb x y = true -> SFltb z y = false -> SFltb x z = true.
Proof. spec_float_order. Qed.

Lemma SFeqb_nan (x : spec_float) : SFeqb x x = true -> x <> S754_nan.
Proof. spec_float_order. Qed.

Lemma float_ltb_irrefl (x : float) : (x <? x)%float = false.
Proof. rewrite FloatAxioms.ltb_spec. apply SFltb_irrefl. Qed.

Lemma float_ltb_trans (x y z : float) :
  (x <? y)%float = true -> (y <? z)%float = true -> (x <? z)%float = true.
Proof. rewrite !FloatAxioms.ltb_spec. apply SFltb_trans. Qed.

Lemma float_ltb_below_bound (x y z : float) :
  PrimFloat.is_nan z = false ->
  (x <? y)%float = true -> (z <? y)%float = false -> (x <? z)%float = true.
Proof.
  unfold PrimFloat.is_nan. rewrite !FloatAxioms.ltb_spec, FloatAxioms.eqb_spec. intros Hz.
  apply SFltb_below_bound. apply SFeqb_nan.
  destruct (SFeqb _ _); [reflexivity | discriminate].
Qed.

(** ** [Pick] returns the first minimum *)

Section PickLoop.

Variable h : Node.Heap.
Variable scores : gmap string float.

Local Abbreviation sc := (Scheduler.score_of h scores).

Lemma first_minimum_singleton (c : Node.Ptr) :
  Scheduler.first_minimum h scores [c] c.
Proof.
  exists 0%nat. split; [reflexivity|]. split.
  - intros q Hq. apply list_elem_of_singleton in Hq. subst q. apply float_ltb_irrefl.
  - intros j q Hj. lia.
Qed.

(** The running minimum survives a candidate that is not strictly smaller. *)
Lemma first_minimum_keep (pre : list Node.Ptr) (b x : Node.Ptr) :
  Scheduler.first_minimum h scores pre b ->
  (sc x <? sc b)%float = false ->
  Scheduler.first_minimum h scores (pre ++ [x]) b.
Proof.
  intros (i & Hi & Hmin & Hfirst) Hx. exists i.
  pose proof (lookup_lt_Some _ _ _ Hi) as Hlen.
  split; [rewrite lookup_app_l; assumption|]. split.
  - intros q Hq. apply elem_of_app in Hq as [Hq|Hq]; [auto|].
    apply list_elem_of_singleton in Hq. subst q. exact Hx.
  - intros j q Hj Hq. rewrite lookup_app_l in Hq by lia. eauto.
Qed.

(** A strictly smaller candidate becomes the running minimum. *)
Lemma first_minimum_replace (pre : list Node.Ptr) (b x : Node.Ptr) :
  Scheduler.first_minimum h scores pre b ->
  (forall q, q ∈ pre -> PrimFloat.is_nan (sc q) = false) ->
  (sc x <? sc b)%float = true ->
  Scheduler.first_minimum h scores (pre ++ [x]) x.
Proof.
  intros (i & Hi & Hmin & Hfirst) Hnan Hx. exists (length pre).
  split; [apply list_lookup_middle; reflexivity|]. split.
  - intros q Hq. apply elem_of_app in Hq as [Hq|Hq].
    + destruct (sc q <? sc x)%float eqn:Hqx; [|reflexivity].
      pose proof (float_ltb_trans _ _ _ Hqx Hx) as Hqb.
      specialize (Hmin q Hq). congruence.
    + apply list_elem_of_singleton in Hq. subst q. apply float_ltb_irrefl.
  - intros j q Hj Hq. rewrite lookup_app_l in Hq by lia.
    assert (q ∈ pre) as Hin by (apply list_elem_of_lookup; eauto).
    apply (float_ltb_below_bound (sc x) (sc b) (sc q)); auto.
Qed.

Lemma pick_loop_first_minimum (rest pre : list Node.Ptr) (b : Node.Ptr) (idx : nat) :
  Scheduler.first_minimum h scores pre b ->
  (forall q, q ∈ pre ++ rest -> PrimFloat.is_nan (sc q) = false) ->
  exists p,
    Scheduler.pick_loop h scores (S idx) rest (Some b) (sc b) = Some p
    /\ Scheduler.first_minimum h scores (pre ++ rest) p.
Proof.
  revert pre b idx. induction rest as [|x rest IH]; intros pre b idx Hmin Hnan.
  - exists b. rewrite app_nil_r. split; [reflexivity | assumption].
  - simpl. fold (Scheduler.score_of h scores x).
    replace (pre ++ x :: rest) with ((pre ++ [x]) ++ rest) in *
      by (rewrite <- app_assoc; reflexivity).
    destruct (sc x <? sc b)%float eqn:Hx.
    + apply IH; [|assumption].
      apply first_minimum_replace with (b := b); auto.
      intros q Hq. apply Hnan. rewrite !elem_of_app. auto.
    + apply IH; [|assumption].
      apply first_minimum_keep; assumption.
Qed.

End PickLoop.

Lemma Pick_is_pick_loop (s : Scheduler.Scheduler) (h : Node.Heap)
    (scores : gmap string float) (candidates : list Node.Ptr) :
  Scheduler.Pick s h scores candidates
  = Scheduler.pick_loop h scores 0 candidates None 0%float.
Proof. destruct s; reflexivity. Qed.

Lemma scored_not_nan (h : Node.Heap) (scores : gmap string float)
    (candidates : list Node.Ptr) :
  forallb (Scheduler.scored h scores) candidates = true ->
  forall q, q ∈ candidates -> PrimFloat.is_nan (Scheduler.score_of h scores q) = false.
Proof.
  intros Hall q Hq. rewrite forallb_forall in Hall.
  apply list_elem_of_In in Hq. specialize (Hall q Hq).
  unfold Scheduler.scored in Hall.
  unfold Scheduler.score_of, Scheduler.score_at.
  destruct (scores !! _) as [x|]; [simpl|discriminate].
  destruct (PrimFloat.is_nan x); [discriminate | reflexivity].
Qed.

(** C3, as stated, fails on the empty candidate list: each of the three
    [Pick]s returns nil there, which is no node of the list. *)
Lemma Pick_of_no_candidates_is_nil :
  ~ Scheduler.picks_first_minimum (Scheduler.RoundRobin "round-robin" 0) [] ∅ []
  /\ ~ Scheduler.picks_first_minimum (Scheduler.Greedy "greedy") [] ∅ []
  /\ ~ Scheduler.picks_first_minimum (Scheduler.Epvm "epvm") [] ∅ [].
Proof. repeat split; intros (p & Hp & _); discriminate Hp. Qed.

(** Round-robin scores every node it is given, with 0.1 or 1.0. *)
Lemma RoundRobin_Score_loop_scored (h : Node.Heap) (newWorker : Z)
    (nodes : list Node.Ptr) :
  forall (idx : Z) (acc : gmap string float),
    (forall k x, acc !! k = Some x -> PrimFloat.is_nan x = false) ->
    let r := Scheduler.RoundRobin_Score_loop h newWorker idx nodes acc in
    (forall k x, r !! k = Some x -> PrimFloat.is_nan x = false)
    /\ (forall k, is_Some (acc !! k) -> is_Some (r !! k))
    /\ (forall p, p ∈ nodes -> is_Some (r !! Node.Name (Node.deref h p))).
Proof.
  induction nodes as [|node rest IH]; intros idx acc Hacc; simpl.
  - split; [exact Hacc|]. split; [auto|]. intros p Hp. inversion Hp.
  - set (acc' := if idx =? newWorker then _ else _).
    assert (forall k x, acc' !! k = Some x -> PrimFloat.is_nan x = false) as Hacc'.
    { intros k x. subst acc'. destruct (idx =? newWorker); intros Hk;
        apply lookup_insert_Some in Hk as [[_ <-]|[_ Hk]]; eauto. }
    assert (forall k, is_Some (acc !! k) -> is_Some (acc' !! k)) as Hkeep.
    { intros k Hk. subst acc'. destruct (idx =? newWorker);
        rewrite lookup_insert_is_Some; destruct (decide (Node.Name (Node.deref h node) = k)); auto. }
    assert (is_Some (acc' !! Node.Name (Node.deref h node))) as Hnew.
    { subst acc'. destruct (idx =? newWorker); rewrite lookup_insert_eq; eauto. }
    destruct (IH (idx + 1) acc' Hacc') as (Hr & Hmono & Hrest).
    split; [exact Hr|]. split; [auto|].
    intros p Hp. apply elem_of_cons in Hp as [->|Hp]; auto.
Qed.

Lemma RoundRobin_Score_scored (h : Node.Heap) (LastWorker : Z) (nodes : list Node.Ptr) :
  forallb (Scheduler.scored h (Scheduler.RoundRobin_Score h LastWorker nodes).2) nodes
  = true.
Proof.
  unfold Scheduler.RoundRobin_Score; simpl.
  destruct (RoundRobin_Score_loop_scored h
              (if Go.wrap64 (LastWorker + 1) <? Z.of_nat (length nodes)
               then Go.wrap64 (LastWorker + 1) else 0) nodes 0 ∅)
    as (Hr & _ & Hall).
  { intros k x Hk. rewrite lookup_empty in Hk. discriminate. }
  apply forallb_forall. intros p Hp. apply list_elem_of_In in Hp.
  unfold Scheduler.scored. destruct (Hall p Hp) as [x Hx]. rewrite Hx.
  rewrite (Hr _ _ Hx). reflexivity.
Qed.

(** For round-robin the map that [Score] produces always qualifies: on
    every non-empty node list [Pick] returns the first minimum of the
    scores [Score] has just given. *)
Lemma RoundRobin_Pick_after_Score (name : string) (h : Node.Heap) (LastWorker : Z)
    (nodes : list Node.Ptr) :
  nodes <> [] ->
  Scheduler.picks_first_minimum
    (Scheduler.RoundRobin name (Scheduler.RoundRobin_Score h LastWorker nodes).1)
    h (Scheduler.RoundRobin_Score h LastWorker nodes).2 nodes.
Proof.
  intros Hne. pose proof (RoundRobin_Score_scored h LastWorker nodes) as Hscored.
  destruct (Scheduler.RoundRobin_Score h LastWorker nodes) as [last scores].
  cbn [fst snd] in *. unfold Scheduler.picks_first_minimum. rewrite Pick_is_pick_loop.
  destruct nodes as [|c rest]; [congruence|]. simpl.
  apply (pick_loop_first_minimum h scores rest [c] c 0).
  - apply first_minimum_singleton.
  - apply scored_not_nan. exact Hscored.
Qed.

(** C3, amended.  For each of the three schedulers, every non-empty
    candidate list and every score map that holds a number for each
    candidate, [Pick] returns a node of the list whose score no candidate
    undercuts, and every candidate before it has a strictly larger score. *)
Theorem Pick_returns_first_minimum (s : Scheduler.Scheduler) (h : Node.Heap)
    (scores : gmap string float) (candidates : list Node.Ptr) :
  candidates <> [] ->
  forallb (Scheduler.scored h scores) candidates = true ->
  Scheduler.picks_first_minimum s h scores candidates.
Proof.
  intros Hne Hscored. unfold Scheduler.picks_first_minimum.
  rewrite Pick_is_pick_loop.
  destruct candidates as [|c rest]; [congruence|]. simpl.
  apply (pick_loop_first_minimum h scores rest [c] c 0).
  - apply first_minimum_singleton.
  - apply scored_not_nan. exact Hscored.
Qed.

Lemma Pick_returns_first_minimum_witness :
  Scheduler.picks_first_minimum (Scheduler.RoundRobin "round-robin" 0)
    Examples.two_nodes Examples.rr_scores [0%nat; 1%nat].
Proof.
  apply Pick_returns_first_minimum; [discriminate | vm_compute; reflexivity].
Defined.

(** ** Restart counters *)

Lemma wrap64_succ (z : Z) : Go.int_min <= z < 3 -> Go.wrap64 (z + 1) = z + 1.
Proof.
  unfold Go.int_min, Go.wrap64. intros Hz.
  rewrite Z.mod_small; lia.
Qed.

Lemma counter_ok_spec (c z : Z) :
  Manager.counter_ok c z = true <-> Go.int_min <= z <= c.
Proof. unfold Manager.counter_ok. rewrite andb_true_iff, !Z.leb_le. tauto. Qed.

Lemma consistent_spec (c : Z) (m : Manager.Manager) :
  Manager.consistent c m = true <-> Manager.Consistent c m.
Proof.
  unfold Manager.consistent, Manager.Consistent.
  rewrite andb_true_iff, !forallb_forall. split.
  - intros [Hdb Hq]. split.
    + intros k t Hk. apply elem_of_map_to_list, list_elem_of_In in Hk.
      specialize (Hdb _ Hk). unfold Manager.stored_ok in Hdb; simpl in Hdb.
      rewrite !andb_true_iff in Hdb. destruct Hdb as [[Hid Hw] Hc].
      apply String.eqb_eq in Hid. apply bool_decide_eq_true in Hw.
      apply counter_ok_spec in Hc. auto.
    + intros te Hin. specialize (Hq _ Hin). simpl in Hq.
      apply counter_ok_spec in Hq. exact Hq.
  - intros [Hdb Hq]. split.
    + intros [k t] Hk. apply list_elem_of_In, elem_of_map_to_list in Hk.
      destruct (Hdb _ _ Hk) as (Hid & Hw & Hc).
      unfold Manager.stored_ok; simpl. rewrite !andb_true_iff. repeat split.
      * apply String.eqb_eq. exact Hid.
      * apply bool_decide_eq_true. exact Hw.
      * apply counter_ok_spec. exact Hc.
    + intros [te|t|t] Hin; simpl; [|reflexivity|reflexivity].
      apply counter_ok_spec. auto.
Qed.

Lemma Consistent_weaken (c : Z) (m m' : Manager.Manager) :
  Manager.TaskDb m' = Manager.TaskDb m ->
  Manager.TaskWorkerMap m' = Manager.TaskWorkerMap m ->
  (forall te, In (Manager.QEvent te) (Manager.Pending m') ->
              In (Manager.QEvent te) (Manager.Pending m)) ->
  Manager.Consistent c m -> Manager.Consistent c m'.
Proof.
  intros Hdb Hw Hq [H1 H2]. split.
  - intros k t. rewrite Hdb, Hw. apply H1.
  - intros te Hin. apply H2, Hq, Hin.
Qed.

Lemma RestartCount_same_refl (m : Manager.Manager) : Manager.RestartCount_same m m.
Proof. intros id t Ht. eauto. Qed.

Lemma RestartCount_same_trans (m1 m2 m3 : Manager.Manager) :
  Manager.RestartCount_same m1 m2 -> Manager.RestartCount_same m2 m3 ->
  Manager.RestartCount_same m1 m3.
Proof.
  intros H12 H23 id t1 Ht1.
  destruct (H12 _ _ Ht1) as (t2 & Ht2 & E2).
  destruct (H23 _ _ Ht2) as (t3 & Ht3 & E3).
  exists t3. split; [assumption | congruence].
Qed.

Lemma RestartCount_same_step (m1 m2 : Manager.Manager) :
  Manager.RestartCount_same m1 m2 -> Manager.RestartCount_step m1 m2.
Proof.
  intros H id t1 Ht1. destruct (H _ _ Ht1) as (t2 & Ht2 & E).
  exists t2. split; [exact Ht2 | left; exact E].
Qed.

Lemma RestartCount_step_grows (m1 m2 : Manager.Manager) :
  Manager.RestartCount_step m1 m2 -> Manager.RestartCount_grows m1 m2.
Proof.
  intros H id t1 Ht1. destruct (H _ _ Ht1) as (t2 & Ht2 & [E|[Hlt E]]);
    exists t2; (split; [exact Ht2 | lia]).
Qed.

Lemma RestartCount_grows_refl (m : Manager.Manager) : Manager.RestartCount_grows m m.
Proof. intros id t Ht. exists t. split; [exact Ht | lia]. Qed.

Lemma RestartCount_grows_trans (m1 m2 m3 : Manager.Manager) :
  Manager.RestartCount_grows m1 m2 -> Manager.RestartCount_grows m2 m3 ->
  Manager.RestartCount_grows m1 m3.
Proof.
  intros H12 H23 id t1 Ht1.
  destruct (H12 _ _ Ht1) as (t2 & Ht2 & E2).
  destruct (H23 _ _ Ht2) as (t3 & Ht3 & E3).
  exists t3. split; [assumption | lia].
Qed.

(** Placement reads the nodes and moves the cursor; it leaves the queue,
    the stores and the two maps alone. *)
Lemma SelectWorker_preserves (env : Manager.Env) (t : Task.Task) (m : Manager.Manager) :
  let m' := (Manager.SelectWorker env t m).1 in
  Manager.Pending m' = Manager.Pending m
  /\ Manager.TaskDb m' = Manager.TaskDb m
  /\ Manager.EventDb m' = Manager.EventDb m
  /\ Manager.WorkerTaskMap m' = Manager.WorkerTaskMap m
  /\ Manager.TaskWorkerMap m' = Manager.TaskWorkerMap m.
Proof.
  unfold Manager.SelectWorker.
  destruct (Go.is_nil _); simpl; [auto|].
  destruct (Scheduler.Score _ _ _ _ _ _) as [[s h] [scores|]]; simpl; auto.
Qed.

(** What one [SendWork] does to the queue, the task store and
    [TaskWorkerMap]: no event is added to the queue; the store and the map
    are left alone, or a task that had no worker is stored and mapped. *)
Lemma SendWork_effect (env : Manager.Env) (m : Manager.Manager) :
  let m' := Go.state_of (Manager.SendWork env m) in
  (forall te, In (Manager.QEvent te) (Manager.Pending m') ->
              In (Manager.QEvent te) (Manager.Pending m))
  /\ ((Manager.TaskDb m' = Manager.TaskDb m
       /\ Manager.TaskWorkerMap m' = Manager.TaskWorkerMap m)
      \/ exists te wName,
           In (Manager.QEvent te) (Manager.Pending m)
           /\ Manager.TaskWorkerMap m !! Task.ID (Task.EventTask te) = None
           /\ Manager.TaskDb m' =
                <[Task.ID (Task.EventTask te) :=
                    Task.set_State Task.Scheduled (Task.EventTask te)]> (Manager.TaskDb m)
           /\ Manager.TaskWorkerMap m' =
                <[Task.ID (Task.EventTask te) := wName]> (Manager.TaskWorkerMap m)).
Proof.
  unfold Manager.SendWork.
  destruct (Manager.Pending m) as [|e rest] eqn:HP; simpl.
  { rewrite HP. split; [tauto | left; auto]. }
  destruct e as [te|t|t]; simpl; try (split; [intros te' Hin; right; exact Hin | left; auto]).
  destruct (Manager.TaskWorkerMap m !! Task.ID (Task.EventTask te)) as [worker|] eqn:Hmap.
  { destruct (Store.Get _ _) as [persisted|]; simpl;
      [destruct (_ && _); simpl|];
      (split; [intros te' Hin; right; exact Hin | left; auto]). }
  pose proof (SelectWorker_preserves env (Task.EventTask te)
                (Manager.set_EventDb
                   (Store.Put (Task.EventID te) te (Manager.EventDb m))
                   (Manager.set_Pending rest m))) as Hsel.
  destruct (Manager.SelectWorker env (Task.EventTask te) _) as [m1 selected].
  simpl in Hsel. destruct Hsel as (HP1 & Hdb1 & _ & _ & Hmap1).
  destruct selected as [[w|]|err]; simpl;
    try (split; [intros te' Hin; right; rewrite HP1 in Hin; exact Hin
                | left; auto]).
  assert (forall te', In (Manager.QEvent te')
                        (rest ++ [Manager.QTask (Task.set_State Task.Scheduled
                                                   (Task.EventTask te))]) ->
                      In (Manager.QEvent te') rest) as Hretry.
  { intros te' Hin. apply in_app_iff in Hin as [Hin|[Hin|[]]];
      [exact Hin | discriminate]. }
  destruct (Manager.post_tasks env _ te) as [|status decodes]; simpl;
    [|destruct (negb (status =? 201)); simpl; [|destruct (negb decodes); simpl]];
    rewrite ?Hdb1, ?Hmap1, ?HP1;
    (split; [auto|]);
    right; exists te, (Node.Name (Node.deref (Manager.Nodes m1) w));
    unfold Store.Put; auto.
Qed.

Lemma SendWork_consistent (env : Manager.Env) (c : Z) (m : Manager.Manager) :
  Manager.Consistent c m ->
  Manager.Consistent c (Go.state_of (Manager.SendWork env m))
  /\ Manager.RestartCount_same m (Go.state_of (Manager.SendWork env m)).
Proof.
  intros Hc.
  destruct (SendWork_effect env m) as [Hq [[Hdb Hw]|(te & wName & Hin & Hnone & Hdb & Hw)]].
  - split; [apply (Consistent_weaken c m); assumption|].
    intros id t Ht. rewrite Hdb. eauto.
  - destruct Hc as [Hstored Hpending].
    assert (Manager.TaskDb m !! Task.ID (Task.EventTask te) = None) as Hfresh.
    { destruct (Manager.TaskDb m !! Task.ID (Task.EventTask te)) as [t0|] eqn:E; [|reflexivity].
      destruct (Hstored _ _ E) as (_ & [x Hx] & _).
      congruence. }
    split; [split|].
    + intros k t. rewrite Hdb, Hw. intros Hk.
      apply lookup_insert_Some in Hk as [[<- <-]|[Hne Hk]].
      * split; [reflexivity|]. split.
        -- rewrite lookup_insert_eq. eauto.
        -- apply (Hpending te Hin).
      * destruct (Hstored _ _ Hk) as (Hid & Hsome & Hrc).
        rewrite lookup_insert_ne by assumption. auto.
    + intros te' Hin'. apply Hpending, Hq, Hin'.
    + intros id t Ht. rewrite Hdb. exists t. split; [|reflexivity].
      rewrite lookup_insert_ne; [exact Ht | congruence].
Qed.

(** Reconciliation with the workers overwrites run-time fields only. *)
Lemma UpdateTasks_task_consistent (c : Z) (t : Task.Task) (m : Manager.Manager) :
  Manager.Consistent c m ->
  Manager.Consistent c (Manager.UpdateTasks_task t m)
  /\ Manager.RestartCount_same m (Manager.UpdateTasks_task t m).
Proof.
  intros Hc. unfold Manager.UpdateTasks_task, Store.Get.
  destruct (Manager.TaskDb m !! Task.ID t) as [p|] eqn:Hp;
    [|split; [assumption | apply RestartCount_same_refl]].
  destruct Hc as [Hstored Hpending].
  destruct (Hstored _ _ Hp) as (Hid & Hsome & Hrc).
  cbv zeta. set (p' := Task.set_HostPorts _ _).
  assert (Task.ID p' = Task.ID t /\ Task.RestartCount p' = Task.RestartCount p) as [Hid' Hrc'].
  { subst p'. destruct (bool_decide _); simpl; auto. }
  clearbody p'. unfold Store.Put. rewrite Hid'. split; [split|]; simpl.
  - intros k x Hk. apply lookup_insert_Some in Hk as [[<- <-]|[Hne Hk]].
    + rewrite Hrc'. auto.
    + apply (Hstored _ _ Hk).
  - exact Hpending.
  - intros id x Hx. simpl.
    destruct (decide (Task.ID t = id)) as [<-|Hne].
    + exists p'. rewrite lookup_insert_eq. split; [reflexivity | congruence].
    + exists x. rewrite lookup_insert_ne by assumption. auto.
Qed.

Lemma fold_left_consistent {A} (c : Z) (f : Manager.Manager -> A -> Manager.Manager) :
  (forall x m, Manager.Consistent c m ->
     Manager.Consistent c (f m x) /\ Manager.RestartCount_same m (f m x)) ->
  forall (l : list A) (m : Manager.Manager), Manager.Consistent c m ->
    Manager.Consistent c (fold_left f l m)
    /\ Manager.RestartCount_same m (fold_left f l m).
Proof.
  intros Hf l. induction l as [|x l IH]; intros m Hc; simpl.
  - split; [assumption | apply RestartCount_same_refl].
  - destruct (Hf x m Hc) as [Hc1 Hs1].
    destruct (IH _ Hc1) as [Hc2 Hs2].
    split; [assumption | eapply RestartCount_same_trans; eassumption].
Qed.

Lemma UpdateTasks_pass_consistent (env : Manager.Env) (c : Z) (m : Manager.Manager) :
  Manager.Consistent c m ->
  Manager.Consistent c (Manager.UpdateTasks_pass env m)
  /\ Manager.RestartCount_same m (Manager.UpdateTasks_pass env m).
Proof.
  unfold Manager.UpdateTasks_pass. apply fold_left_consistent.
  intros worker m0 Hc. unfold Manager.UpdateTasks_worker.
  destruct (Manager.get_tasks env worker) as [|status [tasks|]];
    try (split; [assumption | apply RestartCount_same_refl]);
    destruct (negb (status =? 200));
    try (split; [assumption | apply RestartCount_same_refl]).
  apply fold_left_consistent; [|assumption].
  intros t m1. apply UpdateTasks_task_consistent.
Qed.

Lemma UpdateNodeStats_pass_consistent (env : Manager.Env) (c : Z) (m : Manager.Manager) :
  Manager.Consistent c m ->
  Manager.Consistent c (Manager.UpdateNodeStats_pass env m)
  /\ Manager.RestartCount_same m (Manager.UpdateNodeStats_pass env m).
Proof.
  unfold Manager.UpdateNodeStats_pass. apply fold_left_consistent.
  intros node m0 Hc. split.
  - apply (Consistent_weaken c m0); auto.
  - intros id t Ht. simpl. eauto.
Qed.

Lemma AddTask_consistent (c : Z) (te : Task.TaskEvent) (m : Manager.Manager) :
  Go.int_min <= Task.RestartCount (Task.EventTask te) <= c ->
  Manager.Consistent c m ->
  Manager.Consistent c (Manager.AddTask te m)
  /\ Manager.RestartCount_same m (Manager.AddTask te m).
Proof.
  intros Hte [Hstored Hpending]. split; [split|].
  - exact Hstored.
  - intros te' Hin. simpl in Hin. apply in_app_iff in Hin as [Hin|[Hin|[]]].
    + apply Hpending, Hin.
    + congruence.
  - intros id t Ht. simpl. eauto.
Qed.

(** [restartTask] stores the task with its counter raised by one and, at
    most, puts a task pointer on the queue. *)
Lemma restartTask_effect (env : Manager.Env) (t : Task.Task) (m : Manager.Manager) :
  let m' := Manager.restartTask env t m in
  Manager.TaskDb m' =
    <[Task.ID t := Task.set_RestartCount (Go.wrap64 (Task.RestartCount t + 1))
                     (Task.set_State Task.Scheduled t)]> (Manager.TaskDb m)
  /\ Manager.TaskWorkerMap m' = Manager.TaskWorkerMap m
  /\ (forall te, In (Manager.QEvent te) (Manager.Pending m') ->
                 In (Manager.QEvent te) (Manager.Pending m)).
Proof.
  unfold Manager.restartTask. cbv zeta.
  destruct (negb (Manager.json_Marshal_ok _)); [simpl; auto|].
  destruct (Manager.post_tasks env _ _); simpl; repeat split; auto.
  intros te Hin. apply in_app_iff in Hin as [Hin|[Hin|[]]]; [exact Hin | discriminate].
Qed.

(** The health check of one task restarts it only when its counter is
    below 3. *)
Lemma doHealthChecks_body_effect (env : Manager.Env) (t : Task.Task) (m : Manager.Manager) :
  Go.state_of (Manager.doHealthChecks_body env t m) = m
  \/ (Task.RestartCount t < 3
      /\ Go.state_of (Manager.doHealthChecks_body env t m) = Manager.restartTask env t m).
Proof.
  unfold Manager.doHealthChecks_body.
  destruct (Task.RestartCount t <? 3) eqn:Hlt.
  - apply Z.ltb_lt in Hlt.
    destruct (bool_decide (Task.State_ t = Task.Running)); simpl.
    + destruct (Manager.checkTaskHealth env t m); simpl; auto.
    + destruct (bool_decide (Task.State_ t = Task.Failed)); simpl; auto.
  - rewrite !andb_false_r. simpl. auto.
Qed.

Lemma restartTask_consistent (env : Manager.Env) (c : Z) (t t0 : Task.Task)
    (m : Manager.Manager) :
  3 <= c ->
  Manager.Consistent c m ->
  Manager.TaskDb m !! Task.ID t = Some t0 ->
  Task.RestartCount t0 = Task.RestartCount t ->
  Task.RestartCount t < 3 ->
  Manager.Consistent c (Manager.restartTask env t m)
  /\ (forall k, k <> Task.ID t ->
        Manager.TaskDb (Manager.restartTask env t m) !! k = Manager.TaskDb m !! k)
  /\ exists t', Manager.TaskDb (Manager.restartTask env t m) !! Task.ID t = Some t'
                /\ Task.RestartCount t' = Task.RestartCount t + 1.
Proof.
  intros Hc3 [Hstored Hpending] Ht0 Hrc Hlt.
  destruct (restartTask_effect env t m) as (Hdb & Hw & Hq).
  destruct (Hstored _ _ Ht0) as (_ & Hsome & Hrange).
  assert (Go.wrap64 (Task.RestartCount t + 1) = Task.RestartCount t + 1) as Hwrap
    by (apply wrap64_succ; lia).
  split; [split|split].
  - intros k x. rewrite Hdb, Hw. intros Hk.
    apply lookup_insert_Some in Hk as [[<- <-]|[Hne Hk]].
    + simpl. rewrite Hwrap. split; [reflexivity|]. split; [assumption | lia].
    + apply (Hstored _ _ Hk).
  - intros te Hin. apply Hpending, Hq, Hin.
  - intros k Hk. rewrite Hdb. apply lookup_insert_ne. congruence.
  - rewrite Hdb, lookup_insert_eq. eexists. split; [reflexivity|].
    simpl. exact Hwrap.
Qed.

Lemma doHealthChecks_loop (env : Manager.Env) (c : Z) :
  3 <= c ->
  forall (l : list Task.Task) (m : Manager.Manager),
    NoDup (Task.ID <$> l) ->
    Manager.Consistent c m ->
    (forall t, t ∈ l ->
       exists t0, Manager.TaskDb m !! Task.ID t = Some t0
                  /\ Task.RestartCount t0 = Task.RestartCount t) ->
    let m' := Go.state_of (Go.for_range (Manager.doHealthChecks_body env) l m) in
    Manager.Consistent c m'
    /\ (forall k, k ∉ (Task.ID <$> l) ->
          Manager.TaskDb m' !! k = Manager.TaskDb m !! k)
    /\ Manager.RestartCount_step m m'.
Proof.
  intros Hc3 l. induction l as [|t l IH]; intros m Hnd Hc Hfresh; simpl.
  { split; [assumption|]. split; [reflexivity|].
    apply RestartCount_same_step, RestartCount_same_refl. }
  rewrite fmap_cons in Hnd. apply NoDup_cons in Hnd as [Hnotin Hnd].
  assert (forall m1,
    Manager.Consistent c m1 ->
    (forall k, k <> Task.ID t -> Manager.TaskDb m1 !! k = Manager.TaskDb m !! k) ->
    (forall t1, Manager.TaskDb m !! Task.ID t = Some t1 ->
       exists t2, Manager.TaskDb m1 !! Task.ID t = Some t2
         /\ (Task.RestartCount t2 = Task.RestartCount t1
             \/ (Task.RestartCount t1 < 3
                 /\ Task.RestartCount t2 = Task.RestartCount t1 + 1))) ->
    let m' := Go.state_of (Go.for_range (Manager.doHealthChecks_body env) l m1) in
    Manager.Consistent c m'
    /\ (forall k, k ∉ (Task.ID <$> t :: l) ->
          Manager.TaskDb m' !! k = Manager.TaskDb m !! k)
    /\ Manager.RestartCount_step m m') as Hcontinue.
  { intros m1 Hc1 Hother Hthis.
    destruct (IH m1 Hnd Hc1) as (Hc' & Hrest & Hstep').
    { intros t2 Ht2.
      assert (Task.ID t2 <> Task.ID t) as Hne.
      { intros Heq. apply Hnotin. rewrite <- Heq.
        apply list_elem_of_fmap. eauto. }
      rewrite (Hother _ Hne). apply Hfresh. right. exact Ht2. }
    split; [exact Hc'|]. split.
    - intros k Hk. rewrite fmap_cons in Hk. apply not_elem_of_cons in Hk as [Hk1 Hk2].
      rewrite (Hrest _ Hk2). apply Hother, Hk1.
    - intros id t1 Ht1. unfold Store.Get in *.
      destruct (decide (id = Task.ID t)) as [->|Hne].
      + destruct (Hthis _ Ht1) as (t2 & Ht2 & Hrc).
        exists t2. rewrite (Hrest _ Hnotin). auto.
      + rewrite <- (Hother _ Hne) in Ht1. apply (Hstep' _ _ Ht1). }
  destruct (Hfresh t) as (t0 & Ht0 & Hrc0); [left|].
  destruct (doHealthChecks_body_effect env t m) as [Hsame|[Hlt Hrestart]].
  - destruct (Manager.doHealthChecks_body env t m) as [m1|m1]; simpl in Hsame; subst m1.
    + apply Hcontinue; [assumption | reflexivity | eauto].
    + simpl. split; [assumption|]. split; [reflexivity|].
      apply RestartCount_same_step, RestartCount_same_refl.
  - destruct (restartTask_consistent env c t t0 m Hc3 Hc Ht0 Hrc0 Hlt)
      as (Hc1 & Hother & t' & Ht' & Hrc').
    destruct (Manager.doHealthChecks_body env t m) as [m1|m1]; simpl in Hrestart; subst m1.
    + apply Hcontinue; [assumption | assumption|].
      intros t1 Ht1. exists t'. split; [assumption|].
      right. assert (t1 = t0) by congruence. subst t1. lia.
    + simpl. split; [assumption|]. split; [intros k Hk|].
      * apply not_elem_of_cons in Hk as [Hk1 Hk2].
        apply Hother, Hk1.
      * intros id t1 Ht1. unfold Store.Get in *.
        destruct (decide (id = Task.ID t)) as [->|Hne].
        -- exists t'. split; [assumption|].
           right. assert (t1 = t0) by congruence. subst t1. lia.
        -- exists t1. rewrite (Hother _ Hne). auto.
Qed.

Lemma ids_are_keys (l : list (string * Task.Task)) :
  (forall k t, (k, t) ∈ l -> Task.ID t = k) -> Task.ID <$> l.*2 = l.*1.
Proof.
  induction l as [|[k t] l IH]; intros Hl; [reflexivity|].
  rewrite !fmap_cons. simpl. f_equal.
  - apply Hl. left.
  - apply IH. intros k' t' Hin. apply Hl. right. exact Hin.
Qed.

Lemma doHealthChecks_consistent (env : Manager.Env) (c : Z) (m : Manager.Manager) :
  3 <= c ->
  Manager.Consistent c m ->
  Manager.Consistent c (Go.state_of (Manager.doHealthChecks env m))
  /\ Manager.RestartCount_step m (Go.state_of (Manager.doHealthChecks env m)).
Proof.
  intros Hc3 Hc. unfold Manager.doHealthChecks, Manager.GetTasks, Store.List.
  destruct (doHealthChecks_loop env c Hc3 (map_to_list (Manager.TaskDb m)).*2 m)
    as (Hc' & _ & Hstep); auto.
  - rewrite ids_are_keys.
    + apply NoDup_fst_map_to_list.
    + intros k t Hin. apply elem_of_map_to_list in Hin.
      destruct Hc as [Hstored _]. apply (Hstored _ _ Hin).
  - intros t Hin. apply list_elem_of_fmap in Hin as ([k t'] & -> & Hin). simpl.
    apply elem_of_map_to_list in Hin.
    destruct Hc as [Hstored _]. destruct (Hstored _ _ Hin) as (Hid & _).
    exists t'. rewrite Hid. auto.
Qed.

Lemma step_consistent (env : Manager.Env) (op : Manager.Op) (c : Z) (m : Manager.Manager) :
  3 <= c ->
  Manager.Consistent c m ->
  Manager.op_ok c (env, op) = true ->
  Manager.Consistent c (Go.state_of (Manager.step env op m))
  /\ Manager.RestartCount_step m (Go.state_of (Manager.step env op m)).
Proof.
  intros Hc3 Hc Hop. destruct op as [te| | | |]; simpl.
  - simpl in Hop. apply counter_ok_spec in Hop.
    destruct (AddTask_consistent c te m Hop Hc) as [H1 H2].
    split; [exact H1 | apply RestartCount_same_step, H2].
  - destruct (SendWork_consistent env c m Hc) as [H1 H2].
    split; [exact H1 | apply RestartCount_same_step, H2].
  - destruct (UpdateTasks_pass_consistent env c m Hc) as [H1 H2].
    split; [exact H1 | apply RestartCount_same_step, H2].
  - apply doHealthChecks_consistent; assumption.
  - destruct (UpdateNodeStats_pass_consistent env c m Hc) as [H1 H2].
    split; [exact H1 | apply RestartCount_same_step, H2].
Qed.

Lemma run_consistent (c : Z) :
  3 <= c ->
  forall (ops : list (Manager.Env * Manager.Op)) (m : Manager.Manager),
    Manager.Consistent c m ->
    forallb (Manager.op_ok c) ops = true ->
    Manager.Consistent c (Go.state_of (Manager.run ops m))
    /\ Manager.RestartCount_grows m (Go.state_of (Manager.run ops m)).
Proof.
  intros Hc3 ops. induction ops as [|[env op] ops IH]; intros m Hc Hops; simpl.
  - split; [assumption | apply RestartCount_grows_refl].
  - simpl in Hops. apply andb_true_iff in Hops as [Hop Hops].
    destruct (step_consistent env op c m Hc3 Hc Hop) as [Hc1 Hstep].
    apply RestartCount_step_grows in Hstep.
    destruct (Manager.step env op m) as [m1|m1]; simpl in *.
    + destruct (IH m1 Hc1 Hops) as [Hc2 Hgrow].
      split; [assumption | eapply RestartCount_grows_trans; eassumption].
    + split; assumption.
Qed.

(** A manager fresh from [New] is consistent for every cap. *)
Lemma New_consistent (c : Z) (workers : list string) (schedulerType : string) :
  Manager.consistent c (Manager.New workers schedulerType) = true.
Proof. unfold Manager.consistent. simpl. rewrite map_to_list_empty. reflexivity. Qed.

(** C7, as stated, fails on a task that is submitted with a counter above
    3: the manager stores the counter as it arrives. *)
Lemma submitted_counter_is_stored_uncapped :
  ~ Manager.never_above_3 Examples.history7 Examples.one_worker_rr.
Proof.
  intros Hcap.
  assert (exists t,
    Store.Get "T7" (Manager.TaskDb
      (Go.state_of (Manager.run Examples.history7 Examples.one_worker_rr))) = Some t
    /\ Task.RestartCount t = 7) as (t & Ht & Hrc)
    by (eexists; split; vm_compute; reflexivity).
  specialize (Hcap _ _ Ht). lia.
Qed.

(** C7, amended.  Take a cap [c] of at least 3, a manager whose stored
    and waiting tasks carry counters within [c], and a history of
    operations whose submissions carry counters within [c].  After the
    history every stored counter is within [c] (so within 3 when nothing
    above 3 is submitted); every task stored before is still stored and
    its counter has not gone down; and across a single operation a counter
    either stays or was below 3 and went up by exactly one. *)
Theorem RestartCount_monotone_and_capped (c : Z) (m : Manager.Manager)
    (ops : list (Manager.Env * Manager.Op)) :
  3 <= c ->
  Manager.consistent c m = true ->
  forallb (Manager.op_ok c) ops = true ->
  let m' := Go.state_of (Manager.run ops m) in
  Manager.consistent c m' = true
  /\ (forall id t, Store.Get id (Manager.TaskDb m') = Some t -> Task.RestartCount t <= c)
  /\ Manager.RestartCount_grows m m'
  /\ (forall eo, ops = [eo] -> Manager.RestartCount_step m m').
Proof.
  intros Hc3 Hm Hops m'. apply consistent_spec in Hm.
  destruct (run_consistent c Hc3 ops m Hm Hops) as [Hc' Hgrow].
  split; [apply consistent_spec; exact Hc'|]. split; [|split].
  - intros id t Ht. destruct Hc' as [Hstored _].
    destruct (Hstored _ _ Ht) as (_ & _ & Hrc). lia.
  - exact Hgrow.
  - intros [env op] ->. subst m'. simpl in *.
    apply andb_true_iff in Hops as [Hop _].
    destruct (step_consistent env op c m Hc3 Hm Hop) as [_ Hstep].
    destruct (Manager.step env op m); exact Hstep.
Qed.

Lemma RestartCount_monotone_and_capped_witness :
  let m' := Go.state_of (Manager.run Examples.failing_history Examples.one_worker_rr) in
  Manager.consistent 3 m' = true
  /\ (forall id t, Store.Get id (Manager.TaskDb m') = Some t -> Task.RestartCount t <= 3)
  /\ Manager.RestartCount_grows Examples.one_worker_rr m'
  /\ (forall eo, Examples.failing_history = [eo] ->
        Manager.RestartCount_step Examples.one_worker_rr m').
Proof.
  apply (RestartCount_monotone_and_capped 3 Examples.one_worker_rr Examples.failing_history);
    [lia | vm_compute; reflexivity | vm_compute; reflexivity].
Defined.

(** The two halves of the transport-error path of [SendWork], for every
    manager: the placement is recorded and the task itself is queued; a
    queued task makes the next [SendWork] panic. *)
Lemma SendWork_transport_error (env : Manager.Env) (m m1 : Manager.Manager)
    (te : Task.TaskEvent) (rest : list Manager.QueueItem) (w : Node.Ptr) :
  Manager.Pending m = Manager.QEvent te :: rest ->
  Manager.TaskWorkerMap m !! Task.ID (Task.EventTask te) = None ->
  Manager.SelectWorker env (Task.EventTask te)
    (Manager.set_EventDb (Store.Put (Task.EventID te) te (Manager.EventDb m))
       (Manager.set_Pending rest m)) = (m1, Manager.Selected (Some w)) ->
  Manager.post_tasks env (Node.Name (Node.deref (Manager.Nodes m1) w)) te
    = Manager.PostTransportError ->
  exists m',
    Manager.SendWork env m = Go.Done m'
    /\ Manager.TaskWorkerMap m' !! Task.ID (Task.EventTask te)
         = Some (Node.Name (Node.deref (Manager.Nodes m1) w))
    /\ Manager.Pending m' =
         rest ++ [Manager.QTask (Task.set_State Task.Scheduled (Task.EventTask te))].
Proof.
  intros HP Hmap Hsel Hpost. unfold Manager.SendWork. rewrite HP. simpl.
  rewrite Hmap.
  pose proof (SelectWorker_preserves env (Task.EventTask te)
                (Manager.set_EventDb
                   (Store.Put (Task.EventID te) te (Manager.EventDb m))
                   (Manager.set_Pending rest m))) as Hkeep.
  rewrite Hsel in *. simpl in Hkeep. destruct Hkeep as (HP1 & _ & _ & _ & Hmap1).
  simpl. rewrite Hpost. eexists. split; [reflexivity|]. simpl.
  rewrite HP1. split; [apply lookup_insert_eq | reflexivity].
Qed.

Lemma SendWork_queued_task_panics (env : Manager.Env) (m : Manager.Manager)
    (t : Task.Task) (rest : list Manager.QueueItem) :
  Manager.Pending m = Manager.QTask t :: rest ->
  Manager.SendWork env m = Go.Panic (Manager.set_Pending rest m).
Proof. intros HP. unfold Manager.SendWork. rewrite HP. reflexivity. Qed.

(** * Further properties *)

(** ** The state machine *)

(** X1. An accepted transition never goes back in the order in which the
    states are declared, and keeps the state only on the two self-loops of
    [Scheduled] and [Running]: the transition graph has no other cycle. *)
Theorem ValidStateTransition_never_goes_back (src dst : Task.State) :
  Task.ValidStateTransition src dst = true ->
  Task.State_to_Z src <= Task.State_to_Z dst
  /\ (Task.State_to_Z src = Task.State_to_Z dst ->
      src = dst /\ (src = Task.Scheduled \/ src = Task.Running)).
Proof.
  destruct src, dst; intros H; vm_compute in H; try discriminate;
    (split; [vm_compute; discriminate | intros E; vm_compute in E; try discriminate; auto]).
Qed.

Lemma ValidStateTransition_never_goes_back_witness :
  Task.State_to_Z Task.Running <= Task.State_to_Z Task.Failed
  /\ (Task.State_to_Z Task.Running = Task.State_to_Z Task.Failed ->
      Task.Running = Task.Failed
      /\ (Task.Running = Task.Scheduled \/ Task.Running = Task.Running)).
Proof.
  apply (ValidStateTransition_never_goes_back Task.Running Task.Failed). reflexivity.
Defined.

(** ** The worker's execution loop *)

Lemma StartTask_Queue (driver : Task.Driver) (now : Task.Time) (t : Task.Task)
    (w : Worker.Worker) :
  Worker.Queue (Worker.StartTask driver now t w).1 = Worker.Queue w.
Proof. unfold Worker.StartTask. destruct (Task.Error _); reflexivity. Qed.

Lemma StopTask_Queue (driver : Task.Driver) (now : Task.Time) (t : Task.Task)
    (w : Worker.Worker) :
  Worker.Queue (Worker.StopTask driver now t w).1 = Worker.Queue w.
Proof. unfold Worker.StopTask. destruct (Task.Error _); reflexivity. Qed.

(** X2. [RunTask] stores the task it takes from the queue before it looks
    at the transition, so the state it reads back is the queued one and
    the check compares the queued state with itself.  What happens next
    depends on that state alone: [Scheduled] starts the task, [Completed]
    stops it, [Running] ends in the internal error, and [Pending],
    [Stopped] or [Failed] are refused as an invalid transition, with the
    refused task already written over whatever the store held. *)
Theorem RunTask_dispatches_on_queued_state (driver : Task.Driver) (now : Task.Time)
    (w : Worker.Worker) (t : Task.Task) (rest : list Task.Task) :
  let w1 :=
    Worker.persist t (Worker.log (Worker.FoundTaskInQueue t) (Worker.set_Queue rest w)) in
  Store.Get (Task.ID t) (Worker.Db w1) = Some t
  /\ Worker.RunTask driver now (Worker.set_Queue (t :: rest) w) =
     match Task.State_ t with
     | Task.Scheduled => Worker.StartTask driver now t w1
     | Task.Completed => Worker.StopTask driver now t w1
     | Task.Running =>
         (Worker.log (Worker.ThisIsAMistake t t) w1,
          Worker.error_result "we should not get here")
     | _ => (w1, Worker.error_result "invalid transition")
     end.
Proof.
  intros w1. split; [apply persist_lookup|].
  unfold Worker.RunTask. cbn [Worker.Queue Worker.set_Queue].
  change (Worker.set_Queue rest (Worker.set_Queue (t :: rest) w))
    with (Worker.set_Queue rest w).
  unfold Store.Get. fold w1. unfold w1 at 1. rewrite (persist_lookup t).
  destruct (Task.State_ t) eqn:Hs; reflexivity.
Qed.

(** X3. [RunTask] takes exactly the head of the queue and never puts a
    task back, whatever the driver answers and whether or not the task is
    accepted; on an empty queue it leaves queue and store as they are. *)
Theorem RunTask_consumes_head (driver : Task.Driver) (now : Task.Time)
    (w : Worker.Worker) :
  Worker.Queue (Worker.RunTask driver now w).1 = tail (Worker.Queue w)
  /\ (Worker.Queue w = [] -> Worker.Db (Worker.RunTask driver now w).1 = Worker.Db w).
Proof.
  unfold Worker.RunTask. destruct (Worker.Queue w) as [|t rest] eqn:Hq.
  { split; simpl; [exact Hq | reflexivity]. }
  split; [|discriminate].
  unfold Store.Get. rewrite (persist_lookup t). simpl.
  destruct (bool_decide (Task.State_ t = Task.Completed)).
  { rewrite StopTask_Queue. reflexivity. }
  destruct (Task.ValidStateTransition _ _); [|reflexivity].
  destruct (Task.State_ t);
    rewrite ?StartTask_Queue, ?StopTask_Queue; reflexivity.
Qed.

(** ** Keyed task stores *)

Lemma keyed_spec (db : gmap string Task.Task) :
  Facts.keyed db = true <-> (forall k t, db !! k = Some t -> Task.ID t = k).
Proof.
  unfold Facts.keyed. rewrite forallb_forall. split.
  - intros H k t Hk. apply elem_of_map_to_list, list_elem_of_In in Hk.
    specialize (H _ Hk). simpl in H. apply String.eqb_eq. exact H.
  - intros H [k t] Hk. apply list_elem_of_In, elem_of_map_to_list in Hk.
    simpl. apply String.eqb_eq. eauto.
Qed.

Lemma keyed_insert (db : gmap string Task.Task) (t : Task.Task) :
  (forall k x, db !! k = Some x -> Task.ID x = k) ->
  forall k x, <[Task.ID t := t]> db !! k = Some x -> Task.ID x = k.
Proof.
  intros H k x Hk. apply lookup_insert_Some in Hk as [[<- <-]|[_ Hk]]; eauto.
Qed.

Lemma keyed_List_NoDup (db : gmap string Task.Task) :
  (forall k t, db !! k = Some t -> Task.ID t = k) ->
  NoDup (Task.ID <$> Store.List db).
Proof.
  intros H. unfold Store.List. rewrite ids_are_keys.
  - apply NoDup_fst_map_to_list.
  - intros k t Hin. apply elem_of_map_to_list in Hin. eauto.
Qed.

Lemma keyed_List_lookup (db : gmap string Task.Task) (t : Task.Task) :
  (forall k x, db !! k = Some x -> Task.ID x = k) ->
  t ∈ Store.List db -> db !! Task.ID t = Some t.
Proof.
  intros H Hin. unfold Store.List in Hin.
  apply list_elem_of_fmap in Hin as ([k x] & -> & Hin). simpl.
  apply elem_of_map_to_list in Hin. rewrite (H _ _ Hin). exact Hin.
Qed.

Lemma List_elem_of (db : gmap string Task.Task) (k : string) (t : Task.Task) :
  db !! k = Some t -> t ∈ Store.List db.
Proof.
  intros Hk. unfold Store.List. apply list_elem_of_fmap.
  exists (k, t). split; [reflexivity|]. apply elem_of_map_to_list. exact Hk.
Qed.

(** ** The worker's reconciliation pass *)

(** The three ways through the body of the loop of [updateTasks]. *)
Lemma updateTasks_body_cases (driver : Task.Driver) (t : Task.Task) (w : Worker.Worker) :
  (Task.State_ t <> Task.Running ->
     Worker.updateTasks_body driver t w = Go.Done w)
  /\ (Task.State_ t = Task.Running ->
      forall c, Task.InspectContainer (Worker.InspectTask driver t) = Some c ->
      exists w', Worker.updateTasks_body driver t w = Go.Done w'
        /\ Worker.Db w' = <[Task.ID t := Facts.inspected driver t]> (Worker.Db w)
        /\ Worker.Queue w' = Worker.Queue w)
  /\ (Task.State_ t = Task.Running ->
      Task.InspectContainer (Worker.InspectTask driver t) = None ->
      exists w', Worker.updateTasks_body driver t w = Go.Panic w'
        /\ Worker.Db w' = <[Task.ID t := Task.set_State Task.Failed t]> (Worker.Db w)
        /\ Worker.Queue w' = Worker.Queue w).
Proof.
  unfold Worker.updateTasks_body, Facts.inspected. repeat split.
  - intros Hs. rewrite bool_decide_eq_false_2 by exact Hs. reflexivity.
  - intros Hs c Hc. rewrite bool_decide_eq_true_2 by exact Hs. rewrite Hc.
    destruct (String.eqb (Task.Status c) "exited"); eexists;
      (split; [reflexivity|]); (split; [|destruct (Task.InspectError _); reflexivity]).
    + destruct (Task.InspectError _); simpl; unfold Store.Put; simpl;
        apply insert_insert_eq.
    + destruct (Task.InspectError _); reflexivity.
  - intros Hs Hc. rewrite bool_decide_eq_true_2 by exact Hs. rewrite Hc.
    eexists. split; [reflexivity|].
    destruct (Task.InspectError _); split; reflexivity.
Qed.

Lemma updateTasks_loop_done (driver : Task.Driver) (l : list Task.Task) :
  forall w : Worker.Worker,
    NoDup (Task.ID <$> l) ->
    (forall t, t ∈ l -> Worker.Db w !! Task.ID t = Some t) ->
    (forall t, t ∈ l -> Task.State_ t = Task.Running ->
       is_Some (Task.InspectContainer (Worker.InspectTask driver t))) ->
    exists w',
      Go.for_range (Worker.updateTasks_body driver) l w = Go.Done w'
      /\ (forall k, k ∉ (Task.ID <$> l) -> Worker.Db w' !! k = Worker.Db w !! k)
      /\ (forall t, t ∈ l -> Worker.Db w' !! Task.ID t = Some (Facts.inspected driver t))
      /\ Worker.Queue w' = Worker.Queue w.
Proof.
  induction l as [|t l IH]; intros w Hnd Hfresh Hknown; simpl.
  { exists w. repeat split; auto. intros t Ht. inversion Ht. }
  rewrite fmap_cons in Hnd. apply NoDup_cons in Hnd as [Hnotin Hnd].
  assert (exists w1, Worker.updateTasks_body driver t w = Go.Done w1
            /\ Worker.Db w1 = <[Task.ID t := Facts.inspected driver t]> (Worker.Db w)
            /\ Worker.Queue w1 = Worker.Queue w) as (w1 & Hbody & Hdb1 & Hq1).
  { destruct (updateTasks_body_cases driver t w) as (Hidle & Hrun & _).
    destruct (decide (Task.State_ t = Task.Running)) as [Hs|Hs].
    - destruct (Hknown t) as [c Hc]; [left | exact Hs|]. apply (Hrun Hs c Hc).
    - exists w. split; [apply Hidle, Hs|]. split; [|reflexivity].
      unfold Facts.inspected. rewrite bool_decide_eq_false_2 by exact Hs.
      symmetry. apply insert_id. apply Hfresh. left. }
  rewrite Hbody.
  destruct (IH w1 Hnd) as (w' & Hloop & Hother & Hthese & Hq').
  { intros t2 Ht2. rewrite Hdb1, lookup_insert_ne; [apply Hfresh; right; exact Ht2|].
    intros Heq. apply Hnotin. rewrite Heq. apply list_elem_of_fmap. eauto. }
  { intros t2 Ht2. apply Hknown. right. exact Ht2. }
  exists w'. split; [exact Hloop|]. split; [|split].
  - intros k Hk. apply not_elem_of_cons in Hk as [Hk1 Hk2].
    rewrite (Hother _ Hk2), Hdb1. apply lookup_insert_ne. congruence.
  - intros t2 Ht2. apply elem_of_cons in Ht2 as [->|Ht2]; [|auto].
    rewrite (Hother _ Hnotin), Hdb1. apply lookup_insert_eq.
  - congruence.
Qed.

(** X4. When every record of the worker's store sits under its own
    identifier and the runtime knows the container of every running task,
    a pass of [updateTasks] completes without a panic and maps the store
    record by record: tasks that are not running are untouched, a running
    task whose container has exited becomes [Failed], and every running
    task gets the ports its container publishes.  The queue is not
    touched. *)
Theorem updateTasks_completes_when_containers_known (driver : Task.Driver)
    (w : Worker.Worker) :
  Facts.keyed (Worker.Db w) = true ->
  Facts.containers_known driver (Worker.Db w) = true ->
  exists w',
    Worker.updateTasks driver w = Go.Done w'
    /\ Worker.Db w' = Facts.inspected driver <$> Worker.Db w
    /\ Worker.Queue w' = Worker.Queue w.
Proof.
  intros Hkeyed' Hknown. pose proof (proj1 (keyed_spec _) Hkeyed') as Hkeyed.
  unfold Facts.containers_known in Hknown. rewrite forallb_forall in Hknown.
  destruct (updateTasks_loop_done driver (Store.List (Worker.Db w)) w)
    as (w' & Hloop & Hother & Hthese & Hq).
  - apply keyed_List_NoDup, Hkeyed.
  - intros t Ht. apply keyed_List_lookup; assumption.
  - intros t Ht Hs. apply list_elem_of_In in Ht. specialize (Hknown t Ht).
    rewrite (bool_decide_eq_true_2 _ Hs) in Hknown. simpl in Hknown.
    apply bool_decide_eq_true in Hknown. exact Hknown.
  - exists w'. split; [exact Hloop|]. split; [|exact Hq].
    apply map_eq. intros k. rewrite lookup_fmap.
    destruct (Worker.Db w !! k) as [t|] eqn:Hk; simpl.
    + pose proof (Hkeyed _ _ Hk) as Hid. rewrite <- Hid.
      apply Hthese. apply (List_elem_of _ k). exact Hk.
    + rewrite Hother; [exact Hk|].
      intros Hin. apply list_elem_of_fmap in Hin as (t & -> & Ht).
      rewrite (keyed_List_lookup _ _ Hkeyed Ht) in Hk. discriminate.
Qed.

Lemma updateTasks_completes_when_containers_known_witness :
  exists w',
    Worker.updateTasks Samples.exited_driver Examples.two_running = Go.Done w'
    /\ Worker.Db w' = Facts.inspected Samples.exited_driver <$> Worker.Db Examples.two_running
    /\ Worker.Queue w' = Worker.Queue Examples.two_running.
Proof.
  apply (updateTasks_completes_when_containers_known Samples.exited_driver
           Examples.two_running); vm_compute; reflexivity.
Defined.

Lemma updateTasks_body_effect (driver : Task.Driver) (t : Task.Task) (w : Worker.Worker) :
  let w1 := Go.state_of (Worker.updateTasks_body driver t w) in
  Worker.Queue w1 = Worker.Queue w
  /\ (Worker.Db w1 = Worker.Db w
      \/ (Task.State_ t = Task.Running
          /\ exists x, Task.ID x = Task.ID t
               /\ Worker.Db w1 = <[Task.ID t := x]> (Worker.Db w))).
Proof.
  destruct (updateTasks_body_cases driver t w) as (Hidle & Hrun & Hnil).
  destruct (decide (Task.State_ t = Task.Running)) as [Hs|Hs].
  - destruct (Task.InspectContainer (Worker.InspectTask driver t)) as [c|] eqn:Hc.
    + destruct (Hrun Hs c eq_refl) as (w' & -> & Hdb & Hq). simpl.
      split; [exact Hq|]. right. split; [exact Hs|].
      exists (Facts.inspected driver t). split; [|exact Hdb].
      unfold Facts.inspected. rewrite Hc.
      destruct (bool_decide _); [|reflexivity].
      destruct (String.eqb _ _); reflexivity.
    + destruct (Hnil Hs eq_refl) as (w' & -> & Hdb & Hq). simpl.
      split; [exact Hq|]. right. split; [exact Hs|].
      exists (Task.set_State Task.Failed t). split; [reflexivity | exact Hdb].
  - rewrite (Hidle Hs). simpl. auto.
Qed.

Lemma updateTasks_loop_any (driver : Task.Driver) (l : list Task.Task) :
  forall w : Worker.Worker,
    (forall k x, Worker.Db w !! k = Some x -> Task.ID x = k) ->
    (forall t, t ∈ l -> is_Some (Worker.Db w !! Task.ID t)) ->
    let w' := Go.state_of (Go.for_range (Worker.updateTasks_body driver) l w) in
    (forall k x, Worker.Db w' !! k = Some x -> Task.ID x = k)
    /\ (forall k, is_Some (Worker.Db w' !! k) <-> is_Some (Worker.Db w !! k))
    /\ (forall k, (forall t, t ∈ l -> Task.ID t = k -> Task.State_ t <> Task.Running) ->
          Worker.Db w' !! k = Worker.Db w !! k)
    /\ Worker.Queue w' = Worker.Queue w.
Proof.
  induction l as [|t l IH]; intros w Hkeyed Hin; simpl.
  { repeat split; auto. }
  destruct (updateTasks_body_effect driver t w) as [Hq1 Hdb1].
  assert ((forall k x, Worker.Db (Go.state_of (Worker.updateTasks_body driver t w)) !! k
                       = Some x -> Task.ID x = k)
          /\ (forall k, is_Some (Worker.Db (Go.state_of (Worker.updateTasks_body driver t w)) !! k)
                        <-> is_Some (Worker.Db w !! k))
          /\ (forall k, (Task.ID t = k -> Task.State_ t <> Task.Running) ->
                Worker.Db (Go.state_of (Worker.updateTasks_body driver t w)) !! k
                = Worker.Db w !! k)) as (Hk1 & Hdom1 & Hsame1).
  { destruct Hdb1 as [->|(Hs & x & Hid & ->)].
    - repeat split; auto.
    - split; [|split].
      + intros k y Hk. apply lookup_insert_Some in Hk as [[<- <-]|[_ Hk]]; eauto.
      + intros k. rewrite lookup_insert_is_Some.
        destruct (decide (Task.ID t = k)) as [<-|Hne]; [|tauto].
        split; [intros _; apply Hin; left | auto].
      + intros k Hk. apply lookup_insert_ne. intros Heq. apply (Hk Heq Hs). }
  destruct (Worker.updateTasks_body driver t w) as [w1|w1]; simpl in *.
  - destruct (IH w1 Hk1) as (Hk' & Hdom' & Hsame' & Hq').
    { intros t2 Ht2. apply Hdom1, Hin. right. exact Ht2. }
    split; [exact Hk'|]. split; [|split].
    + intros k. rewrite Hdom'. apply Hdom1.
    + intros k Hk. rewrite Hsame'.
      * apply Hsame1. intros Heq. apply (Hk t); [left | exact Heq].
      * intros t2 Ht2. apply Hk. right. exact Ht2.
    + congruence.
  - split; [exact Hk1|]. split; [exact Hdom1|]. split; [|exact Hq1].
    intros k Hk. apply Hsame1. intros Heq. apply (Hk t); [left | exact Heq].
Qed.

(** X5. Whether a pass of [updateTasks] completes or panics on a missing
    container, on a store whose records sit under their own identifiers
    it leaves the store so keyed, adds and removes no record, leaves every
    task that is not [Running] exactly as it was, and does not touch the
    queue. *)
Theorem updateTasks_touches_running_tasks_only (driver : Task.Driver)
    (w : Worker.Worker) :
  Facts.keyed (Worker.Db w) = true ->
  let w' := Go.state_of (Worker.updateTasks driver w) in
  Facts.keyed (Worker.Db w') = true
  /\ (forall k, is_Some (Worker.Db w' !! k) <-> is_Some (Worker.Db w !! k))
  /\ (forall k t, Worker.Db w !! k = Some t -> Task.State_ t <> Task.Running ->
        Worker.Db w' !! k = Some t)
  /\ Worker.Queue w' = Worker.Queue w.
Proof.
  intros Hkeyed' w'. pose proof (proj1 (keyed_spec _) Hkeyed') as Hkeyed.
  destruct (updateTasks_loop_any driver (Store.List (Worker.Db w)) w Hkeyed)
    as (Hk & Hdom & Hsame & Hq).
  { intros t Ht. rewrite (keyed_List_lookup _ _ Hkeyed Ht). eauto. }
  split; [apply keyed_spec; exact Hk|]. split; [exact Hdom|]. split; [|exact Hq].
  intros k t Hkt Hs. subst w'. unfold Worker.updateTasks. rewrite Hsame; [exact Hkt|].
  intros t2 Ht2 Hid. apply (keyed_List_lookup _ _ Hkeyed) in Ht2.
  rewrite Hid, Hkt in Ht2. congruence.
Qed.

Lemma updateTasks_touches_running_tasks_only_witness :
  let w' := Go.state_of (Worker.updateTasks Examples.lost_driver Examples.two_running) in
  Facts.keyed (Worker.Db w') = true
  /\ (forall k, is_Some (Worker.Db w' !! k)
                <-> is_Some (Worker.Db Examples.two_running !! k))
  /\ (forall k t, Worker.Db Examples.two_running !! k = Some t ->
        Task.State_ t <> Task.Running -> Worker.Db w' !! k = Some t)
  /\ Worker.Queue w' = Worker.Queue Examples.two_running.
Proof.
  apply (updateTasks_touches_running_tasks_only Examples.lost_driver Examples.two_running).
  vm_compute. reflexivity.
Defined.

(** X6. Starting, stopping and running a task keep the worker's store
    keyed: whatever [RunTask], [StartTask] or [StopTask] write, they write
    under the identifier of the task written. *)
Theorem worker_execution_keeps_store_keyed (driver : Task.Driver) (now : Task.Time)
    (t : Task.Task) (w : Worker.Worker) :
  Facts.keyed (Worker.Db w) = true ->
  Facts.keyed (Worker.Db (Worker.StartTask driver now t w).1) = true
  /\ Facts.keyed (Worker.Db (Worker.StopTask driver now t w).1) = true
  /\ Facts.keyed (Worker.Db (Worker.RunTask driver now w).1) = true.
Proof.
  intros Hkeyed'. pose proof (proj1 (keyed_spec _) Hkeyed') as Hkeyed.
  assert (forall (x : Task.Task) (w0 : Worker.Worker),
            (forall k y, Worker.Db w0 !! k = Some y -> Task.ID y = k) ->
            Facts.keyed (Worker.Db (Worker.StartTask driver now x w0).1) = true) as Hstart.
  { intros x w0 H0. apply keyed_spec. unfold Worker.StartTask.
    destruct (Task.Error _); simpl; unfold Store.Put;
      intros k y Hk; apply lookup_insert_Some in Hk as [[<- <-]|[_ Hk]]; eauto. }
  assert (forall (x : Task.Task) (w0 : Worker.Worker),
            (forall k y, Worker.Db w0 !! k = Some y -> Task.ID y = k) ->
            Facts.keyed (Worker.Db (Worker.StopTask driver now x w0).1) = true) as Hstop.
  { intros x w0 H0. apply keyed_spec. unfold Worker.StopTask.
    destruct (Task.Error _); simpl; unfold Store.Put;
      intros k y Hk; apply lookup_insert_Some in Hk as [[<- <-]|[_ Hk]]; eauto. }
  split; [apply Hstart, Hkeyed|]. split; [apply Hstop, Hkeyed|].
  unfold Worker.RunTask. destruct (Worker.Queue w) as [|q rest]; [exact Hkeyed'|].
  set (w1 := Worker.persist q _).
  assert (forall k y, Worker.Db w1 !! k = Some y -> Task.ID y = k) as H1.
  { subst w1. unfold Worker.persist, Store.Put. simpl. apply keyed_insert, Hkeyed. }
  destruct (Store.Get _ _); [|apply keyed_spec, H1].
  destruct (bool_decide _); [apply Hstop, H1|].
  destruct (Task.ValidStateTransition _ _); [|apply keyed_spec, H1].
  destruct (Task.State_ q); try (apply keyed_spec, H1);
    [apply Hstart, H1 | apply Hstop, H1].
Qed.

Lemma worker_execution_keeps_store_keyed_witness :
  Facts.keyed (Worker.Db (Worker.StartTask Samples.exited_driver 5
                            (Examples.task_of "a" "c1" Task.Scheduled 0)
                            Examples.two_running).1) = true
  /\ Facts.keyed (Worker.Db (Worker.StopTask Samples.exited_driver 5
                               (Examples.task_of "a" "c1" Task.Scheduled 0)
                               Examples.two_running).1) = true
  /\ Facts.keyed (Worker.Db (Worker.RunTask Samples.exited_driver 5
                               Examples.two_running).1) = true.
Proof.
  apply (worker_execution_keeps_store_keyed Samples.exited_driver 5
           (Examples.task_of "a" "c1" Task.Scheduled 0) Examples.two_running).
  vm_compute. reflexivity.
Defined.

(** ** Candidate filtering *)


(** ** Round-robin *)

Lemma RoundRobin_Score_loop_other (h : Node.Heap) (newWorker : Z) (nodes : list Node.Ptr) :
  forall (idx : Z) (acc : gmap string float) (k : string),
    k ∉ Facts.names h nodes ->
    Scheduler.RoundRobin_Score_loop h newWorker idx nodes acc !! k = acc !! k.
Proof.
  induction nodes as [|node rest IH]; intros idx acc k Hk; simpl; [reflexivity|].
  unfold Facts.names in Hk. rewrite fmap_cons in Hk.
  apply not_elem_of_cons in Hk as [Hne Hk].
  rewrite IH by exact Hk.
  destruct (idx =? newWorker); apply lookup_insert_ne; congruence.
Qed.

Lemma RoundRobin_Score_loop_at (h : Node.Heap) (newWorker : Z) (nodes : list Node.Ptr) :
  NoDup (Facts.names h nodes) ->
  forall (idx : Z) (acc : gmap string float) (j : nat) (p : Node.Ptr),
    nodes !! j = Some p ->
    Scheduler.RoundRobin_Score_loop h newWorker idx nodes acc
      !! Node.Name (Node.deref h p)
    = Some (if idx + Z.of_nat j =? newWorker then 0.1%float else 1.0%float).
Proof.
  induction nodes as [|node rest IH]; intros Hnd idx acc j p Hj; [discriminate|].
  unfold Facts.names in Hnd. rewrite fmap_cons in Hnd.
  apply NoDup_cons in Hnd as [Hnotin Hnd]. simpl.
  destruct j as [|j]; simpl in Hj.
  - injection Hj as ->. rewrite RoundRobin_Score_loop_other by exact Hnotin.
    replace (idx + Z.of_nat 0) with idx by lia.
    destruct (idx =? newWorker); apply lookup_insert_eq.
  - rewrite (IH Hnd (idx + 1) _ j p Hj).
    replace (idx + 1 + Z.of_nat j) with (idx + Z.of_nat (S j)) by lia. reflexivity.
Qed.

(** X8. With node names that are pairwise distinct and a cursor inside the
    node list, round-robin's [Score] moves the cursor one position on,
    wrapping to 0 after the last node, and [Pick] on the scores it returns
    selects the node under the new cursor. *)
Theorem RoundRobin_selects_cursor_node (h : Node.Heap) (LastWorker : Z)
    (nodes : list Node.Ptr) :
  NoDup (Facts.names h nodes) ->
  Z.of_nat (length nodes) <= Go.int_max ->
  0 <= LastWorker < Z.of_nat (length nodes) ->
  (Scheduler.RoundRobin_Score h LastWorker nodes).1
    = (LastWorker + 1) mod Z.of_nat (length nodes)
  /\ Scheduler.RoundRobin_Pick h (Scheduler.RoundRobin_Score h LastWorker nodes).2 nodes
     = nodes !! Z.to_nat ((LastWorker + 1) mod Z.of_nat (length nodes)).
Proof.
  intros Hnd Hlen Hlast.
  assert (Go.wrap64 (LastWorker + 1) = LastWorker + 1) as Hwrap.
  { unfold Go.wrap64, Go.int_max in *. rewrite Z.mod_small; lia. }
  unfold Scheduler.RoundRobin_Score. cbn [fst snd].
  set (n := Z.of_nat (length nodes)) in *.
  set (nw := (LastWorker + 1) mod n).
  assert ((if Go.wrap64 (LastWorker + 1) <? n then Go.wrap64 (LastWorker + 1) else 0) = nw)
    as Hnw.
  { rewrite Hwrap. subst nw. destruct (LastWorker + 1 <? n) eqn:E.
    - apply Z.ltb_lt in E. rewrite Z.mod_small; lia.
    - apply Z.ltb_ge in E. replace (LastWorker + 1) with n by lia.
      rewrite Z.mod_same; lia. }
  assert (0 <= nw < n) as Hrange by (subst nw; apply Z.mod_pos_bound; lia).
  rewrite Hnw. split; [reflexivity|].
  set (scores := Scheduler.RoundRobin_Score_loop h nw 0 nodes ∅).
  assert (forall (j : nat) p, nodes !! j = Some p ->
            Scheduler.score_of h scores p
            = if Z.of_nat j =? nw then 0.1%float else 1.0%float) as Hscore.
  { intros j p Hj. unfold Scheduler.score_of, Scheduler.score_at. subst scores.
    rewrite (RoundRobin_Score_loop_at h nw nodes Hnd 0 ∅ j p Hj). reflexivity. }
  assert (forall q, q ∈ nodes -> PrimFloat.is_nan (Scheduler.score_of h scores q) = false)
    as Hnan.
  { intros q Hq. apply list_elem_of_lookup in Hq as [j Hj].
    rewrite (Hscore j q Hj). destruct (_ =? _); reflexivity. }
  destruct (nodes !! Z.to_nat nw) as [q|] eqn:Hq;
    [|apply lookup_ge_None in Hq; lia].
  destruct nodes as [|c rest]; [discriminate|].
  unfold Scheduler.RoundRobin_Pick. simpl Scheduler.pick_loop.
  fold (Scheduler.score_of h scores c).
  destruct (pick_loop_first_minimum h scores rest [c] c 0 (first_minimum_singleton h scores c) Hnan)
    as (p & Hpick & i & Hi & Hmin & _).
  rewrite Hpick. f_equal.
  destruct (decide (Z.of_nat i = nw)) as [Hinw|Hinw].
  - rewrite <- Hinw, Nat2Z.id in Hq. simpl in Hi. congruence.
  - exfalso.
    assert (q ∈ c :: rest) as Hqin by (apply list_elem_of_lookup; eauto).
    specialize (Hmin q Hqin).
    rewrite (Hscore _ _ Hq), (Hscore _ _ Hi) in Hmin.
    rewrite Z2Nat.id in Hmin by lia. rewrite Z.eqb_refl in Hmin.
    apply Z.eqb_neq in Hinw. rewrite Hinw in Hmin.
    vm_compute in Hmin. discriminate.
Qed.

Lemma RoundRobin_selects_cursor_node_witness :
  (Scheduler.RoundRobin_Score Examples.two_nodes 1 [0%nat; 1%nat]).1
    = (1 + 1) mod Z.of_nat (length [0%nat; 1%nat])
  /\ Scheduler.RoundRobin_Pick Examples.two_nodes
       (Scheduler.RoundRobin_Score Examples.two_nodes 1 [0%nat; 1%nat]).2 [0%nat; 1%nat]
     = [0%nat; 1%nat] !! Z.to_nat ((1 + 1) mod Z.of_nat (length [0%nat; 1%nat])).
Proof.
  apply (RoundRobin_selects_cursor_node Examples.two_nodes 1 [0%nat; 1%nat]).
  - apply (bool_decide_unpack _). vm_compute. exact I.
  - vm_compute. discriminate.
  - simpl. lia.
Defined.

(** ** The CPU probe *)

Lemma SFsub_self (prec emax : Z) (x : spec_float) :
  match x with S754_nan | S754_infinity _ => False | _ => True end ->
  SFsub prec emax x x = S754_zero false.
Proof.
  destruct x as [s|s| |s m e]; simpl; try tauto; intros _.
  - destruct s; reflexivity.
  - rewrite Z.sub_diag. reflexivity.
Qed.

Lemma float_sub_self (x : float) :
  PrimFloat.is_finite x = true -> ((x - x) =? 0)%float = true.
Proof.
  unfold PrimFloat.is_finite, PrimFloat.is_nan, PrimFloat.is_infinity.
  rewrite !FloatAxioms.eqb_spec, FloatAxioms.sub_spec, FloatAxioms.abs_spec.
  intros H. unfold SF64sub. rewrite SFsub_self.
  - vm_compute. reflexivity.
  - change (Prim2SF infinity) with (S754_infinity false) in H.
    destruct (Prim2SF x) as [s|s| |s m e]; try exact I.
    + destruct s; cbv in H; discriminate.
    + cbv in H; discriminate.
Qed.

Lemma GetStats_reply (r : Node.StatsResponse) (n : Node.Node) :
  Node.GetStats r n =
  match Facts.reply_stats r with
  | Some stats => (Facts.refreshed stats n, Some stats)
  | None => (n, None)
  end.
Proof.
  destruct r as [|status [stats|]]; simpl; try reflexivity.
  - destruct (status =? 200); simpl; [|reflexivity].
    destruct (Stats.MemStats stats), (Stats.DiskStats stats); reflexivity.
  - destruct (status =? 200); reflexivity.
Qed.

Lemma refreshed_twice (s1 s2 : Stats.Stats) (n : Node.Node) :
  Facts.refreshed s2 (Facts.refreshed s1 n) = Facts.refreshed s2 n.
Proof. reflexivity. Qed.

(** X9. [calculateCpuUsage] keeps two pointers to the same [Stats] field
    of the node, which the second [GetStats] overwrites before either is
    read.  Whenever both stats calls succeed and the second snapshot has
    finite idle and total CPU times, the usage it reports is therefore 0,
    whatever the first snapshot was; the node is left with the second
    snapshot. *)
Theorem calculateCpuUsage_reports_zero
    (probe : string -> Node.StatsResponse * Node.StatsResponse)
    (n : Node.Node) (s1 s2 : Stats.Stats) :
  Facts.reply_stats (probe (Node.Api n)).1 = Some s1 ->
  Facts.reply_stats (probe (Node.Api n)).2 = Some s2 ->
  Facts.finite_cpu_times s2 = true ->
  Scheduler.calculateCpuUsage probe n = (Facts.refreshed s2 n, Some 0%float).
Proof.
  intros H1 H2 Hfin. unfold Scheduler.calculateCpuUsage.
  rewrite !GetStats_reply, H1. cbn iota beta. rewrite GetStats_reply, H2.
  cbn iota beta zeta. rewrite refreshed_twice.
  change (Node.Stats (Facts.refreshed s2 n)) with s2.
  unfold Facts.finite_cpu_times in Hfin.
  destruct (Stats.CpuUsage s2) as [[[pct idle] nonIdle] total].
  apply andb_true_iff in Hfin as [Hidle Htotal].
  rewrite (float_sub_self total Htotal), (float_sub_self idle Hidle). reflexivity.
Qed.

Lemma calculateCpuUsage_reports_zero_witness :
  Scheduler.calculateCpuUsage Examples.only_B_answers
    (Node.NewNode "B:2" "http://B:2" "worker")
  = (Facts.refreshed Examples.some_stats (Node.NewNode "B:2" "http://B:2" "worker"),
     Some 0%float).
Proof.
  apply (calculateCpuUsage_reports_zero Examples.only_B_answers
           (Node.NewNode "B:2" "http://B:2" "worker")
           Examples.some_stats Examples.some_stats);
    vm_compute; reflexivity.
Defined.

Lemma calculateCpuUsage_cases
    (probe : string -> Node.StatsResponse * Node.StatsResponse) (n : Node.Node) :
  let r := Scheduler.calculateCpuUsage probe n in
  Node.Name r.1 = Node.Name n
  /\ Node.Api r.1 = Node.Api n
  /\ (is_Some r.2 <-> Facts.probe_ok probe (Node.Api n) = true).
Proof.
  unfold Scheduler.calculateCpuUsage, Facts.probe_ok. rewrite !GetStats_reply.
  destruct (Facts.reply_stats (probe (Node.Api n)).1) as [s1|]; cbn iota beta.
  - rewrite GetStats_reply.
    destruct (Facts.reply_stats (probe (Node.Api n)).2) as [s2|]; cbn iota beta zeta.
    + destruct (Stats.CpuUsage _) as [[[pct idle] nonIdle] total].
      repeat split; eauto.
    + repeat split; [intros [x Hx]; discriminate | intros H; discriminate].
  - repeat split; [intros [x Hx]; discriminate | intros H; discriminate].
Qed.

Lemma deref_insert_same_ids (h : Node.Heap) (q : Node.Ptr) (n' : Node.Node) :
  Node.Name n' = Node.Name (Node.deref h q) ->
  Node.Api n' = Node.Api (Node.deref h q) ->
  forall p, Node.Name (Node.deref (<[q := n']> h) p) = Node.Name (Node.deref h p)
            /\ Node.Api (Node.deref (<[q := n']> h) p) = Node.Api (Node.deref h p).
Proof.
  intros Hname Hapi p. unfold Node.deref in *.
  destruct (decide (q = p)) as [->|Hne].
  - destruct (decide (p < length h)%nat) as [Hlt|Hge].
    + rewrite list_lookup_insert_eq by exact Hlt. simpl. auto.
    + rewrite list_insert_ge by lia. auto.
  - rewrite list_lookup_insert_ne by exact Hne. auto.
Qed.

(** A scoring loop that, node by node, either adds an entry under the
    node's name (probe succeeded) or leaves the map alone (probe failed),
    and never renames a node, ends with entries for exactly the names of
    the nodes whose probe succeeded, next to what the map held before. *)
Lemma scoring_fold
    (probe : string -> Node.StatsResponse * Node.StatsResponse)
    (body : Node.Ptr -> Node.Heap * gmap string float -> Node.Heap * gmap string float) :
  (forall node h sc,
     (forall p, Node.Name (Node.deref (body node (h, sc)).1 p) = Node.Name (Node.deref h p)
                /\ Node.Api (Node.deref (body node (h, sc)).1 p) = Node.Api (Node.deref h p))
     /\ (Facts.probe_ok probe (Node.Api (Node.deref h node)) = true ->
         exists v, (body node (h, sc)).2 = <[Node.Name (Node.deref h node) := v]> sc)
     /\ (Facts.probe_ok probe (Node.Api (Node.deref h node)) = false ->
         (body node (h, sc)).2 = sc)) ->
  forall nodes h sc,
    let r := fold_left (fun st node => body node st) nodes (h, sc) in
    (forall p, Node.Name (Node.deref r.1 p) = Node.Name (Node.deref h p)
               /\ Node.Api (Node.deref r.1 p) = Node.Api (Node.deref h p))
    /\ (forall name,
          is_Some (r.2 !! name) <->
          is_Some (sc !! name)
          \/ exists p, p ∈ nodes /\ Node.Name (Node.deref h p) = name
                       /\ Facts.probe_ok probe (Node.Api (Node.deref h p)) = true).
Proof.
  intros Hbody nodes. induction nodes as [|node rest IH]; intros h sc; simpl.
  { split; [auto|]. intros name. split; [auto|].
    intros [H|(p & Hp & _)]; [exact H | inversion Hp]. }
  destruct (Hbody node h sc) as (Hids & Hok & Hfail).
  destruct (body node (h, sc)) as [h1 sc1] eqn:Hstep. simpl in *.
  destruct (IH h1 sc1) as (Hids' & Hdom').
  split.
  { intros p. destruct (Hids' p) as [E1 E2]. destruct (Hids p) as [E3 E4].
    split; congruence. }
  intros name. rewrite Hdom'. split.
  - intros [Hsc1|(p & Hp & Hname & Hprobe)].
    + destruct (Facts.probe_ok probe (Node.Api (Node.deref h node))) eqn:Hp.
      * destruct (Hok eq_refl) as [v ->].
        apply lookup_insert_is_Some in Hsc1 as [<-|[_ Hsc]]; [|auto].
        right. exists node. split; [left|]. auto.
      * rewrite (Hfail eq_refl) in Hsc1. auto.
    + right. exists p. destruct (Hids p) as [E1 E2].
      split; [right; exact Hp|]. split; congruence.
  - intros [Hsc|(p & Hp & Hname & Hprobe)].
    + left. destruct (Facts.probe_ok probe (Node.Api (Node.deref h node))) eqn:Hp.
      * destruct (Hok eq_refl) as [v ->]. rewrite lookup_insert_is_Some.
        destruct (decide (Node.Name (Node.deref h node) = name)); auto.
      * rewrite (Hfail eq_refl). exact Hsc.
    + apply elem_of_cons in Hp as [->|Hp].
      * left. destruct (Hok Hprobe) as [v ->]. rewrite Hname.
        rewrite lookup_insert_eq. eauto.
      * right. exists p. destruct (Hids p) as [E1 E2].
        split; [exact Hp|]. split; congruence.
Qed.

Lemma Greedy_Score_body_step (Pow : float -> float -> float)
    (probe : string -> Node.StatsResponse * Node.StatsResponse)
    (node : Node.Ptr) (h : Node.Heap) (sc : gmap string float) :
  let r := Scheduler.Greedy_Score_body Pow probe node (h, sc) in
  (forall p, Node.Name (Node.deref r.1 p) = Node.Name (Node.deref h p)
             /\ Node.Api (Node.deref r.1 p) = Node.Api (Node.deref h p))
  /\ (Facts.probe_ok probe (Node.Api (Node.deref h node)) = true ->
      exists v, r.2 = <[Node.Name (Node.deref h node) := v]> sc)
  /\ (Facts.probe_ok probe (Node.Api (Node.deref h node)) = false -> r.2 = sc).
Proof.
  unfold Scheduler.Greedy_Score_body.
  destruct (calculateCpuUsage_cases probe (Node.deref h node)) as (Hname & Hapi & Hsome).
  destruct (Scheduler.calculateCpuUsage probe (Node.deref h node)) as [n usage].
  simpl in Hname, Hapi, Hsome.
  destruct usage as [u|]; simpl; (split; [apply deref_insert_same_ids; assumption|]).
  - split; [intros _; rewrite Hname; eauto|].
    intros Hf. destruct Hsome as [Hs _]. rewrite Hs in Hf by eauto. discriminate.
  - split; [|reflexivity].
    intros Ht. apply Hsome in Ht as [x Hx]. discriminate.
Qed.

Lemma Epvm_Score_body_step (Pow : float -> float -> float)
    (probe : string -> Node.StatsResponse * Node.StatsResponse) (t : Task.Task)
    (node : Node.Ptr) (h : Node.Heap) (sc : gmap string float) :
  let r := Scheduler.Epvm_Score_body Pow probe t node (h, sc) in
  (forall p, Node.Name (Node.deref r.1 p) = Node.Name (Node.deref h p)
             /\ Node.Api (Node.deref r.1 p) = Node.Api (Node.deref h p))
  /\ (Facts.probe_ok probe (Node.Api (Node.deref h node)) = true ->
      exists v, r.2 = <[Node.Name (Node.deref h node) := v]> sc)
  /\ (Facts.probe_ok probe (Node.Api (Node.deref h node)) = false -> r.2 = sc).
Proof.
  unfold Scheduler.Epvm_Score_body.
  destruct (calculateCpuUsage_cases probe (Node.deref h node)) as (Hname & Hapi & Hsome).
  destruct (Scheduler.calculateCpuUsage probe (Node.deref h node)) as [n usage].
  simpl in Hname, Hapi, Hsome.
  destruct usage as [u|]; cbn iota beta zeta;
    (split; [apply deref_insert_same_ids; assumption|]).
  - split; [intros _; rewrite Hname; eauto|].
    intros Hf. destruct Hsome as [Hs _]. rewrite Hs in Hf by eauto. discriminate.
  - split; [|reflexivity].
    intros Ht. apply Hsome in Ht as [x Hx]. discriminate.
Qed.

(** X10. The score maps of the greedy and the E-PVM scheduler hold an
    entry for a name exactly when some candidate of that name answered
    both stats calls of its probe; a candidate whose probe failed adds
    nothing.  Scoring never changes the name or the address of a node. *)
Theorem Score_scores_exactly_the_probed_nodes (Pow : float -> float -> float)
    (probe : string -> Node.StatsResponse * Node.StatsResponse)
    (h : Node.Heap) (t : Task.Task) (nodes : list Node.Ptr) (name : string) :
  let probed :=
    exists p, p ∈ nodes /\ Node.Name (Node.deref h p) = name
              /\ Facts.probe_ok probe (Node.Api (Node.deref h p)) = true in
  (is_Some ((Scheduler.Greedy_Score Pow probe h t nodes).2 !! name) <-> probed)
  /\ (is_Some ((Scheduler.Epvm_Score Pow probe h t nodes).2 !! name) <-> probed)
  /\ (forall p,
        Node.Name (Node.deref (Scheduler.Greedy_Score Pow probe h t nodes).1 p)
          = Node.Name (Node.deref h p)
        /\ Node.Name (Node.deref (Scheduler.Epvm_Score Pow probe h t nodes).1 p)
          = Node.Name (Node.deref h p)).
Proof.
  intros probed.
  destruct (scoring_fold probe (Scheduler.Greedy_Score_body Pow probe)
              (Greedy_Score_body_step Pow probe) nodes h ∅) as (Hg1 & Hg2).
  destruct (scoring_fold probe (Scheduler.Epvm_Score_body Pow probe t)
              (Epvm_Score_body_step Pow probe t) nodes h ∅) as (He1 & He2).
  unfold Scheduler.Greedy_Score, Scheduler.Epvm_Score.
  split; [|split].
  - rewrite Hg2. rewrite lookup_empty. split; [intros [[x Hx]|H]; [discriminate | exact H]|auto].
  - rewrite He2. rewrite lookup_empty. split; [intros [[x Hx]|H]; [discriminate | exact H]|auto].
  - intros p. split; [apply Hg1 | apply He1].
Qed.

(** ** Dispatch and the placement maps *)

(** Everything one [SendWork] does to the manager's books. *)
Lemma SendWork_books (env : Manager.Env) (m : Manager.Manager) :
  let m' := Go.state_of (Manager.SendWork env m) in
  match Manager.Pending m with
  | [] => m' = m
  | Manager.QEvent te :: rest =>
      Manager.EventDb m' = <[Task.EventID te := te]> (Manager.EventDb m)
      /\ (Manager.Pending m' = rest
          \/ Manager.Pending m' =
             rest ++ [Manager.QTask (Task.set_State Task.Scheduled (Task.EventTask te))])
      /\ ((Manager.TaskDb m' = Manager.TaskDb m
           /\ Manager.TaskWorkerMap m' = Manager.TaskWorkerMap m
           /\ Manager.WorkerTaskMap m' = Manager.WorkerTaskMap m)
          \/ (Manager.TaskWorkerMap m !! Task.ID (Task.EventTask te) = None
              /\ exists wName,
                   Manager.TaskDb m' =
                     <[Task.ID (Task.EventTask te) :=
                         Task.set_State Task.Scheduled (Task.EventTask te)]>
                       (Manager.TaskDb m)
                   /\ Manager.TaskWorkerMap m' =
                        <[Task.ID (Task.EventTask te) := wName]> (Manager.TaskWorkerMap m)
                   /\ Manager.WorkerTaskMap m' =
                        <[wName := default [] (Manager.WorkerTaskMap m !! wName)
                                   ++ [Task.ID (Task.EventTask te)]]>
                          (Manager.WorkerTaskMap m)))
  | _ :: rest => m' = Manager.set_Pending rest m
  end.
Proof.
  unfold Manager.SendWork.
  destruct (Manager.Pending m) as [|e rest] eqn:HP; simpl.
  { reflexivity. }
  destruct e as [te|t|t]; simpl; try reflexivity.
  destruct (Manager.TaskWorkerMap m !! Task.ID (Task.EventTask te)) as [worker|] eqn:Hmap.
  { destruct (Store.Get _ _) as [persisted|]; simpl;
      [destruct (_ && _); simpl|]; auto 10. }
  pose proof (SelectWorker_preserves env (Task.EventTask te)
                (Manager.set_EventDb
                   (Store.Put (Task.EventID te) te (Manager.EventDb m))
                   (Manager.set_Pending rest m))) as Hsel.
  destruct (Manager.SelectWorker env (Task.EventTask te) _) as [m1 selected].
  simpl in Hsel. destruct Hsel as (HP1 & Hdb1 & Hev1 & Hwt1 & Hmap1).
  unfold Store.Put in *.
  destruct selected as [[w|]|err]; simpl; try (rewrite Hev1; auto 10).
  destruct (Manager.post_tasks env _ te) as [|status decodes]; simpl;
    [|destruct (negb (status =? 201)); simpl; [|destruct (negb decodes); simpl]];
    rewrite ?Hdb1, ?Hmap1, ?HP1, ?Hev1, ?Hwt1;
    (split; [reflexivity|]); (split; [auto|]);
    right; (split; [reflexivity|]);
    exists (Node.Name (Node.deref (Manager.Nodes m1) w)); auto.
Qed.

Lemma fold_left_preserves {A B} (g : Manager.Manager -> B)
    (f : Manager.Manager -> A -> Manager.Manager) :
  (forall x m, g (f m x) = g m) ->
  forall (l : list A) (m : Manager.Manager), g (fold_left f l m) = g m.
Proof.
  intros Hf l. induction l as [|x l IH]; intros m; simpl; [reflexivity|].
  rewrite IH. apply Hf.
Qed.

Lemma for_range_preserves {A B} (g : Manager.Manager -> B)
    (body : A -> Manager.Manager -> Go.outcome Manager.Manager) :
  (forall x m, g (Go.state_of (body x m)) = g m) ->
  forall (l : list A) (m : Manager.Manager),
    g (Go.state_of (Go.for_range body l m)) = g m.
Proof.
  intros Hb l. induction l as [|x l IH]; intros m; simpl; [reflexivity|].
  specialize (Hb x m). destruct (body x m) as [m1|m1]; simpl in *.
  - rewrite IH. exact Hb.
  - exact Hb.
Qed.

Lemma UpdateTasks_task_frame {B} (g : Manager.Manager -> B) :
  (forall db m, g (Manager.set_TaskDb db m) = g m) ->
  forall t m, g (Manager.UpdateTasks_task t m) = g m.
Proof.
  intros Hg t m. unfold Manager.UpdateTasks_task.
  destruct (Store.Get _ _); [apply Hg | reflexivity].
Qed.

Lemma UpdateTasks_pass_frame {B} (env : Manager.Env) (g : Manager.Manager -> B) :
  (forall db m, g (Manager.set_TaskDb db m) = g m) ->
  forall m, g (Manager.UpdateTasks_pass env m) = g m.
Proof.
  intros Hg m. unfold Manager.UpdateTasks_pass. apply fold_left_preserves.
  intros worker m0. unfold Manager.UpdateTasks_worker.
  destruct (Manager.get_tasks env worker) as [|status [tasks|]]; try reflexivity;
    destruct (negb _); try reflexivity.
  apply fold_left_preserves. intros t m1. apply UpdateTasks_task_frame, Hg.
Qed.

Lemma restartTask_frame {B} (env : Manager.Env) (g : Manager.Manager -> B) :
  (forall db m, g (Manager.set_TaskDb db m) = g m) ->
  (forall q m, g (Manager.set_Pending q m) = g m) ->
  forall t m, g (Manager.restartTask env t m) = g m.
Proof.
  intros Hdb Hq t m. unfold Manager.restartTask. cbv zeta.
  destruct (negb _); [apply Hdb|].
  destruct (Manager.post_tasks env _ _); rewrite ?Hq; apply Hdb.
Qed.

Lemma doHealthChecks_frame {B} (env : Manager.Env) (g : Manager.Manager -> B) :
  (forall db m, g (Manager.set_TaskDb db m) = g m) ->
  (forall q m, g (Manager.set_Pending q m) = g m) ->
  forall m, g (Go.state_of (Manager.doHealthChecks env m)) = g m.
Proof.
  intros Hdb Hq m. unfold Manager.doHealthChecks. apply for_range_preserves.
  intros t m0. destruct (doHealthChecks_body_effect env t m0) as [->|[_ ->]];
    [reflexivity | apply restartTask_frame; assumption].
Qed.

Lemma UpdateNodeStats_pass_frame {B} (env : Manager.Env) (g : Manager.Manager -> B) :
  (forall h m, g (Manager.set_Nodes h m) = g m) ->
  forall m, g (Manager.UpdateNodeStats_pass env m) = g m.
Proof.
  intros Hg m. unfold Manager.UpdateNodeStats_pass. apply fold_left_preserves.
  intros node m0. apply Hg.
Qed.

(** Only [SendWork] writes the placement maps and the event log. *)
Lemma books_frame (env : Manager.Env) (op : Manager.Op) (m : Manager.Manager) :
  op <> Manager.OpSendWork ->
  Facts.books (Go.state_of (Manager.step env op m)) = Facts.books m.
Proof.
  intros Hop. destruct op as [te| | | |]; simpl; try congruence.
  - reflexivity.
  - apply UpdateTasks_pass_frame. reflexivity.
  - apply doHealthChecks_frame; reflexivity.
  - apply UpdateNodeStats_pass_frame. reflexivity.
Qed.

Lemma placement_agrees_spec (m : Manager.Manager) :
  Facts.placement_agrees m = true <-> Facts.Placement_agrees m.
Proof.
  unfold Facts.placement_agrees, Facts.Placement_agrees.
  rewrite andb_true_iff, !forallb_forall. split.
  - intros [H1 H2]. split.
    + intros id w Hid. apply elem_of_map_to_list, list_elem_of_In in Hid.
      specialize (H1 _ Hid). simpl in H1. apply bool_decide_eq_true in H1. exact H1.
    + intros w ids Hw. apply elem_of_map_to_list, list_elem_of_In in Hw.
      specialize (H2 _ Hw). simpl in H2. apply andb_true_iff in H2 as [Hnd Hall].
      apply bool_decide_eq_true in Hnd. split; [exact Hnd|].
      intros id Hin. rewrite forallb_forall in Hall.
      apply list_elem_of_In in Hin. specialize (Hall _ Hin).
      apply bool_decide_eq_true in Hall. exact Hall.
  - intros [H1 H2]. split.
    + intros [id w] Hid. apply list_elem_of_In, elem_of_map_to_list in Hid.
      simpl. apply bool_decide_eq_true. apply H1. exact Hid.
    + intros [w ids] Hw. apply list_elem_of_In, elem_of_map_to_list in Hw.
      destruct (H2 _ _ Hw) as [Hnd Hall]. simpl.
      apply andb_true_iff. split; [apply bool_decide_eq_true; exact Hnd|].
      apply forallb_forall. intros id Hin. apply bool_decide_eq_true.
      apply Hall. apply list_elem_of_In. exact Hin.
Qed.

Lemma SendWork_Placement_agrees (env : Manager.Env) (m : Manager.Manager) :
  Facts.Placement_agrees m ->
  Facts.Placement_agrees (Go.state_of (Manager.SendWork env m)).
Proof.
  intros [Hfwd Hback]. pose proof (SendWork_books env m) as Hbooks.
  destruct (Manager.Pending m) as [|[te|t|t] rest]; simpl in Hbooks;
    try (rewrite Hbooks; split; assumption).
  destruct Hbooks as (_ & _ & [(_ & Hw & Hl)|(Hnone & wName & _ & Hw & Hl)]).
  { unfold Facts.Placement_agrees. rewrite Hw, Hl. split; assumption. }
  unfold Facts.Placement_agrees. rewrite Hw, Hl.
  set (id := Task.ID (Task.EventTask te)) in *.
  set (old := default [] (Manager.WorkerTaskMap m !! wName)).
  assert (NoDup old /\ forall x, x ∈ old -> Manager.TaskWorkerMap m !! x = Some wName)
    as [Hold_nd Hold].
  { subst old. destruct (Manager.WorkerTaskMap m !! wName) as [ids|] eqn:E; simpl.
    - apply (Hback _ _ E).
    - split; [constructor|]. intros x Hx. inversion Hx. }
  assert (id ∉ old) as Hfresh.
  { intros Hin. apply Hold in Hin. congruence. }
  split.
  - intros x w Hx. apply lookup_insert_Some in Hx as [[<- <-]|[Hne Hx]].
    + rewrite lookup_insert_eq. simpl. apply elem_of_app. right. left.
    + destruct (decide (wName = w)) as [<-|Hw'].
      * rewrite lookup_insert_eq. simpl. apply elem_of_app. left.
        apply (Hfwd _ _ Hx).
      * rewrite lookup_insert_ne by exact Hw'. apply (Hfwd _ _ Hx).
  - intros w ids Hids. apply lookup_insert_Some in Hids as [[<- <-]|[Hne Hids]].
    + split.
      * apply NoDup_app. split; [exact Hold_nd|]. split; [|apply NoDup_singleton].
        intros x Hx Hx'. apply list_elem_of_singleton in Hx'. subst x. auto.
      * intros x Hx. apply elem_of_app in Hx as [Hx|Hx].
        -- rewrite lookup_insert_ne; [apply Hold, Hx|].
           intros <-. auto.
        -- apply list_elem_of_singleton in Hx. subst x. apply lookup_insert_eq.
    + destruct (Hback _ _ Hids) as [Hnd Hall]. split; [exact Hnd|].
      intros x Hx. rewrite lookup_insert_ne; [apply Hall, Hx|].
      intros <-. specialize (Hall _ Hx). congruence.
Qed.

Lemma step_Placement_agrees (env : Manager.Env) (op : Manager.Op) (m : Manager.Manager) :
  Facts.Placement_agrees m ->
  Facts.Placement_agrees (Go.state_of (Manager.step env op m)).
Proof.
  intros Hm.
  assert (op = Manager.OpSendWork \/ op <> Manager.OpSendWork) as [->|Hop]
    by (destruct op; auto; right; discriminate).
  - apply SendWork_Placement_agrees, Hm.
  - pose proof (books_frame env op m Hop) as Hb. unfold Facts.books in Hb.
    injection Hb as Hw Hl _ _. unfold Facts.Placement_agrees. rewrite Hw, Hl. exact Hm.
Qed.

(** X11. The two placement maps stay in agreement through every history
    of manager operations: a task that [TaskWorkerMap] sends to a worker
    is on that worker's list in [WorkerTaskMap], a task on a worker's list
    is mapped to that worker, and no list names a task twice. *)
Theorem placement_maps_stay_in_agreement (ops : list (Manager.Env * Manager.Op))
    (m : Manager.Manager) :
  Facts.placement_agrees m = true ->
  Facts.placement_agrees (Go.state_of (Manager.run ops m)) = true.
Proof.
  intros Hm. apply placement_agrees_spec. apply placement_agrees_spec in Hm.
  revert m Hm. induction ops as [|[env op] ops IH]; intros m Hm; simpl; [exact Hm|].
  pose proof (step_Placement_agrees env op m Hm) as H1.
  destruct (Manager.step env op m) as [m1|m1]; simpl in *; auto.
Qed.

Lemma placement_maps_stay_in_agreement_witness :
  Facts.placement_agrees
    (Go.state_of (Manager.run Examples.failing_history Examples.one_worker_rr)) = true.
Proof.
  apply (placement_maps_stay_in_agreement Examples.failing_history Examples.one_worker_rr).
  vm_compute. reflexivity.
Defined.

Lemma step_keeps_placement (env : Manager.Env) (op : Manager.Op) (m : Manager.Manager)
    (id w : string) :
  Manager.TaskWorkerMap m !! id = Some w ->
  Manager.TaskWorkerMap (Go.state_of (Manager.step env op m)) !! id = Some w.
Proof.
  intros Hid.
  assert (op = Manager.OpSendWork \/ op <> Manager.OpSendWork) as [->|Hop]
    by (destruct op; auto; right; discriminate).
  - simpl. pose proof (SendWork_books env m) as Hbooks.
    destruct (Manager.Pending m) as [|[te|t|t] rest]; simpl in Hbooks;
      try (rewrite Hbooks; exact Hid).
    destruct Hbooks as (_ & _ & [(_ & -> & _)|(Hnone & wName & _ & -> & _)]);
      [exact Hid|].
    rewrite lookup_insert_ne; [exact Hid | congruence].
  - pose proof (books_frame env op m Hop) as Hb. unfold Facts.books in Hb.
    injection Hb as -> _ _ _. exact Hid.
Qed.

(** X12. Placement is final: once [TaskWorkerMap] sends a task to a
    worker, no history of manager operations, restarts and failed
    dispatches included, maps it to another worker or removes it. *)
Theorem placement_is_never_changed (ops : list (Manager.Env * Manager.Op))
    (m : Manager.Manager) (id w : string) :
  Manager.TaskWorkerMap m !! id = Some w ->
  Manager.TaskWorkerMap (Go.state_of (Manager.run ops m)) !! id = Some w.
Proof.
  revert m. induction ops as [|[env op] ops IH]; intros m Hid; simpl; [exact Hid|].
  pose proof (step_keeps_placement env op m id w Hid) as H1.
  destruct (Manager.step env op m) as [m1|m1]; simpl in *; auto.
Qed.

Lemma placement_is_never_changed_witness :
  Manager.TaskWorkerMap (Go.state_of (Manager.run Examples.history7 Samples.placed))
    !! "T1" = Some "w1:5556".
Proof.
  apply (placement_is_never_changed Examples.history7 Samples.placed "T1" "w1:5556").
  vm_compute. reflexivity.
Defined.

Lemma step_keeps_events (env : Manager.Env) (op : Manager.Op) (m : Manager.Manager)
    (e : string) :
  is_Some (Manager.EventDb m !! e) ->
  is_Some (Manager.EventDb (Go.state_of (Manager.step env op m)) !! e).
Proof.
  intros He.
  assert (op = Manager.OpSendWork \/ op <> Manager.OpSendWork) as [->|Hop]
    by (destruct op; auto; right; discriminate).
  - simpl. pose proof (SendWork_books env m) as Hbooks.
    destruct (Manager.Pending m) as [|[te|t|t] rest]; simpl in Hbooks;
      try (rewrite Hbooks; exact He).
    destruct Hbooks as (-> & _). rewrite lookup_insert_is_Some.
    destruct (decide (Task.EventID te = e)); auto.
  - pose proof (books_frame env op m Hop) as Hb. unfold Facts.books in Hb.
    injection Hb as _ _ -> _. exact He.
Qed.

(** X13. The event log is written first and never shrinks: [SendWork]
    records the event it takes from the queue under the event's identifier
    whether the task is then placed, refused or left without a worker, and
    no later history of operations removes an identifier from the log. *)
Theorem events_are_logged_and_kept (env : Manager.Env) (m : Manager.Manager)
    (te : Task.TaskEvent) (rest : list Manager.QueueItem)
    (ops : list (Manager.Env * Manager.Op)) :
  Manager.Pending m = Manager.QEvent te :: rest ->
  let m' := Go.state_of (Manager.SendWork env m) in
  Manager.EventDb m' = <[Task.EventID te := te]> (Manager.EventDb m)
  /\ is_Some (Manager.EventDb (Go.state_of (Manager.run ops m')) !! Task.EventID te).
Proof.
  intros HP m'. pose proof (SendWork_books env m) as Hbooks. rewrite HP in Hbooks.
  destruct Hbooks as (Hev & _). split; [exact Hev|].
  assert (is_Some (Manager.EventDb m' !! Task.EventID te)) as Hin.
  { subst m'. rewrite Hev, lookup_insert_eq. eauto. }
  clearbody m'. clear Hev HP. revert m' Hin.
  induction ops as [|[env' op] ops IH]; intros m' Hin; simpl; [exact Hin|].
  pose proof (step_keeps_events env' op m' _ Hin) as H1.
  destruct (Manager.step env' op m') as [m1|m1]; simpl in *; auto.
Qed.

Lemma events_are_logged_and_kept_witness :
  let m' := Go.state_of (Manager.SendWork Examples.unreachable Samples.waiting) in
  Manager.EventDb m' = <[Task.EventID Examples.event1 := Examples.event1]>
                         (Manager.EventDb Samples.waiting)
  /\ is_Some (Manager.EventDb (Go.state_of (Manager.run Examples.history7 m'))
                !! Task.EventID Examples.event1).
Proof.
  apply (events_are_logged_and_kept Examples.unreachable Samples.waiting
           Examples.event1 [] Examples.history7).
  reflexivity.
Defined.

(** ** Reconciliation with the workers *)

Lemma overlay_is_the_update (t p : Task.Task) :
  Task.set_HostPorts (Task.HostPorts t)
    (Task.set_ContainerID (Task.ContainerID t)
       (Task.set_FinishTime (Task.FinishTime t)
          (Task.set_StartTime (Task.StartTime t)
             (if bool_decide (Task.State_ p = Task.State_ t) then p
              else Task.set_State (Task.State_ t) p))))
  = Facts.overlay t p.
Proof.
  destruct (bool_decide (Task.State_ p = Task.State_ t)) eqn:E.
  - apply bool_decide_eq_true in E. destruct p; simpl in *. subst. reflexivity.
  - reflexivity.
Qed.

Lemma UpdateTasks_task_lookup (t : Task.Task) (m : Manager.Manager) :
  (forall k x, Manager.TaskDb m !! k = Some x -> Task.ID x = k) ->
  (forall k x, Manager.TaskDb (Manager.UpdateTasks_task t m) !! k = Some x -> Task.ID x = k)
  /\ forall k,
       Manager.TaskDb (Manager.UpdateTasks_task t m) !! k
       = (fun p => if String.eqb (Task.ID t) k then Facts.overlay t p else p)
           <$> Manager.TaskDb m !! k.
Proof.
  intros Hkeyed. unfold Manager.UpdateTasks_task, Store.Get, Store.Put. cbv zeta.
  destruct (Manager.TaskDb m !! Task.ID t) as [p|] eqn:Hp.
  - rewrite overlay_is_the_update. pose proof (Hkeyed _ _ Hp) as Hid.
    change (Task.ID (Facts.overlay t p)) with (Task.ID p). rewrite Hid. simpl. split.
    + intros k x Hk. apply lookup_insert_Some in Hk as [[<- <-]|[_ Hk]]; [exact Hid | eauto].
    + intros k. destruct (String.eqb_spec (Task.ID t) k) as [<-|Hne].
      * rewrite lookup_insert_eq, Hp. reflexivity.
      * rewrite lookup_insert_ne by exact Hne.
        destruct (Manager.TaskDb m !! k); reflexivity.
  - split; [exact Hkeyed|]. intros k.
    destruct (String.eqb_spec (Task.ID t) k) as [<-|Hne].
    + rewrite Hp. reflexivity.
    + destruct (Manager.TaskDb m !! k); reflexivity.
Qed.

Lemma UpdateTasks_fold_lookup (l : list Task.Task) :
  forall m : Manager.Manager,
    (forall k x, Manager.TaskDb m !! k = Some x -> Task.ID x = k) ->
    forall k,
      Manager.TaskDb (fold_left (fun m t => Manager.UpdateTasks_task t m) l m) !! k
      = Facts.after_reports l k <$> Manager.TaskDb m !! k.
Proof.
  induction l as [|t l IH]; intros m Hkeyed k; simpl.
  { destruct (Manager.TaskDb m !! k); reflexivity. }
  destruct (UpdateTasks_task_lookup t m Hkeyed) as [Hkeyed1 Hlookup].
  rewrite (IH _ Hkeyed1), Hlookup.
  unfold Facts.after_reports. simpl.
  destruct (Manager.TaskDb m !! k); reflexivity.
Qed.

Lemma UpdateTasks_fold_keyed (l : list Task.Task) :
  forall m : Manager.Manager,
    (forall k x, Manager.TaskDb m !! k = Some x -> Task.ID x = k) ->
    forall k x,
      Manager.TaskDb (fold_left (fun m t => Manager.UpdateTasks_task t m) l m) !! k = Some x ->
      Task.ID x = k.
Proof.
  induction l as [|t l IH]; intros m Hkeyed; simpl; [exact Hkeyed|].
  apply IH. apply (UpdateTasks_task_lookup t m Hkeyed).
Qed.

Lemma UpdateTasks_pass_reports (env : Manager.Env) (m : Manager.Manager) :
  Manager.UpdateTasks_pass env m
  = fold_left (fun m t => Manager.UpdateTasks_task t m)
      (Facts.reports env (Manager.Workers m)) m.
Proof.
  unfold Manager.UpdateTasks_pass. generalize (Manager.Workers m) as workers.
  intros workers. revert m. induction workers as [|w ws IH]; intros m; [reflexivity|].
  simpl. rewrite fold_left_app, IH. f_equal.
  unfold Manager.UpdateTasks_worker.
  destruct (Manager.get_tasks env w) as [|status [tasks|]]; try reflexivity;
    destruct (status =? 200); reflexivity.
Qed.

Lemma UpdateTasks_pass_writes_TaskDb_only (env : Manager.Env) (m : Manager.Manager) :
  Manager.UpdateTasks_pass env m
  = Manager.set_TaskDb (Manager.TaskDb (Manager.UpdateTasks_pass env m)) m.
Proof.
  rewrite UpdateTasks_pass_reports.
  generalize (Facts.reports env (Manager.Workers m)) as l. intros l.
  assert (forall l m0 m1, m1 = Manager.set_TaskDb (Manager.TaskDb m1) m0 ->
            fold_left (fun m t => Manager.UpdateTasks_task t m) l m1
            = Manager.set_TaskDb
                (Manager.TaskDb (fold_left (fun m t => Manager.UpdateTasks_task t m) l m1))
                m0) as Hfold.
  { clear. induction l as [|t l IH]; intros m0 m1 H1; simpl; [exact H1|].
    apply IH. unfold Manager.UpdateTasks_task.
    destruct (Store.Get _ _); [|exact H1].
    rewrite H1 at 2. reflexivity. }
  apply Hfold. destruct m; reflexivity.
Qed.

Lemma after_reports_absorbs (l : list Task.Task) (k : string) :
  (forall q, Facts.after_reports l k q = q)
  \/ (exists t, forall q, Facts.after_reports l k q = Facts.overlay t q).
Proof.
  induction l as [|t l IH]; [left; reflexivity|].
  unfold Facts.after_reports in *. simpl.
  destruct IH as [Hid|[t' Ht']].
  - destruct (String.eqb (Task.ID t) k).
    + right. exists t. intros q. apply Hid.
    + left. intros q. apply Hid.
  - right. exists t'. intros q. rewrite Ht'.
    destruct (String.eqb (Task.ID t) k); reflexivity.
Qed.

(** X14. Reconciliation is idempotent: on a task store whose records sit
    under their own identifiers, a second pass of [UpdateTasks] against the
    same worker answers leaves the manager exactly as the first pass left
    it. *)
Theorem UpdateTasks_is_idempotent (env : Manager.Env) (m : Manager.Manager) :
  Facts.keyed (Manager.TaskDb m) = true ->
  Manager.UpdateTasks_pass env (Manager.UpdateTasks_pass env m)
  = Manager.UpdateTasks_pass env m.
Proof.
  intros Hkeyed'. pose proof (proj1 (keyed_spec _) Hkeyed') as Hkeyed.
  set (m1 := Manager.UpdateTasks_pass env m).
  assert (Manager.Workers m1 = Manager.Workers m) as Hworkers
    by (apply (UpdateTasks_pass_frame env Manager.Workers); reflexivity).
  assert (forall k, Manager.TaskDb m1 !! k
                    = Facts.after_reports (Facts.reports env (Manager.Workers m)) k
                        <$> Manager.TaskDb m !! k) as Hdb1.
  { intros k. subst m1. rewrite UpdateTasks_pass_reports.
    apply UpdateTasks_fold_lookup, Hkeyed. }
  assert (forall k x, Manager.TaskDb m1 !! k = Some x -> Task.ID x = k) as Hkeyed1.
  { subst m1. rewrite UpdateTasks_pass_reports.
    apply UpdateTasks_fold_keyed, Hkeyed. }
  pose proof (UpdateTasks_pass_writes_TaskDb_only env m) as Hm1. fold m1 in Hm1.
  clearbody m1.
  rewrite (UpdateTasks_pass_writes_TaskDb_only env m1).
  transitivity (Manager.set_TaskDb (Manager.TaskDb (Manager.UpdateTasks_pass env m1)) m).
  { rewrite Hm1 at 2. reflexivity. }
  rewrite Hm1 at 2.
  f_equal. apply map_eq. intros k.
  rewrite UpdateTasks_pass_reports, (UpdateTasks_fold_lookup _ _ Hkeyed1), Hworkers, Hdb1.
  destruct (Manager.TaskDb m !! k) as [p|]; [simpl|reflexivity].
  f_equal.
  destruct (after_reports_absorbs (Facts.reports env (Manager.Workers m)) k)
    as [Hid|[t Ht]].
  - rewrite !Hid. reflexivity.
  - rewrite !Ht. reflexivity.
Qed.

Lemma UpdateTasks_is_idempotent_witness :
  Manager.UpdateTasks_pass Examples.worker_reports_failure
    (Manager.UpdateTasks_pass Examples.worker_reports_failure Samples.placed)
  = Manager.UpdateTasks_pass Examples.worker_reports_failure Samples.placed.
Proof.
  apply (UpdateTasks_is_idempotent Examples.worker_reports_failure Samples.placed).
  vm_compute. reflexivity.
Defined.

Lemma after_reports_submitted_part (l : list Task.Task) (k : string) :
  forall p, Facts.submitted_part (Facts.after_reports l k p) = Facts.submitted_part p.
Proof.
  unfold Facts.after_reports.
  induction l as [|t l IH]; intros p; simpl; [reflexivity|].
  rewrite IH. destruct (String.eqb (Task.ID t) k); reflexivity.
Qed.

Lemma after_reports_unreported (l : list Task.Task) (k : string) :
  (forall t, t ∈ l -> Task.ID t <> k) ->
  forall p, Facts.after_reports l k p = p.
Proof.
  unfold Facts.after_reports.
  induction l as [|t l IH]; intros Hl p; simpl; [reflexivity|].
  destruct (String.eqb_spec (Task.ID t) k) as [Heq|Hne].
  - exfalso. apply (Hl t); [left | exact Heq].
  - apply IH. intros t2 Ht2. apply Hl. right. exact Ht2.
Qed.

Lemma overlay_submitted_part (t p q : Task.Task) :
  Facts.submitted_part q = Facts.submitted_part p ->
  Facts.overlay t q = Facts.overlay t p.
Proof.
  unfold Facts.submitted_part, Facts.overlay. intros H.
  injection H as -> -> -> -> -> -> -> -> -> -> ->. reflexivity.
Qed.

Lemma after_reports_last (l1 l2 : list Task.Task) (t p : Task.Task) :
  (forall t2, t2 ∈ l2 -> Task.ID t2 <> Task.ID t) ->
  Facts.after_reports (l1 ++ t :: l2) (Task.ID t) p = Facts.overlay t p.
Proof.
  intros Hl2.
  assert (Facts.after_reports (l1 ++ t :: l2) (Task.ID t) p
          = Facts.after_reports l2 (Task.ID t)
              (Facts.overlay t (Facts.after_reports l1 (Task.ID t) p))) as ->.
  { unfold Facts.after_reports. rewrite fold_left_app. simpl.
    rewrite String.eqb_refl. reflexivity. }
  rewrite (after_reports_unreported l2 _ Hl2).
  apply overlay_submitted_part, after_reports_submitted_part.
Qed.

(** X15. On a task store whose records sit under their own identifiers, a
    pass of [UpdateTasks] adds and removes no task (a report for a task the
    manager does not hold is ignored); it keeps, for every task, all that
    the submitter fixed, the restart counter included; for a reported task
    it stores the state, start and finish time, container and host ports
    of the last report; a task without a report is left as it is; and it
    touches neither the queue nor the placement maps nor the event log. *)
Theorem UpdateTasks_takes_runtime_fields_from_last_report (env : Manager.Env)
    (m : Manager.Manager) :
  Facts.keyed (Manager.TaskDb m) = true ->
  let m' := Manager.UpdateTasks_pass env m in
  (forall k, is_Some (Manager.TaskDb m' !! k) <-> is_Some (Manager.TaskDb m !! k))
  /\ (forall k p, Manager.TaskDb m !! k = Some p ->
        exists p', Manager.TaskDb m' !! k = Some p'
                   /\ Facts.submitted_part p' = Facts.submitted_part p)
  /\ (forall l1 t l2 p,
        Facts.reports env (Manager.Workers m) = l1 ++ t :: l2 ->
        (forall t2, t2 ∈ l2 -> Task.ID t2 <> Task.ID t) ->
        Manager.TaskDb m !! Task.ID t = Some p ->
        Manager.TaskDb m' !! Task.ID t = Some (Facts.overlay t p))
  /\ (forall k, (forall t, t ∈ Facts.reports env (Manager.Workers m) -> Task.ID t <> k) ->
        Manager.TaskDb m' !! k = Manager.TaskDb m !! k)
  /\ Facts.books m' = Facts.books m
  /\ Manager.Pending m' = Manager.Pending m.
Proof.
  intros Hkeyed' m'. pose proof (proj1 (keyed_spec _) Hkeyed') as Hkeyed.
  assert (forall k, Manager.TaskDb m' !! k
                    = Facts.after_reports (Facts.reports env (Manager.Workers m)) k
                        <$> Manager.TaskDb m !! k) as Hdb.
  { intros k. subst m'. rewrite UpdateTasks_pass_reports.
    apply UpdateTasks_fold_lookup, Hkeyed. }
  split; [|split; [|split; [|split; [|split]]]].
  - intros k. rewrite Hdb. apply fmap_is_Some.
  - intros k p Hp. rewrite Hdb, Hp. simpl. eexists. split; [reflexivity|].
    apply after_reports_submitted_part.
  - intros l1 t l2 p Hl Hl2 Hp. rewrite Hdb, Hp, Hl. simpl. f_equal.
    apply after_reports_last, Hl2.
  - intros k Hk. rewrite Hdb. destruct (Manager.TaskDb m !! k); [simpl|reflexivity].
    f_equal. apply after_reports_unreported, Hk.
  - apply (UpdateTasks_pass_frame env Facts.books). reflexivity.
  - apply (UpdateTasks_pass_frame env Manager.Pending). reflexivity.
Qed.

Lemma UpdateTasks_takes_runtime_fields_from_last_report_witness :
  let m := Samples.placed in
  let env := Examples.worker_reports_failure in
  let m' := Manager.UpdateTasks_pass env m in
  (forall k, is_Some (Manager.TaskDb m' !! k) <-> is_Some (Manager.TaskDb m !! k))
  /\ (forall k p, Manager.TaskDb m !! k = Some p ->
        exists p', Manager.TaskDb m' !! k = Some p'
                   /\ Facts.submitted_part p' = Facts.submitted_part p)
  /\ (forall l1 t l2 p,
        Facts.reports env (Manager.Workers m) = l1 ++ t :: l2 ->
        (forall t2, t2 ∈ l2 -> Task.ID t2 <> Task.ID t) ->
        Manager.TaskDb m !! Task.ID t = Some p ->
        Manager.TaskDb m' !! Task.ID t = Some (Facts.overlay t p))
  /\ (forall k, (forall t, t ∈ Facts.reports env (Manager.Workers m) -> Task.ID t <> k) ->
        Manager.TaskDb m' !! k = Manager.TaskDb m !! k)
  /\ Facts.books m' = Facts.books m
  /\ Manager.Pending m' = Manager.Pending m.
Proof.
  apply (UpdateTasks_takes_runtime_fields_from_last_report
           Examples.worker_reports_failure Samples.placed).
  vm_compute. reflexivity.
Defined.

(** ** Health checks *)

Lemma checkTaskHealth_reads_placement (env : Manager.Env) (t : Task.Task)
    (m1 m2 : Manager.Manager) :
  Manager.TaskWorkerMap m1 = Manager.TaskWorkerMap m2 ->
  Manager.checkTaskHealth env t m1 = Manager.checkTaskHealth env t m2.
Proof. intros H. unfold Manager.checkTaskHealth. rewrite H. reflexivity. Qed.

Lemma doHealthChecks_body_due (env : Manager.Env) (t : Task.Task) (m : Manager.Manager) :
  Go.state_of (Manager.doHealthChecks_body env t m)
  = if Facts.restart_due env m t then Manager.restartTask env t m else m.
Proof.
  unfold Manager.doHealthChecks_body, Facts.restart_due.
  destruct (Task.RestartCount t <? 3); simpl.
  - destruct (Task.State_ t); simpl;
      try reflexivity;
      destruct (Manager.checkTaskHealth env t m); reflexivity.
  - rewrite !andb_false_r. reflexivity.
Qed.

Lemma restartTask_books (env : Manager.Env) (t : Task.Task) (m : Manager.Manager) :
  Manager.TaskDb (Manager.restartTask env t m)
    = <[Task.ID t := Facts.restarted t]> (Manager.TaskDb m)
  /\ Facts.books (Manager.restartTask env t m) = Facts.books m.
Proof.
  split; [apply restartTask_effect|].
  apply (restartTask_frame env Facts.books); reflexivity.
Qed.

Lemma doHealthChecks_loop_untouched (env : Manager.Env) (l : list Task.Task) :
  forall m : Manager.Manager,
    let m' := Go.state_of (Go.for_range (Manager.doHealthChecks_body env) l m) in
    Manager.TaskWorkerMap m' = Manager.TaskWorkerMap m
    /\ forall k, (forall t, t ∈ l -> Task.ID t = k -> Facts.restart_due env m t = false) ->
         Manager.TaskDb m' !! k = Manager.TaskDb m !! k.
Proof.
  induction l as [|t l IH]; intros m; simpl; [auto|].
  pose proof (doHealthChecks_body_due env t m) as Hbody.
  destruct (restartTask_books env t m) as [Hdb Hbooks].
  assert (Manager.TaskWorkerMap (Go.state_of (Manager.doHealthChecks_body env t m))
          = Manager.TaskWorkerMap m
          /\ forall k, (Task.ID t = k -> Facts.restart_due env m t = false) ->
               Manager.TaskDb (Go.state_of (Manager.doHealthChecks_body env t m)) !! k
               = Manager.TaskDb m !! k) as [Hw1 Hsame1].
  { rewrite Hbody. destruct (Facts.restart_due env m t) eqn:Hdue; [|auto].
    split; [unfold Facts.books in Hbooks; congruence|].
    intros k Hk. rewrite Hdb. apply lookup_insert_ne. intros Heq.
    specialize (Hk Heq). discriminate. }
  destruct (Manager.doHealthChecks_body env t m) as [m1|m1]; simpl in *.
  - destruct (IH m1) as [Hw' Hsame']. split; [congruence|].
    intros k Hk. rewrite Hsame'.
    + apply Hsame1. intros Heq. apply (Hk t); [left | exact Heq].
    + intros t2 Ht2 Hid. unfold Facts.restart_due.
      rewrite (checkTaskHealth_reads_placement env t2 m1 m Hw1).
      apply (Hk t2); [right; exact Ht2 | exact Hid].
  - split; [exact Hw1|]. intros k Hk. apply Hsame1.
    intros Heq. apply (Hk t); [left | exact Heq].
Qed.

(** X16. A pass of [doHealthChecks] leaves alone every task whose restart
    counter has reached 3, every task that is neither [Failed] nor
    [Running], and every [Running] task whose health check passes: such a
    record is exactly as before, whether the pass completes or panics. *)
Theorem doHealthChecks_leaves_capped_and_healthy_tasks (env : Manager.Env)
    (m : Manager.Manager) (id : string) (t : Task.Task) :
  Facts.keyed (Manager.TaskDb m) = true ->
  Manager.TaskDb m !! id = Some t ->
  3 <= Task.RestartCount t
  \/ (Task.State_ t <> Task.Failed /\ Task.State_ t <> Task.Running)
  \/ (Task.State_ t = Task.Running /\ Manager.checkTaskHealth env t m = Manager.Healthy) ->
  Manager.TaskDb (Go.state_of (Manager.doHealthChecks env m)) !! id = Some t.
Proof.
  intros Hkeyed' Hid Hcase. pose proof (proj1 (keyed_spec _) Hkeyed') as Hkeyed.
  assert (Facts.restart_due env m t = false) as Hdue.
  { unfold Facts.restart_due. destruct Hcase as [Hcap|[[Hf Hr]|[Hr Hh]]].
    - apply Z.ltb_ge in Hcap. rewrite Hcap. reflexivity.
    - rewrite (bool_decide_eq_false_2 _ Hf), (bool_decide_eq_false_2 _ Hr).
      apply andb_false_r.
    - rewrite Hh, Hr. simpl. apply andb_false_r. }
  unfold Manager.doHealthChecks.
  destruct (doHealthChecks_loop_untouched env (Manager.GetTasks m) m) as [_ Hsame].
  rewrite Hsame; [exact Hid|].
  intros t2 Ht2 Hid2. apply (keyed_List_lookup _ _ Hkeyed) in Ht2.
  rewrite Hid2, Hid in Ht2. injection Ht2 as <-. exact Hdue.
Qed.

Lemma doHealthChecks_leaves_capped_and_healthy_tasks_witness :
  Manager.TaskDb (Go.state_of (Manager.doHealthChecks Examples.worker_reports_failure
                                 Samples.placed)) !! "T1"
  = Some Samples.placed_T1.
Proof.
  apply (doHealthChecks_leaves_capped_and_healthy_tasks Examples.worker_reports_failure
           Samples.placed "T1" Samples.placed_T1).
  - vm_compute. reflexivity.
  - vm_compute. reflexivity.
  - left. vm_compute. discriminate.
Defined.

Lemma doHealthChecks_loop_done (env : Manager.Env) (l : list Task.Task) :
  forall m : Manager.Manager,
    NoDup (Task.ID <$> l) ->
    (forall t, t ∈ l -> Manager.TaskDb m !! Task.ID t = Some t) ->
    let m' := Go.state_of (Go.for_range (Manager.doHealthChecks_body env) l m) in
    Go.panicked (Go.for_range (Manager.doHealthChecks_body env) l m) = false ->
    (forall k, k ∉ (Task.ID <$> l) -> Manager.TaskDb m' !! k = Manager.TaskDb m !! k)
    /\ (forall t, t ∈ l ->
          Manager.TaskDb m' !! Task.ID t = Some (Facts.health_checked env m t)).
Proof.
  induction l as [|t l IH]; intros m Hnd Hfresh; simpl.
  { intros _. split; [auto|]. intros t Ht. inversion Ht. }
  rewrite fmap_cons in Hnd. apply NoDup_cons in Hnd as [Hnotin Hnd].
  pose proof (doHealthChecks_body_due env t m) as Hbody.
  destruct (restartTask_books env t m) as [Hdb Hbooks].
  destruct (Manager.doHealthChecks_body env t m) as [m1|m1]; simpl in *;
    [|discriminate].
  assert (Manager.TaskWorkerMap m1 = Manager.TaskWorkerMap m
          /\ (forall k, k <> Task.ID t -> Manager.TaskDb m1 !! k = Manager.TaskDb m !! k)
          /\ Manager.TaskDb m1 !! Task.ID t = Some (Facts.health_checked env m t))
    as (Hw1 & Hother1 & Hthis1).
  { subst m1. unfold Facts.health_checked.
    destruct (Facts.restart_due env m t).
    - split; [unfold Facts.books in Hbooks; congruence|]. rewrite Hdb. split.
      + intros k Hk. apply lookup_insert_ne. congruence.
      + apply lookup_insert_eq.
    - split; [reflexivity|]. split; [auto|]. apply Hfresh. left. }
  intros Hdone.
  destruct (IH m1 Hnd) as (Hother' & Hthese'); [|exact Hdone|].
  { intros t2 Ht2. rewrite Hother1; [apply Hfresh; right; exact Ht2|].
    intros Heq. apply Hnotin. rewrite <- Heq. apply list_elem_of_fmap. eauto. }
  split.
  - intros k Hk. apply not_elem_of_cons in Hk as [Hk1 Hk2].
    rewrite (Hother' _ Hk2). apply Hother1, Hk1.
  - intros t2 Ht2. apply elem_of_cons in Ht2 as [->|Ht2].
    + rewrite (Hother' _ Hnotin). exact Hthis1.
    + rewrite (Hthese' _ Ht2). unfold Facts.health_checked, Facts.restart_due.
      rewrite (checkTaskHealth_reads_placement env t2 m1 m Hw1). reflexivity.
Qed.

(** X17. When a pass of [doHealthChecks] completes, on a task store whose
    records sit under their own identifiers, it has restarted exactly the
    tasks that were due: every task with a counter below 3 that was
    [Failed], or [Running] with a failed health check, is stored as
    [Scheduled] with its counter raised by one; every other task is as
    before; no task is added or removed, and the placement maps and the
    event log are untouched. *)
Theorem doHealthChecks_restarts_exactly_the_due_tasks (env : Manager.Env)
    (m : Manager.Manager) :
  Facts.keyed (Manager.TaskDb m) = true ->
  Go.panicked (Manager.doHealthChecks env m) = false ->
  let m' := Go.state_of (Manager.doHealthChecks env m) in
  Manager.TaskDb m' = Facts.health_checked env m <$> Manager.TaskDb m
  /\ Facts.books m' = Facts.books m.
Proof.
  intros Hkeyed' Hdone m'. pose proof (proj1 (keyed_spec _) Hkeyed') as Hkeyed.
  split; [|apply (doHealthChecks_frame env Facts.books); reflexivity].
  unfold Manager.doHealthChecks, Manager.GetTasks in *.
  destruct (doHealthChecks_loop_done env (Store.List (Manager.TaskDb m)) m)
    as (Hother & Hthese); [| |exact Hdone|].
  - apply keyed_List_NoDup, Hkeyed.
  - intros t Ht. apply keyed_List_lookup; assumption.
  - apply map_eq. intros k. rewrite lookup_fmap. subst m'.
    destruct (Manager.TaskDb m !! k) as [t|] eqn:Hk; simpl.
    + pose proof (Hkeyed _ _ Hk) as Hid. rewrite <- Hid.
      apply Hthese. apply (List_elem_of _ k). exact Hk.
    + rewrite Hother; [exact Hk|].
      intros Hin. apply list_elem_of_fmap in Hin as (t & -> & Ht).
      rewrite (keyed_List_lookup _ _ Hkeyed Ht) in Hk. discriminate.
Qed.

Lemma doHealthChecks_restarts_exactly_the_due_tasks_witness :
  let m := Samples.failed_once in
  let env := Examples.worker_reports_failure in
  let m' := Go.state_of (Manager.doHealthChecks env m) in
  Manager.TaskDb m' = Facts.health_checked env m <$> Manager.TaskDb m
  /\ Facts.books m' = Facts.books m.
Proof.
  apply (doHealthChecks_restarts_exactly_the_due_tasks Examples.worker_reports_failure
           Samples.failed_once); vm_compute; reflexivity.
Defined.

(** ** Events that are not placed *)

(** X18. An event for a task that already has a worker is never placed
    again: [SendWork] takes it off the queue, logs it and leaves task
    store, placement maps, nodes and scheduler as they are, whether the
    stop it asks for is legal or not.  The same holds for an event of a
    new task when the scheduler finds no candidate node: the event is
    dropped, not put back. *)
Theorem SendWork_logs_and_drops (env : Manager.Env) (m : Manager.Manager)
    (te : Task.TaskEvent) (rest : list Manager.QueueItem) :
  Manager.Pending m = Manager.QEvent te :: rest ->
  is_Some (Manager.TaskWorkerMap m !! Task.ID (Task.EventTask te))
  \/ Go.is_nil (Scheduler.SelectCandidateNodes (Manager.Scheduler m) (Manager.Nodes m)
                  (Task.EventTask te) (Manager.WorkerNodes m)) = true ->
  Manager.SendWork env m = Go.Done (Facts.logged_only te rest m).
Proof.
  intros HP Hcase. unfold Manager.SendWork. rewrite HP. simpl.
  destruct (Manager.TaskWorkerMap m !! Task.ID (Task.EventTask te)) as [worker|] eqn:Hmap.
  { destruct (Store.Get _ _) as [persisted|]; [destruct (_ && _)|]; reflexivity. }
  destruct Hcase as [[x Hx]|Hnil]; [discriminate|].
  unfold Manager.SelectWorker. simpl. rewrite Hnil. reflexivity.
Qed.

Lemma SendWork_logs_and_drops_witness :
  Manager.SendWork Examples.unreachable
    (Manager.AddTask Examples.event1 (Manager.New [] "greedy"))
  = Go.Done (Facts.logged_only Examples.event1 []
               (Manager.AddTask Examples.event1 (Manager.New [] "greedy"))).
Proof.
  apply (SendWork_logs_and_drops Examples.unreachable
           (Manager.AddTask Examples.event1 (Manager.New [] "greedy"))
           Examples.event1 []).
  - reflexivity.
  - right. vm_compute. reflexivity.
Defined.

(** ** What every reachable manager satisfies *)

Lemma for_range_invariant {A} (P : Manager.Manager -> Prop)
    (body : A -> Manager.Manager -> Go.outcome Manager.Manager) :
  (forall x m, P m -> P (Go.state_of (body x m))) ->
  forall (l : list A) (m : Manager.Manager),
    P m -> P (Go.state_of (Go.for_range body l m)).
Proof.
  intros Hb l. induction l as [|x l IH]; intros m Hm; simpl; [exact Hm|].
  specialize (Hb x m Hm). destruct (body x m) as [m1|m1]; simpl in *; auto.
Qed.

Lemma step_keyed (env : Manager.Env) (op : Manager.Op) (m : Manager.Manager) :
  (forall k x, Manager.TaskDb m !! k = Some x -> Task.ID x = k) ->
  forall k x, Manager.TaskDb (Go.state_of (Manager.step env op m)) !! k = Some x ->
              Task.ID x = k.
Proof.
  intros Hkeyed. destruct op as [te| | | |]; simpl.
  - exact Hkeyed.
  - pose proof (SendWork_books env m) as Hbooks.
    destruct (Manager.Pending m) as [|[te|t|t] rest]; simpl in Hbooks;
      try (rewrite Hbooks; exact Hkeyed).
    destruct Hbooks as (_ & _ & [(-> & _)|(_ & wName & -> & _)]); [exact Hkeyed|].
    intros k x Hk. apply lookup_insert_Some in Hk as [[<- <-]|[_ Hk]]; eauto.
  - rewrite UpdateTasks_pass_reports. apply UpdateTasks_fold_keyed, Hkeyed.
  - unfold Manager.doHealthChecks.
    apply (for_range_invariant
             (fun m => forall k x, Manager.TaskDb m !! k = Some x -> Task.ID x = k));
      [|exact Hkeyed].
    intros t m0 H0. rewrite doHealthChecks_body_due.
    destruct (Facts.restart_due env m0 t); [|exact H0].
    destruct (restartTask_books env t m0) as [-> _].
    intros k x Hk. apply lookup_insert_Some in Hk as [[<- <-]|[_ Hk]]; eauto.
  - rewrite (UpdateNodeStats_pass_frame env Manager.TaskDb); [exact Hkeyed | reflexivity].
Qed.

Lemma New_WorkerTaskMap_empty_lists (workers : list string) (schedulerType : string) :
  forall w ids,
    Manager.WorkerTaskMap (Manager.New workers schedulerType) !! w = Some ids ->
    ids = [] /\ w ∈ workers.
Proof.
  simpl.
  assert (forall l (acc : gmap string (list Task.UUID)) w ids,
    fold_left (fun wtm worker => <[worker := []]> wtm) l acc !! w = Some ids ->
    acc !! w = Some ids \/ (ids = [] /\ w ∈ l)) as Hfold.
  { induction l as [|x l IH]; intros acc w ids H; simpl in *; [auto|].
    apply IH in H as [H|[-> Hin]].
    - apply lookup_insert_Some in H as [[<- <-]|[_ H]]; [right; split; [reflexivity | left]|auto].
    - right. split; [reflexivity | right; exact Hin]. }
  intros w ids H. apply Hfold in H as [H|H]; [|exact H].
  rewrite lookup_empty in H. discriminate.
Qed.

(** X19. From a manager as [New] builds it, whatever the workers and the
    scheduler, every history of operations leads to a manager whose task
    store holds each record under the record's own identifier and whose
    two placement maps agree. *)
Theorem reachable_managers_are_keyed_and_agree (workers : list string)
    (schedulerType : string) (ops : list (Manager.Env * Manager.Op)) :
  let m := Go.state_of (Manager.run ops (Manager.New workers schedulerType)) in
  Facts.keyed (Manager.TaskDb m) = true /\ Facts.placement_agrees m = true.
Proof.
  intros m. rewrite keyed_spec, placement_agrees_spec. subst m.
  assert ((forall k x, Manager.TaskDb (Manager.New workers schedulerType) !! k = Some x ->
                       Task.ID x = k)
          /\ Facts.Placement_agrees (Manager.New workers schedulerType)) as Hnew.
  { split.
    - intros k x Hk. simpl in Hk. rewrite lookup_empty in Hk. discriminate.
    - split.
      + intros id w Hid. simpl in Hid. rewrite lookup_empty in Hid. discriminate.
      + intros w ids Hw. apply New_WorkerTaskMap_empty_lists in Hw as [-> _].
        split; [constructor|]. intros id Hin. inversion Hin. }
  revert Hnew. generalize (Manager.New workers schedulerType) as m.
  induction ops as [|[env op] ops IH]; intros m [Hk Hp]; simpl; [auto|].
  pose proof (step_keyed env op m Hk) as Hk1.
  pose proof (step_Placement_agrees env op m Hp) as Hp1.
  destruct (Manager.step env op m) as [m1|m1]; simpl in *; auto.
Qed.

(** ** What is never written of a node *)

Lemma deref_insert_fixed (h : Node.Heap) (q : Node.Ptr) (n' : Node.Node) :
  Facts.fixed_part n' = Facts.fixed_part (Node.deref h q) ->
  forall p, Facts.fixed_part (Node.deref (<[q := n']> h) p)
            = Facts.fixed_part (Node.deref h p).
Proof.
  intros Hfix p. unfold Node.deref in *.
  destruct (decide (q = p)) as [->|Hne].
  - destruct (decide (p < length h)%nat) as [Hlt|Hge].
    + rewrite list_lookup_insert_eq by exact Hlt. simpl. exact Hfix.
    + rewrite list_insert_ge by lia. reflexivity.
  - rewrite list_lookup_insert_ne by exact Hne. reflexivity.
Qed.

Lemma GetStats_fixed (r : Node.StatsResponse) (n : Node.Node) :
  Facts.fixed_part (Node.GetStats r n).1 = Facts.fixed_part n.
Proof. rewrite GetStats_reply. destruct (Facts.reply_stats r); reflexivity. Qed.

Lemma calculateCpuUsage_fixed
    (probe : string -> Node.StatsResponse * Node.StatsResponse) (n : Node.Node) :
  Facts.fixed_part (Scheduler.calculateCpuUsage probe n).1 = Facts.fixed_part n.
Proof.
  unfold Scheduler.calculateCpuUsage. rewrite !GetStats_reply.
  destruct (Facts.reply_stats (probe (Node.Api n)).1) as [s1|]; cbn iota beta;
    [|reflexivity].
  rewrite GetStats_reply.
  destruct (Facts.reply_stats (probe (Node.Api n)).2) as [s2|]; cbn iota beta zeta;
    [|reflexivity].
  destruct (Stats.CpuUsage _) as [[[pct idle] nonIdle] total]. reflexivity.
Qed.

Lemma fold_fixed {A S} (nodes_of : S -> Node.Heap) (body : S -> A -> S) :
  (forall st x p, Facts.fixed_part (Node.deref (nodes_of (body st x)) p)
                  = Facts.fixed_part (Node.deref (nodes_of st) p)) ->
  forall (l : list A) (st : S) p,
    Facts.fixed_part (Node.deref (nodes_of (fold_left body l st)) p)
    = Facts.fixed_part (Node.deref (nodes_of st) p).
Proof.
  intros Hb l. induction l as [|x l IH]; intros st p; simpl; [reflexivity|].
  rewrite IH. apply Hb.
Qed.

Lemma Score_fixed (Pow : float -> float -> float)
    (probe : string -> Node.StatsResponse * Node.StatsResponse)
    (s : Scheduler.Scheduler) (h : Node.Heap) (t : Task.Task) (nodes : list Node.Ptr) :
  forall p, Facts.fixed_part (Node.deref (Scheduler.Score Pow probe s h t nodes).1.2 p)
            = Facts.fixed_part (Node.deref h p).
Proof.
  intros p. destruct s as [last| |]; simpl.
  - reflexivity.
  - unfold Scheduler.Greedy_Score.
    destruct (fold_left _ nodes (h, ∅)) as [h' sc] eqn:Hfold. simpl.
    change h' with (h', sc).1. rewrite <- Hfold.
    rewrite (fold_fixed fst (fun st node => Scheduler.Greedy_Score_body Pow probe node st));
      [reflexivity|].
    intros [h0 sc0] node q. unfold Scheduler.Greedy_Score_body.
    pose proof (calculateCpuUsage_fixed probe (Node.deref h0 node)) as Hfix.
    destruct (Scheduler.calculateCpuUsage probe (Node.deref h0 node)) as [n usage].
    destruct usage; simpl; apply deref_insert_fixed; exact Hfix.
  - unfold Scheduler.Epvm_Score.
    destruct (fold_left _ nodes (h, ∅)) as [h' sc] eqn:Hfold. simpl.
    change h' with (h', sc).1. rewrite <- Hfold.
    rewrite (fold_fixed fst (fun st node => Scheduler.Epvm_Score_body Pow probe t node st));
      [reflexivity|].
    intros [h0 sc0] node q. unfold Scheduler.Epvm_Score_body.
    pose proof (calculateCpuUsage_fixed probe (Node.deref h0 node)) as Hfix.
    destruct (Scheduler.calculateCpuUsage probe (Node.deref h0 node)) as [n usage].
    destruct usage; cbn iota beta zeta; apply deref_insert_fixed; exact Hfix.
Qed.

Lemma SelectWorker_fixed (env : Manager.Env) (t : Task.Task) (m : Manager.Manager) :
  forall p, Facts.fixed_part (Node.deref (Manager.Nodes (Manager.SelectWorker env t m).1) p)
            = Facts.fixed_part (Node.deref (Manager.Nodes m) p).
Proof.
  intros p. unfold Manager.SelectWorker.
  destruct (Go.is_nil _); [reflexivity|].
  pose proof (Score_fixed (Manager.Pow env) (Manager.probe env) (Manager.Scheduler m)
                (Manager.Nodes m) t
                (Go.elems (Scheduler.SelectCandidateNodes (Manager.Scheduler m)
                             (Manager.Nodes m) t (Manager.WorkerNodes m))) p) as Hfix.
  destruct (Scheduler.Score _ _ _ _ _ _) as [[s h] scores]. simpl in Hfix.
  destruct scores; exact Hfix.
Qed.

Lemma SendWork_fixed (env : Manager.Env) (m : Manager.Manager) :
  forall p,
    Facts.fixed_part (Node.deref (Manager.Nodes (Go.state_of (Manager.SendWork env m))) p)
    = Facts.fixed_part (Node.deref (Manager.Nodes m) p).
Proof.
  intros p. unfold Manager.SendWork.
  destruct (Manager.Pending m) as [|[te|t|t] rest]; try reflexivity.
  cbn iota beta zeta.
  destruct (Manager.TaskWorkerMap _ !! _) as [worker|].
  { destruct (Store.Get _ _) as [persisted|]; [destruct (_ && _)|]; reflexivity. }
  pose proof (SelectWorker_fixed env (Task.EventTask te)
                (Manager.set_EventDb
                   (Store.Put (Task.EventID te) te
                      (Manager.EventDb (Manager.set_Pending rest m)))
                   (Manager.set_Pending rest m)) p) as Hsel.
  destruct (Manager.SelectWorker env _ _) as [m1 selected]. simpl in Hsel.
  destruct selected as [[w|]|err]; try exact Hsel.
  cbn iota beta zeta.
  destruct (Manager.post_tasks env _ te) as [|status decodes]; [exact Hsel|].
  destruct (negb (status =? 201)); [exact Hsel|].
  destruct (negb decodes); [exact Hsel|].
  simpl. rewrite deref_insert_fixed; [exact Hsel | reflexivity].
Qed.

Lemma UpdateNodeStats_pass_fixed (env : Manager.Env) (m : Manager.Manager) :
  forall p,
    Facts.fixed_part (Node.deref (Manager.Nodes (Manager.UpdateNodeStats_pass env m)) p)
    = Facts.fixed_part (Node.deref (Manager.Nodes m) p).
Proof.
  intros p. unfold Manager.UpdateNodeStats_pass.
  apply (fold_fixed Manager.Nodes).
  intros st node q. simpl. apply deref_insert_fixed, GetStats_fixed.
Qed.

(** X20. No operation of the manager, and so no history of operations,
    writes a node's name, addresses, cores, role or its two allocation
    counters: placing a task on a node reserves neither disk nor memory
    on it, and the free disk that the candidate filter computes changes
    only with the disk total that the node's statistics report. *)
Theorem node_allocations_are_never_written (ops : list (Manager.Env * Manager.Op))
    (m : Manager.Manager) (p : Node.Ptr) :
  let n' := Node.deref (Manager.Nodes (Go.state_of (Manager.run ops m))) p in
  let n := Node.deref (Manager.Nodes m) p in
  Facts.fixed_part n' = Facts.fixed_part n
  /\ (Node.Disk n' = Node.Disk n ->
      forall t, Facts.fits (Manager.Nodes (Go.state_of (Manager.run ops m))) t p
                = Facts.fits (Manager.Nodes m) t p).
Proof.
  cbv zeta.
  assert (Facts.fixed_part (Node.deref (Manager.Nodes (Go.state_of (Manager.run ops m))) p)
          = Facts.fixed_part (Node.deref (Manager.Nodes m) p)) as Hfix.
  { revert m. induction ops as [|[env op] ops IH]; intros m; simpl; [reflexivity|].
    assert (Facts.fixed_part
              (Node.deref (Manager.Nodes (Go.state_of (Manager.step env op m))) p)
            = Facts.fixed_part (Node.deref (Manager.Nodes m) p)) as Hstep.
    { destruct op as [te| | | |]; simpl.
      - reflexivity.
      - apply SendWork_fixed.
      - rewrite (UpdateTasks_pass_frame env Manager.Nodes); reflexivity.
      - rewrite (doHealthChecks_frame env Manager.Nodes); reflexivity.
      - apply UpdateNodeStats_pass_fixed. }
    destruct (Manager.step env op m) as [m1|m1]; simpl in *;
      [rewrite IH|]; exact Hstep. }
  split; [exact Hfix|].
  intros Hdisk t. unfold Facts.fits. rewrite Hdisk.
  unfold Facts.fixed_part in Hfix. injection Hfix as _ _ _ _ _ Halloc _.
  rewrite Halloc. reflexivity.
Qed.
